(** * packer-plugin-meda: the build lifecycle of the Meda builder

    A shallow embedding of [plugin/steps.go], of the builder's [Run] and of
    [Artifact], with the properties of the build specification stated over
    it.  Go strings are byte strings ([string]); the state bag is a finite
    map from keys to values; subprocesses, the environment, the clock and
    the provisioning collaborators are an explicit environment record, so
    every step is a function that can be evaluated on a concrete scenario. *)

From Stdlib Require Import ZArith Ascii Bool Lia.
From Stdlib Require String DecimalString DecimalPos DecimalZ.
From stdpp Require Import gmap strings list.

(** ** Go library functions used by the steps *)

Definition newline : ascii := ascii_of_nat 10.
Definition tab : ascii := ascii_of_nat 9.
Definition dquote : ascii := ascii_of_nat 34.

(** Package [strings], on byte strings. *)
Module GoStrings.

(** [strings.HasPrefix(s, prefix)]. *)
Fixpoint HasPrefix (s prefix : string) : bool :=
  match prefix, s with
  | "", _ => true
  | String _ _, "" => false
  | String p prefix', String c s' => Ascii.eqb c p && HasPrefix s' prefix'
  end.

(** [strings.Contains(s, substr)]: [substr] occurs at some offset of [s]. *)
Fixpoint Contains (s substr : string) : bool :=
  HasPrefix s substr ||
  match s with
  | "" => false
  | String _ s' => Contains s' substr
  end.

(** [strings.Count(s, string(sep))] for a separator of one byte. *)
Fixpoint CountByte (s : string) (sep : ascii) : nat :=
  match s with
  | "" => 0
  | String c s' => (if Ascii.eqb c sep then 1 else 0) + CountByte s' sep
  end.

(** [strings.Split(s, string(sep))] for a separator of one byte: the
    substrings between the separators, a one-element list when [sep] does
    not occur (also for the empty string). *)
Fixpoint SplitByte (s : string) (sep : ascii) : list string :=
  match s with
  | "" => [""]
  | String c s' =>
      if Ascii.eqb c sep then "" :: SplitByte s' sep
      else match SplitByte s' sep with
           | [] => [String c ""]
           | part :: parts => String c part :: parts
           end
  end.

(** The table [asciiSpace] of package [strings]. *)
Definition asciiSpace (c : ascii) : bool :=
  match nat_of_ascii c with
  | 9 | 10 | 11 | 12 | 13 | 32 => true
  | _ => false
  end.

(** [unicode.IsSpace] on the runes above U+007F, by their UTF-8 encodings:
    U+0085 and U+00A0 in two bytes; U+1680, U+2000 to U+200A, U+2028,
    U+2029, U+202F, U+205F and U+3000 in three. *)
Definition isSpace2 (c0 c1 : ascii) : bool :=
  (nat_of_ascii c0 =? 194)%nat
  && ((nat_of_ascii c1 =? 133)%nat || (nat_of_ascii c1 =? 160)%nat).

Definition isSpace3 (c0 c1 c2 : ascii) : bool :=
  let b0 := nat_of_ascii c0 in
  let b1 := nat_of_ascii c1 in
  let b2 := nat_of_ascii c2 in
  ((b0 =? 225) && (b1 =? 154) && (b2 =? 128))%nat
  || ((b0 =? 226) && (b1 =? 128)
      && (((128 <=? b2) && (b2 <=? 138)) || (b2 =? 168) || (b2 =? 169)
          || (b2 =? 175)))%nat
  || ((b0 =? 226) && (b1 =? 129) && (b2 =? 159))%nat
  || ((b0 =? 227) && (b1 =? 128) && (b2 =? 128))%nat.

(** Leading white space removed, rune by rune. *)
Fixpoint TrimLeftSpace (s : string) : string :=
  match s with
  | "" => ""
  | String c0 s1 =>
      if asciiSpace c0 then TrimLeftSpace s1
      else
        match s1 with
        | "" => s
        | String c1 s2 =>
            if isSpace2 c0 c1 then TrimLeftSpace s2
            else
              match s2 with
              | "" => s
              | String c2 s3 =>
                  if isSpace3 c0 c1 c2 then TrimLeftSpace s3 else s
              end
        end
  end.

(** Trailing white space removed, on the reversed string: the bytes of a
    rune come last byte first. *)
Fixpoint trimReversed (r : string) : string :=
  match r with
  | "" => ""
  | String c0 r1 =>
      if asciiSpace c0 then trimReversed r1
      else
        match r1 with
        | "" => r
        | String c1 r2 =>
            if isSpace2 c1 c0 then trimReversed r2
            else
              match r2 with
              | "" => r
              | String c2 r3 =>
                  if isSpace3 c2 c1 c0 then trimReversed r3 else r
              end
        end
  end.

Definition TrimRightSpace (s : string) : string :=
  String.rev (trimReversed (String.rev s)).

(** [strings.TrimSpace(s)]: the white space of [unicode.IsSpace] removed
    from both ends. *)
Definition TrimSpace (s : string) : string :=
  TrimRightSpace (TrimLeftSpace s).

(** [strings.Join(parts, string(sep))]. *)
Fixpoint JoinByte (parts : list string) (sep : ascii) : string :=
  match parts with
  | [] => ""
  | [p] => p
  | p :: rest => p +:+ String sep (JoinByte rest sep)
  end.

End GoStrings.

(** Package [strconv]. *)
Module GoStrconv.

(** Go's [int] is taken to be 64 bits wide. *)
Definition maxInt : Z := 9223372036854775807.
Definition minInt : Z := -9223372036854775808.

Definition isDigit (c : ascii) : bool :=
  (48 <=? nat_of_ascii c)%nat && (nat_of_ascii c <=? 57)%nat.

Definition digitVal (c : ascii) : Z := Z.of_nat (nat_of_ascii c) - 48.

(** The digit loop of [Atoi]/[ParseUint]: [None] at the first byte that is
    not a decimal digit. *)
Fixpoint digits (acc : Z) (s : string) : option Z :=
  match s with
  | "" => Some acc
  | String c s' =>
      if isDigit c then digits (acc * 10 + digitVal c) s' else None
  end.

(** [strconv.Atoi(s)]: [Some n] when the error is nil.  An optional sign,
    then one decimal digit at least, and a value that fits [int]; a syntax
    error and a range error both give [None]. *)
Definition Atoi (s : string) : option Z :=
  match s with
  | "" => None
  | String c s' =>
      let neg := Ascii.eqb c "-" in
      let body := if neg || Ascii.eqb c "+" then s' else s in
      match body with
      | "" => None
      | _ =>
          match digits 0 body with
          | None => None
          | Some n =>
              let v := if neg then (- n)%Z else n in
              if (minInt <=? v)%Z && (v <=? maxInt)%Z then Some v else None
          end
      end
  end.

End GoStrconv.

Import GoStrings GoStrconv.

(** ** Address validation of [stepWaitForVM.Run] *)

(** The test applied to a trimmed line of the [ip] output. *)
Definition looksLikeIP (line : string) : bool :=
  (CountByte line "." =? 3)%nat && negb (Contains line " ") &&
  (let parts := SplitByte line "." in
   (length parts =? 4)%nat &&
   forallb (fun part => bool_decide (is_Some (Atoi part))) parts).

(** The loop over the lines of the output: the first trimmed line that passes
    the test, or the empty string. *)
Fixpoint scanLines (lines : list string) : string :=
  match lines with
  | [] => ""
  | line :: rest =>
      let line := TrimSpace line in
      if looksLikeIP line then line else scanLines rest
  end.

Definition extractIP (output : string) : string :=
  scanLines (SplitByte output newline).


(** Package [fmt]. *)
Module GoFmt.

(** The verb [%d] on an integer. *)
Definition itoa (n : Z) : string :=
  DecimalString.NilZero.string_of_int (Z.to_int n).

(** The verb [%t]. *)
Definition btoa (b : bool) : string := if b then "true" else "false".

(** *** [fmt.Errorf(format)] without operands

    [stepPullImage] and [stepPushImage] hand their composed message to
    [fmt.Errorf] as the format string.  [doPrintf] copies the format up to
    a ['%'], then reads flags, an argument index, a width, a precision and
    a verb; with no operand every verb but ["%%"] is reported in the
    output. *)

Definition isFlag (c : ascii) : bool :=
  match c with
  | "#" | "0" | "+" | "-" | " " => true
  | _ => false
  end%char.

Fixpoint skipFlags (s : string) : string :=
  match s with
  | "" => ""
  | String c s' => if isFlag c then skipFlags s' else s
  end.

Definition tooLarge (x : Z) : bool := (1000000 <? x)%Z || (x <? -1000000)%Z.

(** [parsenum]: whether a number was read, and the format after it.  A
    number that grows too large ends the scan at the end of its range. *)
Fixpoint parsenum (num : Z) (isnum : bool) (s : string) : bool * string :=
  match s with
  | "" => (isnum, "")
  | String c s' =>
      if isDigit c
      then if tooLarge num then (false, "")
           else parsenum (num * 10 + digitVal c) true s'
      else (isnum, s)
  end.

(** The bytes before the first [']'] and the format after it. *)
Fixpoint uptoBracket (s : string) : option (string * string) :=
  match s with
  | "" => None
  | String c s' =>
      if Ascii.eqb c "]" then Some ("", s')
      else match uptoBracket s' with
           | Some (inner, rest) => Some (String c inner, rest)
           | None => None
           end
  end.

(** [argNumber] with no operands, at [s]: the format after an explicit
    argument index [[n]], whether an index was found, and [goodArgNum]
    (no index is in range when there are no operands). *)
Definition argNumber (s : string) (good : bool) : string * bool * bool :=
  match s with
  | String "[" s' =>
      if (String.length s <? 3)%nat then (s', false, false)
      else match uptoBracket s' with
           | None => (s', false, false)
           | Some (inner, rest) =>
               let '(ok, unread) := parsenum 0 false inner in
               (rest, ok && bool_decide (unread = ""), false)
           end
  | _ => (s, false, good)
  end.

Definition inRange (c : ascii) (lo hi : nat) : bool :=
  (lo <=? nat_of_ascii c)%nat && (nat_of_ascii c <=? hi)%nat.

(** The length of the UTF-8 encoding at the head of [s], 0 when the bytes
    there are not a valid encoding ([utf8.DecodeRuneInString]). *)
Definition runeLen (s : string) : nat :=
  match s with
  | "" => 0
  | String c0 r =>
      let b0 := nat_of_ascii c0 in
      if (b0 <? 128)%nat then 1
      else if (b0 <? 194)%nat then 0
      else if (b0 <? 224)%nat then
        match r with
        | String c1 _ => if inRange c1 128 191 then 2 else 0
        | _ => 0
        end
      else if (b0 <? 240)%nat then
        match r with
        | String c1 (String c2 _) =>
            if inRange c1 (if (b0 =? 224)%nat then 160 else 128)
                          (if (b0 =? 237)%nat then 159 else 191)
               && inRange c2 128 191 then 3 else 0
        | _ => 0
        end
      else if (b0 <? 245)%nat then
        match r with
        | String c1 (String c2 (String c3 _)) =>
            if inRange c1 (if (b0 =? 240)%nat then 144 else 128)
                          (if (b0 =? 244)%nat then 143 else 191)
               && inRange c2 128 191 && inRange c3 128 191 then 4 else 0
        | _ => 0
        end
      else 0
  end.

Fixpoint takeBytes (n : nat) (s : string) : string :=
  match n, s with
  | S n', String c s' => String c (takeBytes n' s')
  | _, _ => ""
  end.

Fixpoint dropBytes (n : nat) (s : string) : string :=
  match n, s with
  | S n', String _ s' => dropBytes n' s'
  | _, _ => s
  end.

(** U+FFFD, which [writeRune] emits for an invalid encoding. *)
Definition runeError : string :=
  String (ascii_of_nat 239) (String (ascii_of_nat 191) (String (ascii_of_nat 189) "")).

(** The verb rune as it is written back, and the format after it. *)
Definition verbRune (s : string) : string * string :=
  match runeLen s with
  | O => (runeError, dropBytes 1 s)
  | n => (takeBytes n s, dropBytes n s)
  end.

Definition badWidthString : string := "%!(BADWIDTH)".
Definition badPrecString : string := "%!(BADPREC)".
Definition noVerbString : string := "%!(NOVERB)".

(** One directive, [s] being the format after its ['%']: the text it
    writes, and the format left ([None] when the format ended without a
    verb). *)
Definition directive (s : string) : string * option string :=
  let s := skipFlags s in
  let '(s, afterIndex, good) := argNumber s true in
  let '(s, out1, afterIndex, good) :=
    match s with
    | String "*" s' => (s', badWidthString, false, good)
    | _ => let '(widPresent, s') := parsenum 0 false s in
           (s', "", afterIndex, good && negb (afterIndex && widPresent))
    end in
  let '(s, out2, afterIndex, good) :=
    match s with
    | String "." s' =>
        let good := good && negb afterIndex in
        let '(s', afterIndex, good) := argNumber s' good in
        match s' with
        | String "*" s'' => (s'', badPrecString, false, good)
        | _ => let '(_, s'') := parsenum 0 false s' in
               (s'', "", afterIndex, good)
        end
    | _ => (s, "", afterIndex, good)
    end in
  let '(s, _, good) :=
    if afterIndex then (s, afterIndex, good) else argNumber s good in
  match s with
  | "" => (out1 +:+ out2 +:+ noVerbString, None)
  | _ =>
      let '(verb, rest) := verbRune s in
      let shown :=
        if bool_decide (verb = "%") then "%"
        else if good then "%!" +:+ verb +:+ "(MISSING)"
        else "%!" +:+ verb +:+ "(BADINDEX)" in
      (out1 +:+ out2 +:+ shown, Some rest)
  end.

(** [doPrintf(format, nil)]; every round consumes a byte of the format, so
    its length bounds the rounds. *)
Fixpoint doPrintf (rounds : nat) (format : string) : string :=
  match rounds with
  | O => ""
  | S rounds =>
      match format with
      | "" => ""
      | String c rest =>
          if Ascii.eqb c "%" then
            match directive rest with
            | (out, Some rest') => out +:+ doPrintf rounds rest'
            | (out, None) => out
            end
          else String c (doPrintf rounds rest)
      end
  end.

(** The message of the error [fmt.Errorf(format)]. *)
Definition Errorf0 (format : string) : string :=
  doPrintf (S (String.length format)) format.

End GoFmt.

Import GoFmt.

(** ** Data model *)

(** The fields of [communicator.Config] the builder reads or writes. *)
Record CommConfig := {
  CommType : string;
  SSHHost : string;
  SSHPrivateKeyFile : string;
  SSHPassword : string
}.

Record Config := {
  Comm : CommConfig;
  MedaBinary : string;
  MedaHost : string;
  MedaPort : Z;
  UseAPI : bool;
  VMName : string;
  BaseImage : string;
  Memory : string;
  CPUs : Z;
  DiskSize : string;
  UserDataFile : string;
  OutputImageName : string;
  OutputTag : string;
  Registry : string;
  Organization : string;
  PushToRegistry : bool;
  DryRun : bool
}.

Definition setComm (c : Config) (comm : CommConfig) : Config :=
  {| Comm := comm; MedaBinary := MedaBinary c; MedaHost := MedaHost c;
     MedaPort := MedaPort c; UseAPI := UseAPI c; VMName := VMName c;
     BaseImage := BaseImage c; Memory := Memory c; CPUs := CPUs c;
     DiskSize := DiskSize c; UserDataFile := UserDataFile c;
     OutputImageName := OutputImageName c; OutputTag := OutputTag c;
     Registry := Registry c; Organization := Organization c;
     PushToRegistry := PushToRegistry c; DryRun := DryRun c |}.

(** [config.Comm.SSHHost = ip]. *)
Definition setSSHHost (c : Config) (ip : string) : Config :=
  setComm c {| CommType := CommType (Comm c); SSHHost := ip;
               SSHPrivateKeyFile := SSHPrivateKeyFile (Comm c);
               SSHPassword := SSHPassword (Comm c) |}.

(** An [exec.Cmd] as the steps build it: the program, the arguments after
    the program's name, and the working directory (empty when it is not
    set). *)
Record Cmd := { Path : string; Args : list string; Dir : string }.

Global Instance Cmd_eq_dec : EqDecision Cmd.
Proof. solve_decision. Defined.

(** A subprocess that was started, with the time of its start in
    nanoseconds since the build began. *)
Record Call := { issuedAt : Z; command : Cmd }.

(** What [CombinedOutput] returns, and how long the call took. *)
Record ExecResult := { output : string; err : option string; took : N }.

(** A subprocess run through pipes: the errors of [StdoutPipe], [StderrPipe],
    [Start] and [Wait], and the lines the two scanners read. *)
Record PipedResult := {
  stdoutPipeErr : option string;
  stderrPipeErr : option string;
  startErr : option string;
  stdoutLines : list string;
  stderrLines : list string;
  waitErr : option string;
  tookPiped : N
}.

(** How a collaborator step of the SDK ends: it continues, or it halts the
    build, with the error it recorded if any. *)
Inductive ExtOutcome := ExtContinue | ExtHalt (e : option string).

(** Everything outside the builder.  Subprocess results are indexed by the
    number of subprocesses started before; [selectPick k] is the case a
    [select] takes after [k] polls when timer and ticker are both ready
    ([true] for the ticker); [cancelBefore i] and [cancelDuring i] tell
    whether the build context is found cancelled before step [i] or by the
    end of it; [keygen], [connect] and [provision] are the outcomes of the
    SDK's collaborator steps. *)
Record Env := {
  execCombined : nat -> Cmd -> ExecResult;
  execPiped : nat -> Cmd -> PipedResult;
  environ : gmap string string;
  startTime : Z;
  selectPick : nat -> bool;
  cancelBefore : nat -> bool;
  cancelDuring : nat -> bool;
  keygen : ExtOutcome;
  connect : ExtOutcome;
  provision : ExtOutcome
}.

(** [os.Getenv]: the empty string for a variable that is not set. *)
Definition Getenv (E : Env) (key : string) : string :=
  default "" (environ E !! key).

Inductive StepAction := ActionContinue | ActionHalt.

(** The values the state bag holds.  [VConfig] is the pointer [&b.config];
    the object it points to is the [config] of the [World]. *)
Inductive Value :=
| VConfig
| VUi
| VHook
| VCommunicator
| VString (s : string)
| VError (msg : string)
| VBool (b : bool).

Inductive UiMsg := Say (msg : string) | Error (msg : string).

(** The builder's view of the world during one build: the state bag, the
    shared [Config] object, what went to the UI and to the log, the
    subprocesses started, and the time elapsed (nanoseconds). *)
Record World := {
  bag : gmap string Value;
  config : Config;
  ui : list UiMsg;
  logs : list string;
  calls : list Call;
  now : Z
}.

Definition setBag (w : World) (b : gmap string Value) : World :=
  {| bag := b; config := config w; ui := ui w; logs := logs w;
     calls := calls w; now := now w |}.
Definition setConfig (w : World) (c : Config) : World :=
  {| bag := bag w; config := c; ui := ui w; logs := logs w;
     calls := calls w; now := now w |}.
Definition addUi (w : World) (m : UiMsg) : World :=
  {| bag := bag w; config := config w; ui := ui w ++ [m]; logs := logs w;
     calls := calls w; now := now w |}.
Definition addLog (w : World) (m : string) : World :=
  {| bag := bag w; config := config w; ui := ui w; logs := logs w ++ [m];
     calls := calls w; now := now w |}.
Definition addCall (w : World) (c : Cmd) : World :=
  {| bag := bag w; config := config w; ui := ui w; logs := logs w;
     calls := calls w ++ [{| issuedAt := now w; command := c |}];
     now := now w |}.
Definition setNow (w : World) (t : Z) : World :=
  {| bag := bag w; config := config w; ui := ui w; logs := logs w;
     calls := calls w; now := t |}.

(** ** A state monad with panics *)

Inductive Result (A : Type) : Type :=
| Ok (a : A) (w : World)
| Panic (msg : string) (w : World)
| OutOfFuel.
Arguments Ok {A} a w.
Arguments Panic {A} msg w.
Arguments OutOfFuel {A}.

Definition M (A : Type) : Type := World -> Result A.

Definition ret {A} (a : A) : M A := fun w => Ok a w.

Definition bind {A B} (m : M A) (k : A -> M B) : M B :=
  fun w =>
    match m w with
    | Ok a w' => k a w'
    | Panic msg w' => Panic msg w'
    | OutOfFuel => OutOfFuel
    end.

Notation "x <- m ;; k" := (bind m (fun x => k))
  (at level 100, m at next level, right associativity).
Notation "m ;;; k" := (bind m (fun _ => k))
  (at level 100, right associativity).

Definition panic {A} (msg : string) : M A := fun w => Panic msg w.

(** [state.Put(key, v)]. *)
Definition Put (key : string) (v : Value) : M unit :=
  fun w => Ok tt (setBag w (<[key := v]> (bag w))).

(** [state.GetOk(key)]. *)
Definition GetOk (key : string) : M (option Value) :=
  fun w => Ok (bag w !! key) w.

(** [state.Get(key).(string)]: panics unless the entry is a string. *)
Definition GetString (key : string) : M string :=
  v <- GetOk key ;;
  match v with
  | Some (VString s) => ret s
  | _ => panic ("interface conversion: " +:+ key +:+ " is not a string")
  end.

(** [state.Get("config")] asserted to be the [Config] pointer, and
    dereferenced. *)
Definition GetConfig : M Config :=
  v <- GetOk "config" ;;
  match v with
  | Some VConfig => fun w => Ok (config w) w
  | _ => panic "interface conversion: config is not a *Config"
  end.

(** [state.Get("ui").(packer.Ui)]. *)
Definition GetUi : M unit :=
  v <- GetOk "ui" ;;
  match v with
  | Some VUi => ret tt
  | _ => panic "interface conversion: ui is not a packer.Ui"
  end.

Definition uiSay (msg : string) : M unit := fun w => Ok tt (addUi w (Say msg)).
Definition uiError (msg : string) : M unit :=
  fun w => Ok tt (addUi w (Error msg)).
Definition logPrintf (msg : string) : M unit := fun w => Ok tt (addLog w msg).

Fixpoint uiSayAll (lines : list string) : M unit :=
  match lines with
  | [] => ret tt
  | l :: rest => uiSay l ;;; uiSayAll rest
  end.

Definition sleep (d : Z) : M unit := fun w => Ok tt (setNow w (now w + d)%Z).

(** [cmd.CombinedOutput()]: the subprocess is started, runs for [took] and
    its result comes back. *)
Definition CombinedOutput (E : Env) (c : Cmd) : M ExecResult :=
  fun w =>
    let r := execCombined E (length (calls w)) c in
    Ok r (setNow (addCall w c) (now w + Z.of_N (took r))%Z).

(** What the pipes, [Start] and [Wait] of [c] will give. *)
Definition pipedResult (E : Env) (c : Cmd) : M PipedResult :=
  fun w => Ok (execPiped E (length (calls w)) c) w.

(** [cmd.Start()]. *)
Definition Start (c : Cmd) : M unit := fun w => Ok tt (addCall w c).

(** ** Commands *)

Definition cargoDir : string := "/home/ubuntu/meda".

Definition q (s : string) : string := String dquote (s +:+ String dquote "").

Fixpoint tabs (n : nat) : string :=
  match n with
  | O => ""
  | S n => String tab (tabs n)
  end.

Fixpoint jsonFields (indent : nat) (fields : list string) : string :=
  match fields with
  | [] => ""
  | [f] => tabs indent +:+ f +:+ String newline ""
  | f :: rest =>
      tabs indent +:+ f +:+ "," +:+ String newline (jsonFields indent rest)
  end.

(** A raw-string JSON body as it is laid out in the source: the fields one
    tab deeper than the closing brace. *)
Definition jsonBody (indent : nat) (fields : list string) : string :=
  "{" +:+ String newline (jsonFields (S indent) fields +:+ tabs indent +:+ "}").

Definition apiURL (c : Config) (path : string) : string :=
  "http://" +:+ MedaHost c +:+ ":" +:+ itoa (MedaPort c) +:+ path.

(** The three ways a step addresses the backend: the REST API through
    [curl], [cargo run --] in the development tree, or the binary. *)
Definition medaCmd (c : Config) (curlArgs cliArgs : list string) : Cmd :=
  if UseAPI c then {| Path := "curl"; Args := curlArgs; Dir := "" |}
  else if bool_decide (MedaBinary c = "cargo")
       then {| Path := "cargo"; Args := ["run"; "--"] ++ cliArgs; Dir := cargoDir |}
       else {| Path := MedaBinary c; Args := cliArgs; Dir := "" |}.

Definition imagesCmd (c : Config) : Cmd :=
  medaCmd c ["-s"; apiURL c "/api/v1/images"] ["images"].

Definition pullCmd (c : Config) : Cmd :=
  medaCmd c
    ["-X"; "POST"; apiURL c "/api/v1/images/pull";
     "-H"; "Content-Type: application/json";
     "-d"; jsonBody 4 [q "image" +:+ ": " +:+ q (BaseImage c);
                       q "registry" +:+ ": " +:+ q "ghcr.io";
                       q "org" +:+ ": " +:+ q "cirunlabs"]]
    ["pull"; BaseImage c].

Definition createVMCmd (c : Config) (vmName : string) : Cmd :=
  medaCmd c
    ["-X"; "POST"; apiURL c "/api/v1/vms";
     "-H"; "Content-Type: application/json";
     "-d"; jsonBody 3 [q "name" +:+ ": " +:+ q vmName;
                       q "base_image" +:+ ": " +:+ q (BaseImage c);
                       q "memory" +:+ ": " +:+ q (Memory c);
                       q "cpus" +:+ ": " +:+ itoa (CPUs c);
                       q "disk" +:+ ": " +:+ q (DiskSize c);
                       q "force" +:+ ": false"]]
    (["run"; BaseImage c; "--name"; vmName;
      "--memory"; Memory c;
      "--cpus"; itoa (CPUs c);
      "--disk"; DiskSize c;
      "--no-start"]
     ++ (if bool_decide (UserDataFile c = "") then []
         else ["--user-data"; UserDataFile c])).

Definition vmURL (c : Config) (vmName suffix : string) : string :=
  apiURL c ("/api/v1/vms/" +:+ vmName +:+ suffix).

Definition startVMCmd (c : Config) (vmName : string) : Cmd :=
  medaCmd c ["-X"; "POST"; vmURL c vmName "/start"] ["start"; vmName].

Definition ipCmd (c : Config) (vmName : string) : Cmd :=
  medaCmd c ["-s"; vmURL c vmName "/ip"] ["ip"; vmName].

Definition stopVMCmd (c : Config) (vmName : string) : Cmd :=
  medaCmd c ["-X"; "POST"; vmURL c vmName "/stop"] ["stop"; vmName].

Definition createImageCmd (c : Config) (vmName : string) : Cmd :=
  medaCmd c
    ["-X"; "POST"; apiURL c "/api/v1/images";
     "-H"; "Content-Type: application/json";
     "-d"; jsonBody 3 [q "name" +:+ ": " +:+ q (OutputImageName c);
                       q "tag" +:+ ": " +:+ q (OutputTag c);
                       q "from_vm" +:+ ": " +:+ q vmName]]
    ["create-image"; OutputImageName c;
     "--tag"; OutputTag c;
     "--from-vm"; vmName].

(** The target coordinate of [stepPushImage]. *)
Definition targetImage (c : Config) : string :=
  if bool_decide (Organization c = "")
  then Registry c +:+ "/" +:+ OutputImageName c +:+ ":" +:+ OutputTag c
  else Registry c +:+ "/" +:+ Organization c +:+ "/" +:+
       OutputImageName c +:+ ":" +:+ OutputTag c.

Definition pushCmd (c : Config) (imageName : string) : Cmd :=
  medaCmd c
    ["-X"; "POST"; apiURL c "/api/v1/images/push";
     "-H"; "Content-Type: application/json";
     "-d"; jsonBody 2 [q "name" +:+ ": " +:+ q imageName;
                       q "image" +:+ ": " +:+ q (targetImage c);
                       q "registry" +:+ ": " +:+ q (Registry c);
                       q "dry_run" +:+ ": " +:+ btoa (DryRun c)]]
    (["push"; OutputImageName c; targetImage c]
     ++ (if bool_decide (Registry c = "") || bool_decide (Registry c = "ghcr.io")
         then [] else ["--registry"; Registry c])
     ++ (if DryRun c then ["--dry-run"] else [])).

Definition deleteVMCmd (c : Config) (vmName : string) : Cmd :=
  medaCmd c ["-X"; "DELETE"; vmURL c vmName ""] ["delete"; vmName].

(** ** The steps of [plugin/steps.go] *)

(** The text the scanner of standard error leaves in [stderrOutput]: every
    line followed by a newline.  (The reading goroutine is taken to have
    drained the pipe when the step reads the buffer, which the source waits
    100 ms for; on the UI the lines of standard output are shown before
    those of standard error.) *)
Definition captured (lines : list string) : string :=
  foldr (fun line acc => line +:+ String newline acc) "" lines.

Definition Millisecond : Z := 1000000.
Definition Second : Z := 1000 * Millisecond.
Definition Minute : Z := 60 * Second.

(** The failure test of the pull. *)
Definition pullFailed (waitErr : option string) (stderrContent : string) : bool :=
  bool_decide (is_Some waitErr)
  || Contains stderrContent "unauthorized"
  || Contains stderrContent "denied".

(** The failure test of the push. *)
Definition pushFailed (waitErr : option string) (stderrContent : string) : bool :=
  bool_decide (is_Some waitErr)
  || Contains stderrContent "unauthorized"
  || Contains stderrContent "denied"
  || Contains stderrContent "authentication required".

(** [errorMsg] as both steps extend it: the error of [Wait] after a colon,
    the trimmed text of standard error after a dash. *)
Definition failureMsg (what : string) (waitErr : option string)
    (stderrContent : string) : string :=
  what
  +:+ match waitErr with Some e => ": " +:+ e | None => "" end
  +:+ (if bool_decide (stderrContent = "") then ""
       else " - " +:+ TrimSpace stderrContent).

(** The common tail of [stepPullImage.Run] and [stepPushImage.Run]: pipes,
    start, both readers, wait, and the check of exit and captured text. *)
Definition runPiped (E : Env) (c : Cmd) (startMsg what : string)
    (failed : option string -> string -> bool) (onSuccess : M StepAction)
    : M StepAction :=
  r <- pipedResult E c ;;
  if bool_decide (is_Some (stdoutPipeErr r)) then ret ActionHalt
  else if bool_decide (is_Some (stderrPipeErr r)) then ret ActionHalt
  else
    Start c ;;;
    match startErr r with
    | Some e =>
        let err := startMsg +:+ e in
        Put "error" (VError err) ;;;
        uiError err ;;;
        ret ActionHalt
    | None =>
        uiSayAll (stdoutLines r) ;;;
        uiSayAll (stderrLines r) ;;;
        sleep (Z.of_N (tookPiped r)) ;;;
        sleep (100 * Millisecond) ;;;
        let stderrContent := captured (stderrLines r) in
        if failed (waitErr r) stderrContent then
          let err := Errorf0 (failureMsg what (waitErr r) stderrContent) in
          Put "error" (VError err) ;;;
          uiError err ;;;
          ret ActionHalt
        else onSuccess
    end.

(** [stepPullImage.Run]. *)
Definition stepPullImage_Run (E : Env) : M StepAction :=
  config <- GetConfig ;;
  GetUi ;;;
  uiSay ("Ensuring base image '" +:+ BaseImage config +:+ "' is available locally") ;;;
  r <- CombinedOutput E (imagesCmd config) ;;
  let imageExists :=
    bool_decide (err r = None) && Contains (output r) (BaseImage config) in
  if negb imageExists then
    uiSay ("Base image '" +:+ BaseImage config +:+
           "' not found locally, pulling from registry...") ;;;
    runPiped E (pullCmd config) "failed to start pull command: "
      ("failed to pull base image '" +:+ BaseImage config +:+ "'") pullFailed
      (uiSay ("Successfully pulled base image '" +:+ BaseImage config +:+ "'") ;;;
       ret ActionContinue)
  else
    uiSay ("Base image '" +:+ BaseImage config +:+ "' already available locally") ;;;
    ret ActionContinue.

(** The shape of [stepCreateVM.Run], [stepStartVM.Run] and
    [stepCreateImage.Run] after the command is built: the error of
    [CombinedOutput] alone decides. *)
Definition runFatal (E : Env) (c : Cmd) (what : string)
    (onSuccess : M StepAction) : M StepAction :=
  r <- CombinedOutput E c ;;
  match err r with
  | Some e =>
      let err := what +:+ e +:+ " - " +:+ output r in
      Put "error" (VError err) ;;;
      uiError err ;;;
      ret ActionHalt
  | None => onSuccess
  end.

(** [stepCreateVM.Run]. *)
Definition stepCreateVM_Run (E : Env) : M StepAction :=
  config <- GetConfig ;;
  GetUi ;;;
  vmName <- GetString "vm_name" ;;
  uiSay ("Creating VM '" +:+ vmName +:+ "' with base image '" +:+
         BaseImage config +:+ "'") ;;;
  runFatal E (createVMCmd config vmName) "failed to create VM: "
    (uiSay ("VM '" +:+ vmName +:+ "' created successfully") ;;;
     ret ActionContinue).

(** [stepStartVM.Run]. *)
Definition stepStartVM_Run (E : Env) : M StepAction :=
  config <- GetConfig ;;
  GetUi ;;;
  vmName <- GetString "vm_name" ;;
  uiSay ("Starting VM '" +:+ vmName +:+ "'") ;;;
  runFatal E (startVMCmd config vmName) "failed to start VM: "
    (uiSay ("VM '" +:+ vmName +:+ "' started successfully") ;;;
     ret ActionContinue).

(** *** [stepWaitForVM.Run]: timer, ticker and [select] *)

(** [time.After(5 * time.Minute)] and [time.NewTicker(10 * time.Second)]. *)
Definition waitTimeout : Z := 5 * Minute.
Definition tickInterval : Z := 10 * Second.

Inductive SelectCase := CaseTimeout | CaseTick.

(** The [select] of the loop, entered at [now] with timer and ticker
    created at [t0].  The timer's channel is ready from [t0 + waitTimeout]
    on; the ticker sends at every multiple of [tickInterval] after [t0] into
    a channel of capacity one, [buffered] telling whether a tick waits
    there.  A ready case is taken at once, [pick] choosing when both are
    ready; otherwise the loop blocks until the earlier of the next tick and
    the deadline, and [pick] chooses when they fall due together.  The
    result is the case taken and the time it is taken at. *)
Definition select (pick : bool) (t0 now : Z) (buffered : bool)
    : SelectCase * Z :=
  let deadline := (t0 + waitTimeout)%Z in
  let either := if pick then CaseTick else CaseTimeout in
  if buffered then
    if (deadline <=? now)%Z then (either, now) else (CaseTick, now)
  else if (deadline <=? now)%Z then (CaseTimeout, now)
  else
    let next := (t0 + ((now - t0) / tickInterval + 1) * tickInterval)%Z in
    if (next <? deadline)%Z then (CaseTick, next)
    else if (deadline <? next)%Z then (CaseTimeout, deadline)
    else (either, deadline).

(** Whether a tick fell due after [from] and not after [to]: it waits in the
    ticker's channel when the poll that ran meanwhile returns. *)
Definition tickDue (t0 from to : Z) : bool :=
  ((from - t0) / tickInterval <? (to - t0) / tickInterval)%Z.

Definition timeoutMsg : string := "timeout waiting for VM to be ready".

(** The [for { select { ... } }] loop after [k] polls; [fuel] bounds the
    number of rounds. *)
Fixpoint waitLoop (E : Env) (fuel : nat) (vmName : string) (t0 : Z)
    (buffered : bool) (k : nat) : M StepAction :=
  match fuel with
  | O => fun _ => OutOfFuel
  | S fuel =>
      fun w =>
        let '(case, at_) := select (selectPick E k) t0 (now w) buffered in
        (match case with
         | CaseTimeout =>
             let err := Errorf0 timeoutMsg in
             Put "error" (VError err) ;;;
             uiError err ;;;
             ret ActionHalt
         | CaseTick =>
             r <- CombinedOutput E (ipCmd (config w) vmName) ;;
             let ip :=
               if bool_decide (err r = None) && (0 <? String.length (output r))%nat
               then extractIP (output r) else "" in
             if negb (bool_decide (ip = "")) && negb (bool_decide (ip = "null"))
             then
               Put "vm_ip" (VString ip) ;;;
               Put "instance_ip" (VString ip) ;;;
               (fun w' => Ok tt (setConfig w' (setSSHHost (config w') ip))) ;;;
               uiSay ("VM is ready with IP: " +:+ ip) ;;;
               ret ActionContinue
             else
               uiSay "VM not ready yet, waiting..." ;;;
               (fun w' =>
                  waitLoop E fuel vmName t0 (tickDue t0 at_ (now w')) (S k) w')
         end) (setNow w at_)
  end.

(** [stepWaitForVM.Run]. *)
Definition stepWaitForVM_Run (E : Env) (fuel : nat) : M StepAction :=
  GetConfig ;;;
  GetUi ;;;
  vmName <- GetString "vm_name" ;;
  uiSay ("Waiting for VM '" +:+ vmName +:+ "' to be ready...") ;;;
  (fun w => waitLoop E fuel vmName (now w) false 0 w).

(** [stepStopVM.Run]. *)
Definition stepStopVM_Run (E : Env) : M StepAction :=
  config <- GetConfig ;;
  GetUi ;;;
  vmName <- GetString "vm_name" ;;
  uiSay ("Stopping VM '" +:+ vmName +:+ "'") ;;;
  r <- CombinedOutput E (stopVMCmd config vmName) ;;
  match err r with
  | Some e =>
      logPrintf ("Warning: failed to stop VM: " +:+ e +:+ " - " +:+ output r)
  | None => uiSay ("VM '" +:+ vmName +:+ "' stopped successfully")
  end ;;;
  ret ActionContinue.

(** [stepCreateImage.Run]. *)
Definition stepCreateImage_Run (E : Env) : M StepAction :=
  config <- GetConfig ;;
  GetUi ;;;
  vmName <- GetString "vm_name" ;;
  let imageName := OutputImageName config +:+ ":" +:+ OutputTag config in
  uiSay ("Creating image '" +:+ imageName +:+ "' from VM '" +:+ vmName +:+ "'") ;;;
  runFatal E (createImageCmd config vmName) "failed to create image: "
    (Put "image_name" (VString imageName) ;;;
     uiSay ("Image '" +:+ imageName +:+ "' created successfully") ;;;
     ret ActionContinue).

Definition tokenMsg : string :=
  "GITHUB_TOKEN environment variable is required for pushing to GHCR. Please set it with: export GITHUB_TOKEN=your_token".

(** [stepPushImage.Run]. *)
Definition stepPushImage_Run (E : Env) : M StepAction :=
  config <- GetConfig ;;
  GetUi ;;;
  imageName <- GetString "image_name" ;;
  if negb (PushToRegistry config) then
    uiSay "Push to registry disabled, skipping push step" ;;;
    ret ActionContinue
  else
    let push :=
      uiSay ("Pushing image '" +:+ imageName +:+ "' to '" +:+
             targetImage config +:+ "'") ;;;
      runPiped E (pushCmd config imageName) "failed to start push command: "
        "failed to push image" pushFailed
        (uiSay ("Image '" +:+ imageName +:+ "' pushed successfully to '" +:+
                targetImage config +:+ "'") ;;;
         Put "pushed_image" (VString (targetImage config)) ;;;
         ret ActionContinue) in
    if Contains (Registry config) "ghcr.io" then
      if bool_decide (Getenv E "GITHUB_TOKEN" = "") then
        let err := Errorf0 tokenMsg in
        Put "error" (VError err) ;;;
        uiError err ;;;
        ret ActionHalt
      else
        uiSay "GITHUB_TOKEN found for GHCR authentication" ;;;
        push
    else push.

(** [stepCleanupVM.Run]. *)
Definition stepCleanupVM_Run (E : Env) : M StepAction :=
  config <- GetConfig ;;
  GetUi ;;;
  vmName <- GetString "vm_name" ;;
  uiSay ("Cleaning up VM '" +:+ vmName +:+ "'") ;;;
  r <- CombinedOutput E (deleteVMCmd config vmName) ;;
  match err r with
  | Some e =>
      logPrintf ("Warning: failed to delete VM: " +:+ e +:+ " - " +:+ output r)
  | None => uiSay ("VM '" +:+ vmName +:+ "' cleaned up successfully")
  end ;;;
  ret ActionContinue.

(** ** The step runner and [Builder.Run] *)

Record Step := {
  Run : Env -> nat -> M StepAction;
  Cleanup : M unit
}.

(** The steps of [steps.go]; their [Cleanup] methods are empty. *)
Definition stepPullImage : Step :=
  {| Run := fun E _ => stepPullImage_Run E; Cleanup := ret tt |}.
Definition stepCreateVM : Step :=
  {| Run := fun E _ => stepCreateVM_Run E; Cleanup := ret tt |}.
Definition stepStartVM : Step :=
  {| Run := fun E _ => stepStartVM_Run E; Cleanup := ret tt |}.
Definition stepWaitForVM : Step :=
  {| Run := stepWaitForVM_Run; Cleanup := ret tt |}.
Definition stepStopVM : Step :=
  {| Run := fun E _ => stepStopVM_Run E; Cleanup := ret tt |}.
Definition stepCreateImage : Step :=
  {| Run := fun E _ => stepCreateImage_Run E; Cleanup := ret tt |}.
Definition stepPushImage : Step :=
  {| Run := fun E _ => stepPushImage_Run E; Cleanup := ret tt |}.
Definition stepCleanupVM : Step :=
  {| Run := fun E _ => stepCleanupVM_Run E; Cleanup := ret tt |}.

(** A collaborator step of the SDK ([communicator.StepSSHKeyGen],
    [communicator.StepConnect], [commonsteps.StepProvision]), outside the
    repository: the builder sees of it that it continues, or that it halts
    the build after recording its error, if it has one. *)
Definition collaborator (o : ExtOutcome) : M StepAction :=
  match o with
  | ExtContinue => ret ActionContinue
  | ExtHalt (Some e) => Put "error" (VError e) ;;; ret ActionHalt
  | ExtHalt None => ret ActionHalt
  end.

(** [multistep.If(on, step)]: the step, or a step that does nothing. *)
Definition If (on : bool) (step : Step) : Step :=
  if on then step
  else {| Run := fun _ _ => ret ActionContinue; Cleanup := ret tt |}.

Definition StepSSHKeyGen : Step :=
  {| Run := fun E _ => collaborator (keygen E); Cleanup := ret tt |}.

(** [communicator.StepConnect] with the [Host] function [Builder.Run] gives
    it, which reads ["vm_ip"] from the state bag; a connection is stored as
    ["communicator"]. *)
Definition StepConnect : Step :=
  {| Run := fun E _ =>
       GetString "vm_ip" ;;;
       action <- collaborator (connect E) ;;
       match action with
       | ActionContinue => Put "communicator" VCommunicator ;;; ret ActionContinue
       | ActionHalt => ret ActionHalt
       end;
     Cleanup := ret tt |}.

Definition StepProvision : Step :=
  {| Run := fun E _ => collaborator (provision E); Cleanup := ret tt |}.

(** The step list of [Builder.Run]. *)
Definition buildSteps (c : Config) : list Step :=
  [ stepPullImage;
    stepCreateVM;
    stepStartVM;
    stepWaitForVM;
    If (bool_decide (CommType (Comm c) = "ssh")
        && bool_decide (SSHPrivateKeyFile (Comm c) = "")
        && bool_decide (SSHPassword (Comm c) = ""))
       StepSSHKeyGen;
    StepConnect;
    StepProvision;
    stepStopVM;
    stepCreateImage;
    stepPushImage;
    stepCleanupVM ].

Definition StateCancelled : string := "cancelled".
Definition StateHalted : string := "halted".

(** [multistep.BasicRunner.Run] of the SDK, the runner that
    [commonsteps.NewRunner] returns for the default error policy, on the
    steps from index [i] on.  In step order: a cancelled context ends the
    loop with [StateCancelled] in the bag; else the step's [Cleanup] is
    deferred and its [Run] called; the loop ends when the bag holds
    [StateCancelled] afterwards, and with [StateHalted] put into the bag
    when the step returned [ActionHalt].  The deferred [Cleanup]s run last,
    latest first.  A step after the one that ended the loop is never run. *)
Fixpoint runSteps (E : Env) (fuel : nat) (i : nat) (steps : list Step)
    : M unit :=
  match steps with
  | [] => ret tt
  | step :: rest =>
      if cancelBefore E i then Put StateCancelled (VBool true)
      else
        action <- Run step E fuel ;;
        (if cancelDuring E i then Put StateCancelled (VBool true) else ret tt) ;;;
        cancelled <- GetOk StateCancelled ;;
        match cancelled, action with
        | Some _, _ => ret tt
        | None, ActionHalt => Put StateHalted (VBool true)
        | None, ActionContinue => runSteps E fuel (S i) rest
        end ;;;
        Cleanup step
  end.

(** [Artifact] of [main.go]. *)
Record Artifact := {
  ImageName : string;
  PushedImage : string;
  ArtifactConfig : Config
}.

(** [Artifact.String]. *)
Definition Artifact_String (a : Artifact) : string :=
  if negb (bool_decide (PushedImage a = ""))
  then "Meda image: " +:+ ImageName a +:+ " (pushed to " +:+ PushedImage a +:+ ")"
  else "Meda image: " +:+ ImageName a.

(** [Artifact.State]: [None] for nil. *)
Definition Artifact_State (a : Artifact) (name : string) : option string :=
  if bool_decide (name = "image_name") then Some (ImageName a)
  else if bool_decide (name = "pushed_image") then Some (PushedImage a)
  else if bool_decide (name = "registry") then Some (Registry (ArtifactConfig a))
  else if bool_decide (name = "organization")
       then Some (Organization (ArtifactConfig a))
  else None.

(** [Time.Unix]: whole seconds of a time in nanoseconds. *)
Definition Unix (t : Z) : Z := (t / Second)%Z.

(** The VM name [Builder.Run] generates. *)
Definition generateVMName (vmName : string) (unixSeconds : Z) : string :=
  "packer-" +:+ vmName +:+ "-" +:+ itoa unixSeconds.

(** What [Builder.Run] returns: the artifact and the error, by its
    message. *)
Definition RunResult : Type := option Artifact * option string.

(** The end of [Builder.Run], after the runner. *)
Definition report : M RunResult :=
  rawErr <- GetOk "error" ;;
  match rawErr with
  | Some (VError e) => ret (None, Some e)
  | Some _ => panic "interface conversion: error is not an error"
  | None =>
      cancelled <- GetOk StateCancelled ;;
      match cancelled with
      | Some _ => ret (None, Some "build was cancelled")
      | None =>
          halted <- GetOk StateHalted ;;
          match halted with
          | Some _ => ret (None, Some "build was halted")
          | None =>
              imageName <- GetOk "image_name" ;;
              match imageName with
              | None => ret (None, Some "failed to get image name from state")
              | Some imageName =>
                  pushedImage <- GetOk "pushed_image" ;;
                  match pushedImage, imageName with
                  | Some (VString pushed), VString name =>
                      fun w => Ok (Some {| ImageName := name;
                                           PushedImage := pushed;
                                           ArtifactConfig := config w |}, None) w
                  | None, VString name =>
                      fun w => Ok (Some {| ImageName := name;
                                           PushedImage := "";
                                           ArtifactConfig := config w |}, None) w
                  | Some (VString _), _ | None, _ =>
                      panic "interface conversion: image_name is not a string"
                  | Some _, _ =>
                      panic "interface conversion: pushed_image is not a string"
                  end
              end
          end
      end
  end.

(** The world [Builder.Run] starts from. *)
Definition initialWorld (c : Config) : World :=
  {| bag := ∅; config := c; ui := []; logs := []; calls := []; now := 0 |}.

(** [Builder.Run]. *)
Definition Builder_Run (E : Env) (fuel : nat) (c : Config) : Result RunResult :=
  (Put "config" VConfig ;;;
   Put "hook" VHook ;;;
   Put "ui" VUi ;;;
   Put "vm_name" (VString (generateVMName (VMName c) (Unix (startTime E)))) ;;;
   runSteps E fuel 0 (buildSteps c) ;;;
   report) (initialWorld c).

(** The number of times [c] was started. *)
Definition timesCalled (c : Cmd) (w : World) : nat :=
  length (filter (fun call => command call = c) (calls w)).

(** ** Notions the properties are stated with *)

(** Decimal digits only. *)
Fixpoint allDigits (s : string) : bool :=
  match s with
  | "" => true
  | String c s' => isDigit c && allDigits s'
  end.

(** In the specification's words, a segment is "parseable as a decimal
    integer": [strconv.Atoi] returns no error on it. *)
Definition parseable (s : string) : Prop := is_Some (Atoi s).

(** In the specification's words: "exactly four dot-separated segments, each
    parseable as a decimal integer", the whole line being these segments. *)
Definition fourDecimalSegments (line : string) : Prop :=
  exists a b c d,
    line = a +:+ "." +:+ b +:+ "." +:+ c +:+ "." +:+ d
    /\ parseable a /\ parseable b /\ parseable c /\ parseable d.

(** No line of an output passes the address test. *)
Definition rejected (out : string) : Prop :=
  forall line, line ∈ SplitByte out newline -> looksLikeIP (TrimSpace line) = false.

(** A result of the [ip] command that yields no address: the command failed
    or its output is rejected. *)
Definition noAddress (r : ExecResult) : Prop :=
  err r <> None \/ rejected (output r).

(** The world after a poll taken at [at_] that yielded no address. *)
Definition afterPoll (E : Env) (vmName : string) (at_ : Z) (w : World) : World :=
  let c := ipCmd (config w) vmName in
  let r := execCombined E (length (calls w)) c in
  addUi (setNow (addCall (setNow w at_) c) (at_ + Z.of_N (took r))%Z)
        (Say "VM not ready yet, waiting...").

(** The state bag holds the configuration and the UI, as [Builder.Run]
    stores them before the runner starts. *)
Definition prepared (w : World) : Prop :=
  bag w !! "config" = Some VConfig /\ bag w !! "ui" = Some VUi.

(** The existence check of [stepPullImage], run in [w], reports the base
    image as present. *)
Definition reportsPresent (E : Env) (w : World) : Prop :=
  let r := execCombined E (length (calls w)) (imagesCmd (config w)) in
  err r = None /\ Contains (output r) (BaseImage (config w)) = true.

(** The pipes and the start of a piped subprocess gave no error. *)
Definition started (r : PipedResult) : Prop :=
  stdoutPipeErr r = None /\ stderrPipeErr r = None /\ startErr r = None.

(** The world with lines said on the UI, one after another. *)
Definition sayLines (lines : list string) (w : World) : World :=
  fold_left (fun w l => addUi w (Say l)) lines w.

(** The world after a piped subprocess [c] with result [r] has been waited
    for. *)
Definition afterPiped (r : PipedResult) (c : Cmd) (w : World) : World :=
  let w1 := sayLines (stderrLines r) (sayLines (stdoutLines r) (addCall w c)) in
  setNow (setNow w1 (now w1 + Z.of_N (tookPiped r))%Z)
         (now w1 + Z.of_N (tookPiped r) + 100 * Millisecond)%Z.

(** The world after a step has recorded [msg] as the build's error. *)
Definition withError (msg : string) (w : World) : World :=
  addUi (setBag w (<["error" := VError msg]> (bag w))) (Error msg).

(** ** Scenarios the properties are tried on *)

Definition demoComm : CommConfig :=
  {| CommType := "ssh"; SSHHost := ""; SSHPrivateKeyFile := "";
     SSHPassword := "cirun" |}.

(** A configuration after [Prepare], for the local binary and the default
    registry. *)
Definition demoConfig (push : bool) : Config :=
  {| Comm := demoComm; MedaBinary := "meda"; MedaHost := "127.0.0.1";
     MedaPort := 7777; UseAPI := false; VMName := "web";
     BaseImage := "ubuntu:latest"; Memory := "1G"; CPUs := 2;
     DiskSize := "10G"; UserDataFile := ""; OutputImageName := "img";
     OutputTag := "v1"; Registry := "ghcr.io"; Organization := "acme";
     PushToRegistry := push; DryRun := false |}.

(** A backend on which every command succeeds after [delay]: the image list
    names the base image and [ip] prints [address]. *)
Definition demoBackend (address : string) (delay : N) (n : nat) (c : Cmd)
    : ExecResult :=
  {| output :=
       if bool_decide (head (Args c) = Some "images") then "ubuntu:latest"
       else if bool_decide (head (Args c) = Some "ip") then address
       else "";
     err := None;
     took := delay |}.

Definition quietPiped (stderr : list string) (exit : option string)
    : PipedResult :=
  {| stdoutPipeErr := None; stderrPipeErr := None; startErr := None;
     stdoutLines := []; stderrLines := stderr; waitErr := exit;
     tookPiped := 0 |}.

Definition demoEnv (vars : gmap string string) (address : string) (delay : N)
    (pick : bool) (piped : PipedResult) (startedAt : Z) : Env :=
  {| execCombined := demoBackend address delay;
     execPiped := fun _ _ => piped;
     environ := vars;
     startTime := startedAt;
     selectPick := fun _ => pick;
     cancelBefore := fun _ => false;
     cancelDuring := fun _ => false;
     keygen := ExtContinue; connect := ExtContinue; provision := ExtContinue |}.

(** The usual environment: the VM answers with its address at once, the
    token is set when [token] says so, every subprocess succeeds. *)
Definition plainEnv (token : bool) : Env :=
  demoEnv (if token then {["GITHUB_TOKEN" := "ghp_token"]} else ∅)
          "10.0.0.5" 0 false (quietPiped [] None) 1700000000123456789.

(** The state bag as it is when [stepPushImage] is reached. *)
Definition demoWorld (push : bool) : World :=
  {| bag := <["image_name" := VString "img:v1"]>
              (<["vm_name" := VString "packer-web-1700000000"]>
                 (<["ui" := VUi]> (<["config" := VConfig]> ∅)));
     config := demoConfig push; ui := []; logs := []; calls := []; now := 0 |}.

(** The entry of the state bag a computation ends with. *)
Definition finalEntry {A} (r : Result A) (key : string) : option Value :=
  match r with
  | Ok _ w => bag w !! key
  | Panic _ w => bag w !! key
  | OutOfFuel => None
  end.

(** A registry session in which the upload is refused: the subprocess exits
    with status 1 and its standard error reports a quota in per cent. *)
Definition refusedPush : PipedResult :=
  quietPiped ["denied: quota 100% used"] (Some "exit status 1").

Definition refusedEnv : Env :=
  demoEnv {["GITHUB_TOKEN" := "ghp_token"]} "10.0.0.5" 0 false refusedPush
          1700000000123456789.

(** A state bag after a build that was cancelled while a step had recorded
    an error. *)
Definition failedWorld : World :=
  {| bag := <["error" := VError "failed to start VM: exit status 1 - "]>
              (<[StateCancelled := VBool true]>
                 (<[StateHalted := VBool true]> (bag (demoWorld true))));
     config := demoConfig true; ui := []; logs := []; calls := []; now := 0 |}.

(** The world in which the runner starts: the state bag holds the
    configuration, the hook, the UI and the generated VM name. *)
Definition startWorld (E : Env) (c : Config) : World :=
  setBag (initialWorld c)
    (<["vm_name" := VString (generateVMName (VMName c) (Unix (startTime E)))]>
       (<["ui" := VUi]> (<["hook" := VHook]> (<["config" := VConfig]> ∅)))).

(** No [ip] command ever yields an address. *)
Definition neverReady (E : Env) : Prop :=
  forall n c, noAddress (execCombined E n c).

(** Every subprocess returns in less than a tick interval. *)
Definition promptPolls (E : Env) : Prop :=
  forall n c, (Z.of_N (took (execCombined E n c)) < tickInterval)%Z.

(** [count] polls [c], started at the ticks [first], [first + 1], ... of a
    ticker created at [t0]. *)
Definition pollsAt (c : Cmd) (t0 : Z) (first count : nat) : list Call :=
  map (fun i => {| issuedAt := (t0 + Z.of_nat i * tickInterval)%Z; command := c |})
      (seq first count).

(** A backend whose VM never gets an address, every call taking [delay]. *)
Definition stuckEnv (delay : N) (pick : bool) : Env :=
  demoEnv ∅ "" delay pick (quietPiped [] None) 1700000000123456789.

(** The specification's claim on the timeout: whenever no address is ever
    yielded, the step halts with the timeout error recorded, after 30 polls
    and not before. *)
Definition timeoutAfterThirtyPolls : Prop :=
  forall E fuel w vmName a w',
    prepared w -> bag w !! "vm_name" = Some (VString vmName) ->
    neverReady E ->
    stepWaitForVM_Run E fuel w = Ok a w' ->
    a = ActionHalt
    /\ bag w' !! "error" = Some (VError timeoutMsg)
    /\ length (calls w') = length (calls w) + 30.

(** ** What a step leaves alone *)

(** [c'] is [c] but for the communicator settings. *)
Definition sameOutput (c c' : Config) : Prop := c' = setComm c (Comm c').

(** From [w] to [w'] the configuration changed in its communicator settings
    at most, and the published-image entry of the state bag not at all. *)
Definition keeps (w w' : World) : Prop :=
  sameOutput (config w) (config w')
  /\ bag w' !! "pushed_image" = bag w !! "pushed_image".

(** A computation that, when it returns, [keeps] the world. *)
Definition preserves {A} (m : M A) : Prop :=
  forall w a w', m w = Ok a w' -> keeps w w'.

(** The worlds between which every step of a list returned
    [ActionContinue]. *)
Inductive continued (E : Env) (fuel : nat) : list Step -> World -> World -> Prop :=
| continued_nil w : continued E fuel [] w w
| continued_cons step rest w w1 w2 :
    Run step E fuel w = Ok ActionContinue w1 ->
    continued E fuel rest w1 w2 ->
    continued E fuel (step :: rest) w w2.

(** ** Further notions: single steps *)

(** The one subprocess a single-shot step starts in [w]. *)
Definition oneCall (w : World) (c : Cmd) : list Call :=
  calls w ++ [{| issuedAt := now w; command := c |}].

(** [c] with another user-data file. *)
Definition setUserDataFile (c : Config) (file : string) : Config :=
  {| Comm := Comm c; MedaBinary := MedaBinary c; MedaHost := MedaHost c;
     MedaPort := MedaPort c; UseAPI := UseAPI c; VMName := VMName c;
     BaseImage := BaseImage c; Memory := Memory c; CPUs := CPUs c;
     DiskSize := DiskSize c; UserDataFile := file;
     OutputImageName := OutputImageName c; OutputTag := OutputTag c;
     Registry := Registry c; Organization := Organization c;
     PushToRegistry := PushToRegistry c; DryRun := DryRun c |}.

(** A backend as [demoBackend] on which the command whose first argument is
    [verb] fails with exit status 1 and the output [out]. *)
Definition failingBackend (verb out : string) (n : nat) (c : Cmd) : ExecResult :=
  if bool_decide (head (Args c) = Some verb)
  then {| output := out; err := Some "exit status 1"; took := 0 |}
  else demoBackend "10.0.0.5" 0 n c.

Definition failingEnv (verb out : string) : Env :=
  {| execCombined := failingBackend verb out;
     execPiped := fun _ _ => quietPiped [] None;
     environ := {["GITHUB_TOKEN" := "ghp_token"]};
     startTime := 1700000000123456789;
     selectPick := fun _ => false;
     cancelBefore := fun _ => false;
     cancelDuring := fun _ => false;
     keygen := ExtContinue; connect := ExtContinue; provision := ExtContinue |}.

(** The existence check of [stepPullImage], run in [w], does not find the
    base image: the command failed or its output does not name it. *)
Definition reportsAbsent (E : Env) (w : World) : Prop :=
  let r := execCombined E (length (calls w)) (imagesCmd (config w)) in
  err r <> None \/ Contains (output r) (BaseImage (config w)) = false.

(** The two subprocesses of a pull: the check in [w] and then the pull. *)
Definition pullCalls (E : Env) (w : World) : list Call :=
  calls w
  ++ [ {| issuedAt := now w; command := imagesCmd (config w) |};
       {| issuedAt := (now w + Z.of_N (took (execCombined E (length (calls w))
                                              (imagesCmd (config w)))))%Z;
          command := pullCmd (config w) |} ].

(** An environment as [plainEnv] whose image list is empty and whose piped
    subprocesses all give [piped]. *)
Definition emptyRegistryEnv (piped : PipedResult) : Env :=
  {| execCombined := fun n c =>
       if bool_decide (head (Args c) = Some "images")
       then {| output := ""; err := None; took := 0 |}
       else demoBackend "10.0.0.5" 0 n c;
     execPiped := fun _ _ => piped;
     environ := ∅;
     startTime := 1700000000123456789;
     selectPick := fun _ => false;
     cancelBefore := fun _ => false;
     cancelDuring := fun _ => false;
     keygen := ExtContinue; connect := ExtContinue; provision := ExtContinue |}.

(** A configuration as [demoConfig true] for another registry. *)
Definition otherRegistryConfig : Config :=
  {| Comm := demoComm; MedaBinary := "meda"; MedaHost := "127.0.0.1";
     MedaPort := 7777; UseAPI := false; VMName := "web";
     BaseImage := "ubuntu:latest"; Memory := "1G"; CPUs := 2;
     DiskSize := "10G"; UserDataFile := ""; OutputImageName := "img";
     OutputTag := "v1"; Registry := "registry.example.org"; Organization := "";
     PushToRegistry := true; DryRun := true |}.

Definition otherRegistryWorld : World :=
  {| bag := bag (demoWorld true); config := otherRegistryConfig;
     ui := []; logs := []; calls := []; now := 0 |}.

(** ** Further notions: the wait for the address *)

(** The calls [l], made after [k] polls of a wait that began at [t0], are
    polls [c], and each is made no earlier than its tick: the first of
    them at tick [k + 1] or later, the next at tick [k + 2] or later. *)
Definition paced (c : Cmd) (t0 : Z) (k : nat) (l : list Call) : Prop :=
  forall j call, l !! j = Some call ->
    command call = c
    /\ (t0 + (Z.of_nat (k + j) + 1) * tickInterval <= issuedAt call)%Z.

(** How a wait that began at [t0] in [w] can end: it continues with the
    address extracted from the output of its last poll, which succeeded,
    stored under both keys and as the SSH host; or it halts with the
    timeout error, no earlier than the deadline. *)
Definition waitOutcome (E : Env) (vmName : string) (t0 : Z) (w : World)
    (a : StepAction) (w' : World) : Prop :=
  match a with
  | ActionContinue =>
      let r := execCombined E (Nat.pred (length (calls w')))
                 (ipCmd (config w) vmName) in
      let ip := extractIP (output r) in
      err r = None /\ looksLikeIP ip = true
      /\ bag w' = <["instance_ip" := VString ip]>
                    (<["vm_ip" := VString ip]> (bag w))
      /\ config w' = setSSHHost (config w) ip
  | ActionHalt =>
      bag w' = <["error" := VError timeoutMsg]> (bag w)
      /\ config w' = config w
      /\ (t0 + waitTimeout <= now w')%Z
  end.

(** A [select] that takes the timer whenever timer and ticker are both
    ready. *)
Definition timerFirst (E : Env) : Prop := forall k, selectPick E k = false.

(** A backend as [demoBackend] whose [ip] command prints a warning until
    the [ready]-th subprocess, every call taking [delay]. *)
Definition bootingBackend (ready : nat) (delay : N) (n : nat) (c : Cmd)
    : ExecResult :=
  if bool_decide (head (Args c) = Some "ip") && (n <? ready)%nat
  then {| output := "warning: no lease yet"; err := None; took := delay |}
  else demoBackend "10.0.0.5" delay n c.

Definition bootingEnv (ready : nat) (delay : N) (pick : bool) : Env :=
  {| execCombined := bootingBackend ready delay;
     execPiped := fun _ _ => quietPiped [] None;
     environ := ∅;
     startTime := 1700000000123456789;
     selectPick := fun _ => pick;
     cancelBefore := fun _ => false;
     cancelDuring := fun _ => false;
     keygen := ExtContinue; connect := ExtContinue; provision := ExtContinue |}.

(** The world a result ends in; [w] when there is none. *)
Definition finalWorld {A} (r : Result A) (w : World) : World :=
  match r with
  | Ok _ w' => w'
  | Panic _ w' => w'
  | OutOfFuel => w
  end.

(** ** Further notions: what a build does to its state *)

(** The keys the steps write, and those the runner writes besides. *)
Definition stepKeys : list string :=
  ["error"; "vm_ip"; "instance_ip"; "image_name"; "pushed_image";
   "communicator"].

Definition runnerKeys : list string :=
  StateCancelled :: StateHalted :: stepKeys.

(** The entries a build writes, by their types: an error under ["error"],
    strings under the address and image keys, the connection, and the
    flags of the runner. *)
Definition typedWrite (key : string) (v : Value) : Prop :=
  match v with
  | VError _ => key = "error"
  | VString _ =>
      key = "vm_ip" \/ key = "instance_ip" \/ key = "image_name"
      \/ key = "pushed_image"
  | VCommunicator => key = "communicator"
  | VBool _ => key = StateCancelled \/ key = StateHalted
  | VConfig | VUi | VHook => False
  end.

(** The argument lists of the delete command of [stepCleanupVM]: through
    the binary, through the API and through [cargo run --]. *)
Definition deleteArgs (args : list string) : bool :=
  match args with
  | [verb; _] => String.eqb verb "delete"
  | [flag; method; _] => String.eqb flag "-X" && String.eqb method "DELETE"
  | [run; dashes; verb; _] =>
      String.eqb run "run" && String.eqb dashes "--" && String.eqb verb "delete"
  | _ => false
  end.

Definition notDelete (c : Cmd) : Prop := deleteArgs (Args c) = false.

(** From [w] to [w'] subprocesses were started, none of them a delete. *)
Definition issues (w w' : World) : Prop :=
  exists l, calls w' = calls w ++ l
            /\ Forall (fun call => notDelete (command call)) l.

(** From [w] to [w'] the configuration changed in its communicator
    settings at most; the state bag changed under [keys] at most, and what
    it holds now it held before or is a typed entry of the build. *)
Definition frames (keys : list string) (w w' : World) : Prop :=
  sameOutput (config w) (config w')
  /\ (forall key, key ∉ keys -> bag w' !! key = bag w !! key)
  /\ (forall key v, bag w' !! key = Some v ->
                    bag w !! key = Some v \/ typedWrite key v).

(** The same, and no delete was started. *)
Definition advances (keys : list string) (w w' : World) : Prop :=
  frames keys w w' /\ issues w w'.

(** Computations by what they do when they return: [advancing] ones keep
    to the keys of the steps; [tidy] ones record no error besides;
    [halting] ones return [ActionHalt]; [orderly] ones record no error
    when they return [ActionContinue]. *)
Definition advancing {A} (m : M A) : Prop :=
  forall w a w', m w = Ok a w' -> advances stepKeys w w'.

Definition tidy {A} (m : M A) : Prop :=
  forall w a w', m w = Ok a w' ->
    advances stepKeys w w' /\ bag w' !! "error" = bag w !! "error".

Definition halting (m : M StepAction) : Prop :=
  forall w a w', m w = Ok a w' -> advances stepKeys w w' /\ a = ActionHalt.

Definition orderly (m : M StepAction) : Prop :=
  forall w a w', m w = Ok a w' ->
    advances stepKeys w w'
    /\ (a = ActionContinue -> bag w' !! "error" = bag w !! "error").

(** A step with an empty [Cleanup] and an orderly [Run]. *)
Definition good (E : Env) (fuel : nat) (step : Step) : Prop :=
  Cleanup step = ret tt /\ orderly (Run step E fuel).

(** The state bag holds what every step reads: the configuration, the UI
    and the VM name. *)
Definition ready (w : World) : Prop :=
  prepared w /\ exists vmName, bag w !! "vm_name" = Some (VString vmName).

(** The state bag holds a string under [key]. *)
Definition has (key : string) (w : World) : Prop :=
  exists s, bag w !! key = Some (VString s).

Definition readyWith (key : string) (w : World) : Prop := ready w /\ has key w.

(** A computation that returns from every world that is [ready] and holds
    a string under [key], in such a world. *)
Definition sound (key : string) {A} (m : M A) : Prop :=
  forall w, readyWith key w -> exists a w', m w = Ok a w' /\ readyWith key w'.

(** No error is recorded and the runner has set no flag. *)
Definition clear (w : World) : Prop :=
  bag w !! "error" = None /\ bag w !! StateCancelled = None
  /\ bag w !! StateHalted = None.

(** The steps of [Builder.Run] before the cleanup. *)
Definition workSteps (c : Config) : list Step :=
  [ stepPullImage;
    stepCreateVM;
    stepStartVM;
    stepWaitForVM;
    If (bool_decide (CommType (Comm c) = "ssh")
        && bool_decide (SSHPrivateKeyFile (Comm c) = "")
        && bool_decide (SSHPassword (Comm c) = ""))
       StepSSHKeyGen;
    StepConnect;
    StepProvision;
    stepStopVM;
    stepCreateImage;
    stepPushImage ].

(** Steps that return when they are reached: from a world in [I] the first
    returns, and when it continues the world is in the set the next one
    needs. *)
Inductive chain (E : Env) (fuel : nat) : (World -> Prop) -> list Step -> Prop :=
| chain_nil I : chain E fuel I []
| chain_cons (I J : World -> Prop) step rest :
    Cleanup step = ret tt ->
    (forall w, I w ->
       exists a w', Run step E fuel w = Ok a w'
                    /\ (a = ActionContinue -> J w')) ->
    chain E fuel J rest ->
    chain E fuel I (step :: rest).

(** What a result returns; [d] when there is none. *)
Definition finalValue {A} (r : Result A) (d : A) : A :=
  match r with
  | Ok a _ => a
  | _ => d
  end.

(** The VM name of a build of [c] in [E]. *)
Definition buildVMName (E : Env) (c : Config) : string :=
  generateVMName (VMName c) (Unix (startTime E)).

(** The error [Builder.Run] reports for a build that halted in [w]: the
    recorded one, if there is one. *)
Definition haltReport (w : World) : string :=
  match bag w !! "error" with
  | Some (VError e) => e
  | _ => "build was halted"
  end.

(** The world after the runner has put [flag] into the bag. *)
Definition flagged (flag : string) (w : World) : World :=
  setBag w (<[flag := VBool true]> (bag w)).

(** An environment as [failingEnv] in which the build is cancelled before
    step [i]. *)
Definition cancellingEnv (i : nat) : Env :=
  {| execCombined := demoBackend "10.0.0.5" 0;
     execPiped := fun _ _ => quietPiped [] None;
     environ := ∅;
     startTime := 1700000000123456789;
     selectPick := fun _ => false;
     cancelBefore := fun j => bool_decide (j = i);
     cancelDuring := fun _ => false;
     keygen := ExtContinue; connect := ExtContinue; provision := ExtContinue |}.

(** ** [Config.Prepare] and [Builder.Prepare] *)

(** The settings of [communicator.Config] that [Prepare] fills in besides
    those of [CommConfig]; the timeout in nanoseconds. *)
Record SSHSettings := {
  SSHPort : Z;
  SSHUsername : string;
  SSHTimeout : Z;
  SSHHandshakeAttempts : Z;
  SSHDisableAgentForwarding : bool
}.

(** What [Prepare] asks of its surroundings: the error of [config.Decode],
    whether [os.Stat] fails on a path with an error that
    [os.IsNotExist] recognises, and whether [exec.LookPath] fails. *)
Record Host := {
  decodeError : option string;
  statNotExist : string -> bool;
  lookPathFails : string -> bool
}.

Definition orDefault (s d : string) : string :=
  if bool_decide (s = "") then d else s.

Definition orDefaultZ (n d : Z) : Z := if bool_decide (n = 0%Z) then d else n.

(** The block [// Set defaults]. *)
Definition withDefaults (c : Config) : Config :=
  {| Comm := Comm c;
     MedaBinary := orDefault (MedaBinary c) "meda";
     MedaHost := orDefault (MedaHost c) "127.0.0.1";
     MedaPort := orDefaultZ (MedaPort c) 7777;
     UseAPI := UseAPI c;
     VMName := VMName c;
     BaseImage := BaseImage c;
     Memory := orDefault (Memory c) "1G";
     CPUs := orDefaultZ (CPUs c) 2;
     DiskSize := orDefault (DiskSize c) "10G";
     UserDataFile := UserDataFile c;
     OutputImageName := OutputImageName c;
     OutputTag := orDefault (OutputTag c) "latest";
     Registry := orDefault (Registry c) "ghcr.io";
     Organization := Organization c;
     PushToRegistry := PushToRegistry c;
     DryRun := DryRun c |}.

(** The block [// Validation]: the errors in the order they are appended. *)
Definition validationErrors (H : Host) (c : Config) : list string :=
  (if bool_decide (VMName c = "") then ["vm_name is required"] else [])
  ++ (if bool_decide (BaseImage c = "") then ["base_image is required"] else [])
  ++ (if bool_decide (OutputImageName c = "")
      then ["output_image_name is required"] else [])
  ++ (if negb (UseAPI c) && statNotExist H (MedaBinary c)
         && lookPathFails H (MedaBinary c)
      then ["meda binary not found: " +:+ MedaBinary c] else []).

(** The block [// Set up communicator defaults] and the two assignments
    after it. *)
Definition commDefaults (comm : CommConfig) : CommConfig :=
  {| CommType := orDefault (CommType comm) "ssh";
     SSHHost := SSHHost comm;
     SSHPrivateKeyFile := SSHPrivateKeyFile comm;
     SSHPassword := orDefault (SSHPassword comm) "cirun" |}.

Definition sshDefaults (s : SSHSettings) : SSHSettings :=
  {| SSHPort := orDefaultZ (SSHPort s) 22;
     SSHUsername := orDefault (SSHUsername s) "cirun";
     SSHTimeout := orDefaultZ (SSHTimeout s) (5 * Minute);
     SSHHandshakeAttempts := 10;
     SSHDisableAgentForwarding := true |}.

(** [fmt.Errorf("validation errors: %v", errs)]: the verb [%v] prints a
    slice of errors as their messages, separated by spaces, in brackets. *)
Definition validationMsg (errs : list string) : string :=
  "validation errors: [" +:+ JoinByte errs " " +:+ "]".

(** [Config.Prepare], on the configuration as decoded: the configuration
    and the settings it leaves, and the error it returns. *)
Definition Config_Prepare (H : Host) (c : Config) (s : SSHSettings)
    : Config * SSHSettings * option string :=
  match decodeError H with
  | Some e => (c, s, Some e)
  | None =>
      let c := withDefaults c in
      let errs := validationErrors H c in
      let c := setComm c (commDefaults (Comm c)) in
      let s := sshDefaults s in
      (c, s, if (0 <? length errs)%nat then Some (validationMsg errs) else None)
  end.

(** [Builder.GeneratedVars]. *)
Definition GeneratedVars : list string := ["MedaVMName"; "MedaVMIP"].

(** [Builder.Prepare]: the builder's configuration and settings afterwards,
    and the generated variables, the warnings and the error it returns
    (the empty list for a nil slice). *)
Definition Builder_Prepare (H : Host) (c : Config) (s : SSHSettings)
    : Config * SSHSettings * (list string * list string * option string) :=
  let '(c, s, err) := Config_Prepare H c s in
  match err with
  | Some e => (c, s, ([], [], Some e))
  | None => (c, s, (["MedaVMName"; "MedaVMIP"], [], None))
  end.

(** A host on which the binary [found] is on the path and nothing else
    exists. *)
Definition demoHost (found : string) : Host :=
  {| decodeError := None;
     statNotExist := fun _ => true;
     lookPathFails := fun path => negb (String.eqb path found) |}.

(** A template that sets the required names only. *)
Definition bareConfig : Config :=
  {| Comm := {| CommType := ""; SSHHost := ""; SSHPrivateKeyFile := "";
                SSHPassword := "" |};
     MedaBinary := ""; MedaHost := ""; MedaPort := 0; UseAPI := false;
     VMName := "web"; BaseImage := "ubuntu:latest"; Memory := ""; CPUs := 0;
     DiskSize := ""; UserDataFile := ""; OutputImageName := "img";
     OutputTag := ""; Registry := ""; Organization := "";
     PushToRegistry := true; DryRun := false |}.

Definition bareSSH : SSHSettings :=
  {| SSHPort := 0; SSHUsername := ""; SSHTimeout := 0;
     SSHHandshakeAttempts := 0; SSHDisableAgentForwarding := false |}.

(** ** [Artifact]: the rest of [main.go] *)

Definition BuilderId : string := "meda.vm".

(** [Artifact.BuilderId], [Artifact.Files] (nil) and [Artifact.Id]. *)
Definition Artifact_BuilderId (a : Artifact) : string := BuilderId.
Definition Artifact_Files (a : Artifact) : list string := [].
Definition Artifact_Id (a : Artifact) : string := ImageName a.

(** The command of [Artifact.Destroy]. *)
Definition destroyCmd (a : Artifact) : Cmd :=
  let c := ArtifactConfig a in
  if UseAPI c
  then {| Path := "curl";
          Args := ["-X"; "DELETE";
                   "http://" +:+ MedaHost c +:+ ":" +:+ itoa (MedaPort c)
                   +:+ "/api/v1/images/" +:+ ImageName a];
          Dir := "" |}
  else {| Path := MedaBinary c; Args := ["images"; "rm"; ImageName a];
          Dir := "" |}.

(** [process.Run()]: the subprocess is started and waited for; its output
    is not read. *)
Definition RunCmd (E : Env) (c : Cmd) : M (option string) :=
  fun w =>
    let r := execCombined E (length (calls w)) c in
    Ok (err r) (setNow (addCall w c) (now w + Z.of_N (took r))%Z).

(** [Artifact.Destroy]: the error it returns. *)
Definition Artifact_Destroy (E : Env) (a : Artifact) : M (option string) :=
  e <- RunCmd E (destroyCmd a) ;;
  match e with
  | Some e =>
      ret (Some ("failed to destroy image " +:+ ImageName a +:+ ": " +:+ e))
  | None => ret None
  end.

(** [E] with another outcome of the key generation. *)
Definition withKeygen (E : Env) (o : ExtOutcome) : Env :=
  {| execCombined := execCombined E; execPiped := execPiped E;
     environ := environ E; startTime := startTime E;
     selectPick := selectPick E; cancelBefore := cancelBefore E;
     cancelDuring := cancelDuring E;
     keygen := o; connect := connect E; provision := provision E |}.

(** A configuration of the development mode. *)
Definition cargoConfig : Config :=
  {| Comm := demoComm; MedaBinary := "cargo"; MedaHost := "127.0.0.1";
     MedaPort := 7777; UseAPI := false; VMName := "web";
     BaseImage := "ubuntu:latest"; Memory := "1G"; CPUs := 2;
     DiskSize := "10G"; UserDataFile := ""; OutputImageName := "img";
     OutputTag := "v1"; Registry := "ghcr.io"; Organization := "acme";
     PushToRegistry := false; DryRun := false |}.

(** The image name [stepCreateImage] composes. *)
Definition builtImage (c : Config) : string :=
  OutputImageName c +:+ ":" +:+ OutputTag c.

(** ** Further notions: the subprocesses of a build *)

(** The commands started up to [w], in order. *)
Definition commands (w : World) : list Cmd := map command (calls w).

(** The state a build of [c] with the VM name [vmName] keeps: the
    configuration as given but for the communicator settings, and the VM
    name in the state bag. *)
Definition building (c : Config) (vmName : string) (w : World) : Prop :=
  sameOutput c (config w) /\ bag w !! "vm_name" = Some (VString vmName).

(** The commands of a successful build of [c]: the check, the pull when
    the image was missing, create and start, the polls of the address,
    stop and snapshot, the push when it is enabled, and the delete. *)
Definition protocol (c : Config) (vmName : string) (pulled : bool)
    (polls : nat) : list Cmd :=
  [imagesCmd c] ++ (if pulled then [pullCmd c] else [])
  ++ [createVMCmd c vmName; startVMCmd c vmName]
  ++ replicate (S polls) (ipCmd c vmName)
  ++ [stopVMCmd c vmName; createImageCmd c vmName]
  ++ (if PushToRegistry c then [pushCmd c (builtImage c)] else [])
  ++ [deleteVMCmd c vmName].

(** An environment as [plainEnv] whose image list prints [listing]. *)
Definition listingEnv (listing : string) : Env :=
  {| execCombined := fun n c =>
       if bool_decide (head (Args c) = Some "images")
       then {| output := listing; err := None; took := 0 |}
       else demoBackend "10.0.0.5" 0 n c;
     execPiped := fun _ _ => quietPiped [] None;
     environ := ∅;
     startTime := 1700000000123456789;
     selectPick := fun _ => false;
     cancelBefore := fun _ => false;
     cancelDuring := fun _ => false;
     keygen := ExtContinue; connect := ExtContinue; provision := ExtContinue |}.

(** * Properties *)

(** ** Byte strings *)

Section ByteStrings.

Implicit Types (s t : string) (c sep : ascii).

Lemma app_nil_l t : "" +:+ t = t.
Proof. reflexivity. Qed.

Lemma app_cons c s t : String c s +:+ t = String c (s +:+ t).
Proof. reflexivity. Qed.

Lemma CountByte_cons a s c :
  CountByte (String a s) c = (if Ascii.eqb a c then 1 else 0) + CountByte s c.
Proof. reflexivity. Qed.

Lemma CountByte_app s t c :
  CountByte (s +:+ t) c = CountByte s c + CountByte t c.
Proof.
  induction s as [|a s IH]; [reflexivity|].
  rewrite app_cons. simpl. rewrite IH. lia.
Qed.

Lemma SplitByte_nonempty s sep : SplitByte s sep <> [].
Proof.
  destruct s as [|a s]; simpl; [discriminate|].
  destruct (Ascii.eqb a sep); [discriminate|].
  destruct (SplitByte s sep); discriminate.
Qed.

Lemma SplitByte_absent s sep : CountByte s sep = 0 -> SplitByte s sep = [s].
Proof.
  induction s as [|a s IH]; simpl; [reflexivity|].
  destruct (Ascii.eqb a sep); [discriminate|].
  intros H. rewrite IH by exact H. reflexivity.
Qed.

Lemma SplitByte_app s t sep :
  CountByte s sep = 0 ->
  SplitByte (s +:+ String sep t) sep = s :: SplitByte t sep.
Proof.
  induction s as [|a s IH]; intros H.
  - rewrite app_nil_l. simpl. rewrite Ascii.eqb_refl. reflexivity.
  - rewrite app_cons. simpl in *.
    destruct (Ascii.eqb a sep); [discriminate|].
    rewrite IH by exact H. reflexivity.
Qed.

(** Splitting and joining on the same byte gives the string back. *)
Lemma JoinByte_SplitByte s sep : JoinByte (SplitByte s sep) sep = s.
Proof.
  induction s as [|a s IH]; [reflexivity|].
  simpl. destruct (Ascii.eqb_spec a sep) as [->|Hne].
  - pose proof (SplitByte_nonempty s sep).
    change (JoinByte ("" :: SplitByte s sep) sep)
      with (match SplitByte s sep with
            | [] => ""
            | _ => "" +:+ String sep (JoinByte (SplitByte s sep) sep)
            end).
    destruct (SplitByte s sep) eqn:E; [congruence|].
    rewrite app_nil_l, IH. reflexivity.
  - destruct (SplitByte s sep) as [|p ps] eqn:E.
    + exfalso. eapply SplitByte_nonempty, E.
    + destruct ps as [|p' ps].
      * simpl in *. congruence.
      * change (JoinByte (String a p :: p' :: ps) sep)
          with (String a (p +:+ String sep (JoinByte (p' :: ps) sep))).
        change (JoinByte (p :: p' :: ps) sep)
          with (p +:+ String sep (JoinByte (p' :: ps) sep)) in IH.
        congruence.
Qed.

(** A one-byte substring occurs exactly when the byte is counted. *)
Lemma Contains_byte s c :
  Contains s (String c "") = negb (CountByte s c =? 0)%nat.
Proof.
  induction s as [|a s IH]; [reflexivity|].
  simpl. rewrite IH.
  destruct (Ascii.eqb a c); simpl; [destruct s|]; reflexivity.
Qed.

Lemma digits_only acc s v c :
  digits acc s = Some v -> isDigit c = false -> CountByte s c = 0.
Proof.
  revert acc. induction s as [|a s IH]; intros acc Hd Hc; [reflexivity|].
  simpl in *. destruct (isDigit a) eqn:Ha; [|discriminate].
  destruct (Ascii.eqb_spec a c) as [->|_]; [congruence|].
  simpl. eapply IH; eauto.
Qed.

(** A string [Atoi] parses holds a sign and digits only. *)
Lemma Atoi_bytes s c :
  is_Some (Atoi s) -> isDigit c = false -> c <> "+"%char -> c <> "-"%char ->
  CountByte s c = 0.
Proof.
  intros [v Hv] Hc Hplus Hminus. unfold Atoi in Hv.
  destruct s as [|a s]; [reflexivity|].
  destruct (Ascii.eqb a "-" || Ascii.eqb a "+") eqn:Hsign.
  - assert (a <> c) as Hac.
    { intros ->. apply orb_true_iff in Hsign as [H|H];
        apply Ascii.eqb_eq in H; congruence. }
    rewrite CountByte_cons. apply Ascii.eqb_neq in Hac. rewrite Hac.
    destruct s as [|b s]; [discriminate|].
    destruct (digits 0 (String b s)) eqn:Hd; [|discriminate].
    eapply digits_only; eauto.
  - destruct (digits 0 (String a s)) eqn:Hd; [|discriminate].
    eapply digits_only; eauto.
Qed.

Lemma digits_allDigits s : forall acc,
  is_Some (digits acc s) <-> allDigits s = true.
Proof.
  induction s as [|a s IH]; intros acc; simpl.
  - split; eauto.
  - destruct (isDigit a); simpl; [apply IH|].
    split; [intros [? [=]]|discriminate].
Qed.

(** What [Atoi] parses is an optional sign and then one digit at least. *)
Lemma Atoi_syntax s :
  is_Some (Atoi s) ->
  exists sign body,
    s = sign +:+ body /\ (sign = "" \/ sign = "+" \/ sign = "-")
    /\ body <> "" /\ allDigits body = true.
Proof.
  intros [v Hv]. unfold Atoi in Hv.
  destruct s as [|a s]; [discriminate|].
  destruct (Ascii.eqb_spec a "-") as [->|Hminus]; cbn [orb] in Hv.
  - exists "-", s. destruct s as [|b s]; [discriminate|].
    destruct (digits 0 (String b s)) eqn:Hd; [|discriminate].
    split; [reflexivity|]. split; [auto|]. split; [discriminate|].
    apply (digits_allDigits _ 0). eauto.
  - destruct (Ascii.eqb_spec a "+") as [->|Hplus].
    + exists "+", s. destruct s as [|b s]; [discriminate|].
      destruct (digits 0 (String b s)) eqn:Hd; [|discriminate].
      split; [reflexivity|]. split; [auto|]. split; [discriminate|].
    apply (digits_allDigits _ 0). eauto.
    + exists "", (String a s).
      destruct (digits 0 (String a s)) eqn:Hd; [|discriminate].
      split; [reflexivity|]. split; [auto|]. split; [discriminate|].
    apply (digits_allDigits _ 0). eauto.
Qed.

Lemma digits_bound s : forall acc v,
  (0 <= acc)%Z -> digits acc s = Some v ->
  (acc * 10 ^ Z.of_nat (String.length s) <= v
   < (acc + 1) * 10 ^ Z.of_nat (String.length s))%Z.
Proof.
  induction s as [|a s IH]; intros acc v Hacc Hd.
  - injection Hd as <-. simpl. lia.
  - cbn [digits] in Hd. destruct (isDigit a) eqn:Ha; [|discriminate].
    assert (0 <= digitVal a <= 9)%Z as Hval.
    { unfold isDigit in Ha. apply andb_true_iff in Ha as [H1 H2].
      apply Nat.leb_le in H1, H2. unfold digitVal. lia. }
    apply IH in Hd; [|lia].
    cbn [String.length]. rewrite Nat2Z.inj_succ, Z.pow_succ_r by lia.
    pose proof (Z.pow_pos_nonneg 10 (Z.of_nat (String.length s))) as Hpow.
    nia.
Qed.

(** An optional sign and up to 18 digits always parse. *)
Lemma Atoi_short sign body :
  sign = "" \/ sign = "+" \/ sign = "-" ->
  body <> "" -> allDigits body = true -> String.length body <= 18 ->
  is_Some (Atoi (sign +:+ body)).
Proof.
  intros Hsign Hne Hall Hlen.
  destruct (proj2 (digits_allDigits body 0) Hall) as [v Hv].
  pose proof (digits_bound body 0 v ltac:(lia) Hv) as Hb.
  assert (10 ^ Z.of_nat (String.length body) <= 10 ^ 18)%Z as Hpow
    by (apply Z.pow_le_mono_r; lia).
  assert (0 <= v < 10 ^ 18)%Z as Hrange by lia.
  change (10 ^ 18)%Z with 1000000000000000000%Z in Hrange.
  assert (forall neg : bool,
            (minInt <=? (if neg then - v else v))%Z
            && ((if neg then - v else v) <=? maxInt)%Z = true) as Hfits.
  { intros neg. unfold minInt, maxInt. apply andb_true_iff.
    split; apply Z.leb_le; destruct neg; lia. }
  destruct body as [|b body]; [congruence|].
  destruct Hsign as [-> | [-> | ->]].
  - rewrite app_nil_l. unfold Atoi.
    assert (Ascii.eqb b "-" = false /\ Ascii.eqb b "+" = false) as [Hm Hp].
    { cbn [allDigits] in Hall. apply andb_true_iff in Hall as [Hd _].
      split; apply Ascii.eqb_neq; intros ->; discriminate. }
    rewrite Hm, Hp. cbn [orb]. rewrite Hv, (Hfits false). eauto.
  - change ("+" +:+ String b body) with (String "+" (String b body)).
    unfold Atoi. cbn [Ascii.eqb Bool.eqb orb andb].
    change (Ascii.eqb "+" "-") with false. change (Ascii.eqb "+" "+") with true.
    cbn [orb]. rewrite Hv, (Hfits false). eauto.
  - change ("-" +:+ String b body) with (String "-" (String b body)).
    unfold Atoi. change (Ascii.eqb "-" "-") with true.
    cbn [orb]. rewrite Hv, (Hfits true). eauto.
Qed.

End ByteStrings.

(** ** Address validation *)

Section AddressValidation.

Lemma parseable_no_dot s : parseable s -> CountByte s "." = 0.
Proof. intros H. apply Atoi_bytes; [exact H|reflexivity|discriminate..]. Qed.

Lemma parseable_no_space s : parseable s -> CountByte s " " = 0.
Proof. intros H. apply Atoi_bytes; [exact H|reflexivity|discriminate..]. Qed.

Lemma looksLikeIP_segments line :
  looksLikeIP line = true <-> fourDecimalSegments line.
Proof.
  unfold looksLikeIP, fourDecimalSegments. split.
  - intros H. repeat (apply andb_true_iff in H as [H ?]).
    pose proof (JoinByte_SplitByte line ".") as Hjoin.
    destruct (SplitByte line ".") as [|a [|b [|c [|d [|]]]]]; try discriminate.
    exists a, b, c, d. split; [symmetry; exact Hjoin|].
    cbn [forallb] in *.
    repeat match goal with
           | H : _ && _ = true |- _ => apply andb_true_iff in H as [? ?]
           | H : bool_decide _ = true |- _ => apply bool_decide_eq_true in H
           end.
    unfold parseable. auto.
  - intros (a & b & c & d & -> & Ha & Hb & Hc & Hd).
    rewrite !(app_cons "." "").
    rewrite !app_nil_l.
    assert (CountByte (a +:+ String "." (b +:+ String "." (c +:+ String "." d))) "." = 3) as Hdots.
    { rewrite !CountByte_app, !CountByte_cons, !CountByte_app, !CountByte_cons,
        !CountByte_app, !CountByte_cons.
      rewrite !parseable_no_dot by assumption. reflexivity. }
    assert (CountByte (a +:+ String "." (b +:+ String "." (c +:+ String "." d))) " " = 0) as Hspace.
    { rewrite !CountByte_app, !CountByte_cons, !CountByte_app, !CountByte_cons,
        !CountByte_app, !CountByte_cons.
      rewrite !parseable_no_space by assumption. reflexivity. }
    rewrite Hdots, Contains_byte, Hspace.
    rewrite !SplitByte_app, SplitByte_absent by (apply parseable_no_dot; assumption).
    cbn [length forallb Nat.eqb negb andb].
    rewrite !bool_decide_eq_true_2 by assumption. reflexivity.
Qed.

Lemma looksLikeIP_nonempty line : looksLikeIP line = true -> line <> "".
Proof. intros H ->. discriminate. Qed.

Lemma scanLines_rejected lines :
  (forall line, line ∈ lines -> looksLikeIP (TrimSpace line) = false) ->
  scanLines lines = "".
Proof.
  induction lines as [|l lines IH]; intros H; [reflexivity|].
  simpl. rewrite (H l) by apply list_elem_of_here.
  apply IH. intros line Hin. apply H. apply list_elem_of_further, Hin.
Qed.

Lemma extractIP_rejected out : rejected out -> extractIP out = "".
Proof. apply scanLines_rejected. Qed.

(** What the loop extracts is empty or an accepted line. *)
Lemma scanLines_accepts lines :
  scanLines lines = "" \/ looksLikeIP (scanLines lines) = true.
Proof.
  induction lines as [|l lines IH]; [left; reflexivity|].
  simpl. destruct (looksLikeIP (TrimSpace l)) eqn:E; [right; exact E|exact IH].
Qed.

Lemma rejected_decide out :
  forallb (fun line => negb (looksLikeIP (TrimSpace line))) (SplitByte out newline)
  = true ->
  rejected out.
Proof.
  intros H line Hin. rewrite forallb_forall in H.
  apply list_elem_of_In in Hin. apply H in Hin.
  apply negb_true_iff in Hin. exact Hin.
Qed.

End AddressValidation.

(** ** Single steps *)

Ltac unfold_monad :=
  unfold GetConfig, GetUi, GetString, GetOk, Put, uiSay, uiError, logPrintf,
    CombinedOutput, pipedResult, Start, sleep, panic, bind, ret in *.

Ltac world_simpl :=
  cbn [bag config ui logs calls now
       setBag setConfig addUi addLog addCall setNow] in *.

Ltac eval_step := cbv beta iota; world_simpl.

Section Steps.

Variable E : Env.

Lemma imagesCmd_not_pullCmd c : imagesCmd c <> pullCmd c.
Proof.
  unfold imagesCmd, pullCmd, medaCmd.
  destruct (UseAPI c); [discriminate|].
  case_bool_decide; discriminate.
Qed.

(** With the image reported present, [stepPullImage.Run] starts the check
    and nothing else, and continues. *)
Lemma pull_present w :
  prepared w -> reportsPresent E w ->
  exists w',
    stepPullImage_Run E w = Ok ActionContinue w'
    /\ calls w' = calls w ++ [{| issuedAt := now w; command := imagesCmd (config w) |}]
    /\ bag w' = bag w /\ config w' = config w.
Proof.
  intros [Hc Hu] [He Hp]. unfold stepPullImage_Run. unfold_monad.
  rewrite Hc. eval_step. rewrite Hu. eval_step.
  rewrite He, Hp. eval_step.
  rewrite bool_decide_eq_true_2 by reflexivity. cbn [andb negb]. eval_step.
  eexists. split; [reflexivity|]. eval_step. auto.
Qed.

(** With pushing disabled [stepPushImage.Run] says so and continues. *)
Lemma push_disabled w name :
  prepared w -> bag w !! "image_name" = Some (VString name) ->
  PushToRegistry (config w) = false ->
  stepPushImage_Run E w =
    Ok ActionContinue
       (addUi w (Say "Push to registry disabled, skipping push step")).
Proof.
  intros [Hc Hu] Hi Hp. unfold stepPushImage_Run. unfold_monad.
  rewrite Hc. eval_step. rewrite Hu. eval_step. rewrite Hi. eval_step.
  rewrite Hp. cbn [negb]. reflexivity.
Qed.

Lemma Errorf0_tokenMsg : Errorf0 tokenMsg = tokenMsg.
Proof. vm_compute. reflexivity. Qed.

Lemma Errorf0_timeoutMsg : Errorf0 timeoutMsg = timeoutMsg.
Proof. vm_compute. reflexivity. Qed.

(** Without the token [stepPushImage.Run] halts on its precondition. *)
Lemma push_without_token w name :
  prepared w -> bag w !! "image_name" = Some (VString name) ->
  PushToRegistry (config w) = true ->
  Contains (Registry (config w)) "ghcr.io" = true ->
  Getenv E "GITHUB_TOKEN" = "" ->
  stepPushImage_Run E w =
    Ok ActionHalt (withError tokenMsg w).
Proof.
  intros [Hc Hu] Hi Hp Hr Ht. unfold stepPushImage_Run. unfold_monad.
  rewrite Hc. eval_step. rewrite Hu. eval_step. rewrite Hi. eval_step.
  rewrite Hp. cbn [negb]. eval_step. rewrite Hr, Ht. eval_step.
  rewrite bool_decide_eq_true_2 by reflexivity. eval_step.
  rewrite Errorf0_tokenMsg. reflexivity.
Qed.

Lemma uiSayAll_sayLines lines w : uiSayAll lines w = Ok tt (sayLines lines w).
Proof.
  revert w. induction lines as [|l lines IH]; intros w; [reflexivity|].
  cbn [uiSayAll]. unfold bind, uiSay. rewrite IH. reflexivity.
Qed.

Lemma sayLines_frame lines w :
  bag (sayLines lines w) = bag w /\ calls (sayLines lines w) = calls w
  /\ config (sayLines lines w) = config w /\ now (sayLines lines w) = now w
  /\ logs (sayLines lines w) = logs w.
Proof.
  revert w. induction lines as [|l lines IH]; intros w; [auto|].
  cbn [sayLines fold_left]. destruct (IH (addUi w (Say l))) as (?&?&?&?&?).
  unfold sayLines in *. auto.
Qed.

Lemma afterPiped_frame r c w :
  bag (afterPiped r c w) = bag w
  /\ calls (afterPiped r c w) = calls w ++ [{| issuedAt := now w; command := c |}]
  /\ config (afterPiped r c w) = config w.
Proof.
  unfold afterPiped. world_simpl.
  destruct (sayLines_frame (stderrLines r) (sayLines (stdoutLines r) (addCall w c)))
    as (-> & -> & -> & _).
  destruct (sayLines_frame (stdoutLines r) (addCall w c)) as (-> & -> & -> & _).
  auto.
Qed.

(** Once the subprocess is started, the exit status and the captured text
    decide alone: a failure records [fmt.Errorf] of the composed message
    and halts. *)
Lemma runPiped_started c startMsg what failed onSuccess w :
  started (execPiped E (length (calls w)) c) ->
  runPiped E c startMsg what failed onSuccess w =
    let r := execPiped E (length (calls w)) c in
    if failed (waitErr r) (captured (stderrLines r))
    then Ok ActionHalt
            (withError (Errorf0 (failureMsg what (waitErr r)
                                   (captured (stderrLines r))))
                       (afterPiped r c w))
    else onSuccess (afterPiped r c w).
Proof.
  intros (H1 & H2 & H3). unfold runPiped. unfold_monad.
  rewrite H1, H2, H3. eval_step.
  rewrite !bool_decide_eq_false_2 by (intros [? ?]; discriminate).
  eval_step. rewrite !uiSayAll_sayLines. eval_step.
  destruct (failed _ _); reflexivity.
Qed.

(** A subprocess that cannot be started halts the step as well. *)
Lemma runPiped_not_started c startMsg what failed onSuccess w e :
  stdoutPipeErr (execPiped E (length (calls w)) c) = None ->
  stderrPipeErr (execPiped E (length (calls w)) c) = None ->
  startErr (execPiped E (length (calls w)) c) = Some e ->
  runPiped E c startMsg what failed onSuccess w =
    Ok ActionHalt (withError (startMsg +:+ e) (addCall w c)).
Proof.
  intros H1 H2 H3. unfold runPiped. unfold_monad.
  rewrite H1, H2, H3. eval_step.
  rewrite !bool_decide_eq_false_2 by (intros [? ?]; discriminate).
  reflexivity.
Qed.

Lemma pullFailed_iff waitErr content :
  pullFailed waitErr content = true <->
  waitErr <> None \/ Contains content "unauthorized" = true
  \/ Contains content "denied" = true.
Proof.
  unfold pullFailed. rewrite !orb_true_iff, bool_decide_eq_true.
  rewrite <- not_eq_None_Some. tauto.
Qed.

Lemma pushFailed_iff waitErr content :
  pushFailed waitErr content = true <->
  waitErr <> None \/ Contains content "unauthorized" = true
  \/ Contains content "denied" = true
  \/ Contains content "authentication required" = true.
Proof.
  unfold pushFailed. rewrite !orb_true_iff, bool_decide_eq_true.
  rewrite <- not_eq_None_Some. tauto.
Qed.

(** [stepCreateVM], [stepStartVM] and [stepCreateImage] decide by the
    error of [CombinedOutput] alone, whatever the output says. *)
Lemma runFatal_by_exit_status c what onSuccess w :
  runFatal E c what onSuccess w =
    let r := execCombined E (length (calls w)) c in
    let w1 := setNow (addCall w c) (now w + Z.of_N (took r))%Z in
    match err r with
    | Some e => Ok ActionHalt (withError (what +:+ e +:+ " - " +:+ output r) w1)
    | None => onSuccess w1
    end.
Proof.
  unfold runFatal. unfold_monad. eval_step.
  destruct (err _); reflexivity.
Qed.

(** A format without ['%'] is its own output. *)
Lemma doPrintf_plain s : forall n,
  CountByte s "%" = 0 -> String.length s < n -> doPrintf n s = s.
Proof.
  induction s as [|a s IH]; intros n Hc Hn.
  - destruct n; [simpl in Hn; lia|reflexivity].
  - destruct n; [simpl in Hn; lia|].
    rewrite CountByte_cons in Hc. cbn [doPrintf].
    destruct (Ascii.eqb a "%"); [discriminate|].
    rewrite IH; [reflexivity|exact Hc|simpl in Hn; lia].
Qed.

Lemma Errorf0_plain s : CountByte s "%" = 0 -> Errorf0 s = s.
Proof. intros H. apply doPrintf_plain; [exact H|lia]. Qed.

(** The pull, once the check has not found the image and the subprocess is
started: it fails exactly on a failed exit or a marker in the captured
text, and then records [fmt.Errorf] of the composed message. *)
Lemma pull_outcome w :
  prepared w -> ~ reportsPresent E w ->
  let r := execPiped E (S (length (calls w))) (pullCmd (config w)) in
  let failed := pullFailed (waitErr r) (captured (stderrLines r)) in
  started r ->
  exists w',
    stepPullImage_Run E w
      = Ok (if failed then ActionHalt else ActionContinue) w'
    /\ bag w' =
       if failed
       then <["error" := VError (Errorf0 (failureMsg
                ("failed to pull base image '" +:+ BaseImage (config w) +:+ "'")
                (waitErr r) (captured (stderrLines r))))]> (bag w)
       else bag w.
Proof.
  intros [Hc Hu] Habsent r failed Hstarted. subst r failed.
  unfold stepPullImage_Run. unfold_monad.
  rewrite Hc. eval_step. rewrite Hu. eval_step.
  assert (bool_decide
            (err (execCombined E (length (calls w)) (imagesCmd (config w))) = None)
          && Contains (output (execCombined E (length (calls w))
                                 (imagesCmd (config w))))
                      (BaseImage (config w)) = false) as ->.
  { apply not_true_is_false. intros H. apply Habsent.
    apply andb_true_iff in H as [H1 H2].
    apply bool_decide_eq_true in H1. split; assumption. }
  cbn [negb]. eval_step.
  rewrite runPiped_started;
    world_simpl; rewrite ?length_app, ?Nat.add_1_r; [|exact Hstarted].
  cbv zeta.
  destruct (pullFailed _ _).
  - eexists. split; [reflexivity|]. unfold withError. world_simpl.
    destruct (afterPiped_frame
                (execPiped E (S (length (calls w))) (pullCmd (config w)))
                (pullCmd (config w))
                (addUi (setNow (addCall (addUi w (Say ("Ensuring base image '" +:+ BaseImage (config w) +:+ "' is available locally"))) (imagesCmd (config w)))
                   (now w + Z.of_N (took (execCombined E (length (calls w)) (imagesCmd (config w))))))
                   (Say ("Base image '" +:+ BaseImage (config w) +:+ "' not found locally, pulling from registry..."))))
      as (-> & _ & _).
    reflexivity.
  - eval_step. eexists. split; [reflexivity|]. world_simpl.
    destruct (afterPiped_frame
                (execPiped E (S (length (calls w))) (pullCmd (config w)))
                (pullCmd (config w))
                (addUi (setNow (addCall (addUi w (Say ("Ensuring base image '" +:+ BaseImage (config w) +:+ "' is available locally"))) (imagesCmd (config w)))
                   (now w + Z.of_N (took (execCombined E (length (calls w)) (imagesCmd (config w))))))
                   (Say ("Base image '" +:+ BaseImage (config w) +:+ "' not found locally, pulling from registry..."))))
      as (-> & _ & _).
    reflexivity.
Qed.

(** The push, once the precondition holds and the subprocess is started. *)
Lemma push_outcome w name :
  prepared w -> bag w !! "image_name" = Some (VString name) ->
  PushToRegistry (config w) = true ->
  (Contains (Registry (config w)) "ghcr.io" = true ->
   Getenv E "GITHUB_TOKEN" <> "") ->
  let r := execPiped E (length (calls w)) (pushCmd (config w) name) in
  let failed := pushFailed (waitErr r) (captured (stderrLines r)) in
  started r ->
  exists w',
    stepPushImage_Run E w
      = Ok (if failed then ActionHalt else ActionContinue) w'
    /\ config w' = config w
    /\ bag w' =
       if failed
       then <["error" := VError (Errorf0 (failureMsg "failed to push image"
                (waitErr r) (captured (stderrLines r))))]> (bag w)
       else <["pushed_image" := VString (targetImage (config w))]> (bag w).
Proof.
  intros [Hc Hu] Hi Hp Htoken r failed Hstarted. subst r failed.
  unfold stepPushImage_Run. unfold_monad.
  rewrite Hc. eval_step. rewrite Hu. eval_step. rewrite Hi. eval_step.
  rewrite Hp. cbn [negb]. eval_step.
  assert (forall m (w0 : World),
            bag w0 = bag w -> config w0 = config w -> calls w0 = calls w ->
            exists w',
              runPiped E (pushCmd (config w) name) "failed to start push command: "
                "failed to push image" pushFailed
                (fun w1 => Ok ActionContinue
                   (setBag (addUi w1 (Say m))
                      (<["pushed_image" := VString (targetImage (config w))]>
                         (bag (addUi w1 (Say m)))))) w0
              = Ok (if pushFailed
                         (waitErr (execPiped E (length (calls w)) (pushCmd (config w) name)))
                         (captured (stderrLines (execPiped E (length (calls w)) (pushCmd (config w) name))))
                    then ActionHalt else ActionContinue) w'
              /\ config w' = config w
              /\ bag w' =
                 if pushFailed
                      (waitErr (execPiped E (length (calls w)) (pushCmd (config w) name)))
                      (captured (stderrLines (execPiped E (length (calls w)) (pushCmd (config w) name))))
                 then <["error" := VError (Errorf0 (failureMsg "failed to push image"
                          (waitErr (execPiped E (length (calls w)) (pushCmd (config w) name)))
                          (captured (stderrLines (execPiped E (length (calls w)) (pushCmd (config w) name))))))]> (bag w)
                 else <["pushed_image" := VString (targetImage (config w))]> (bag w))
    as Hpush.
  { intros m w0 Hb Hcfg Hcalls.
    rewrite runPiped_started by (rewrite Hcalls; exact Hstarted).
    cbv zeta. rewrite Hcalls.
    destruct (afterPiped_frame
                (execPiped E (length (calls w)) (pushCmd (config w) name))
                (pushCmd (config w) name) w0) as (Hb' & _ & Hc').
    destruct (pushFailed _ _).
    - eexists. split; [reflexivity|]. unfold withError. world_simpl.
      rewrite Hb', Hb, Hc', Hcfg. auto.
    - eexists. split; [reflexivity|]. world_simpl.
      rewrite Hb', Hb, Hc', Hcfg. auto. }
  destruct (Contains (Registry (config w)) "ghcr.io") eqn:Hreg.
  - rewrite bool_decide_eq_false_2 by (apply Htoken; reflexivity).
    eval_step. apply Hpush; reflexivity.
  - eval_step. apply Hpush; reflexivity.
Qed.

End Steps.

(** ** The steps of the specification *)

(** C8: when the existence check reports the configured base image as
    present, PullOrCreateBaseImage starts the check and no pull, changes
    nothing in the state bag and continues; so a second invocation against
    a backend that reports the image present again starts no pull either. *)
Theorem pull_idempotent_when_present (E : Env) (w : World) :
  prepared w -> reportsPresent E w ->
  exists w1,
    stepPullImage_Run E w = Ok ActionContinue w1
    /\ calls w1 = calls w ++ [{| issuedAt := now w; command := imagesCmd (config w) |}]
    /\ imagesCmd (config w) <> pullCmd (config w)
    /\ bag w1 = bag w
    /\ (reportsPresent E w1 ->
        exists w2,
          stepPullImage_Run E w1 = Ok ActionContinue w2
          /\ calls w2 = calls w1 ++ [{| issuedAt := now w1; command := imagesCmd (config w) |}]
          /\ bag w2 = bag w).
Proof.
  intros Hprep Hpresent.
  destruct (pull_present E w Hprep Hpresent) as (w1 & Hrun & Hcalls & Hbag & Hcfg).
  exists w1. repeat split; try assumption.
  - apply imagesCmd_not_pullCmd.
  - intros Hagain.
    assert (prepared w1) as Hprep1 by (unfold prepared; rewrite Hbag; exact Hprep).
    destruct (pull_present E w1 Hprep1 Hagain) as (w2 & Hrun2 & Hcalls2 & Hbag2 & _).
    exists w2. rewrite <- Hcfg. repeat split; congruence.
Qed.

Lemma pull_idempotent_when_present_witness :
  exists w1,
    stepPullImage_Run (plainEnv true) (demoWorld true) = Ok ActionContinue w1
    /\ calls w1 = calls (demoWorld true)
                  ++ [{| issuedAt := now (demoWorld true);
                         command := imagesCmd (config (demoWorld true)) |}]
    /\ imagesCmd (config (demoWorld true)) <> pullCmd (config (demoWorld true))
    /\ bag w1 = bag (demoWorld true)
    /\ (reportsPresent (plainEnv true) w1 ->
        exists w2,
          stepPullImage_Run (plainEnv true) w1 = Ok ActionContinue w2
          /\ calls w2 = calls w1
                        ++ [{| issuedAt := now w1;
                               command := imagesCmd (config (demoWorld true)) |}]
          /\ bag w2 = bag (demoWorld true)).
Proof.
  apply (pull_idempotent_when_present (plainEnv true) (demoWorld true)).
  - split; vm_compute; reflexivity.
  - split; vm_compute; reflexivity.
Defined.

(** C5: with [push_to_registry] false, PublishImage continues without
    starting any subprocess and leaves the state bag as it is: no error and
    no published-image entry is written. *)
Theorem publish_skipped_when_disabled (E : Env) (w : World) (name : string) :
  prepared w -> bag w !! "image_name" = Some (VString name) ->
  PushToRegistry (config w) = false ->
  exists w',
    stepPushImage_Run E w = Ok ActionContinue w'
    /\ calls w' = calls w
    /\ bag w' = bag w
    /\ bag w' !! "error" = bag w !! "error"
    /\ bag w' !! "pushed_image" = bag w !! "pushed_image".
Proof.
  intros Hprep Hname Hpush.
  rewrite (push_disabled E w name Hprep Hname Hpush).
  eexists. split; [reflexivity|]. world_simpl. auto.
Qed.

Lemma publish_skipped_when_disabled_witness :
  exists w',
    stepPushImage_Run (plainEnv false) (demoWorld false) = Ok ActionContinue w'
    /\ calls w' = calls (demoWorld false)
    /\ bag w' = bag (demoWorld false)
    /\ bag w' !! "error" = bag (demoWorld false) !! "error"
    /\ bag w' !! "pushed_image" = bag (demoWorld false) !! "pushed_image".
Proof.
  apply (publish_skipped_when_disabled (plainEnv false) (demoWorld false) "img:v1").
  - split; vm_compute; reflexivity.
  - vm_compute; reflexivity.
  - reflexivity.
Defined.

(** C4: with pushing enabled, a registry that names the GHCR host and
    GITHUB_TOKEN unset, PublishImage halts with the precondition error
    recorded under ["error"] in the state bag, and has started no
    subprocess (neither the binary nor [curl]) and written no
    published-image entry. *)
Theorem publish_requires_token (E : Env) (w : World) (name : string) :
  prepared w -> bag w !! "image_name" = Some (VString name) ->
  PushToRegistry (config w) = true ->
  Contains (Registry (config w)) "ghcr.io" = true ->
  environ E !! "GITHUB_TOKEN" = None ->
  exists w',
    stepPushImage_Run E w = Ok ActionHalt w'
    /\ calls w' = calls w
    /\ bag w' = <["error" := VError tokenMsg]> (bag w)
    /\ bag w' !! "pushed_image" = bag w !! "pushed_image".
Proof.
  intros Hprep Hname Hpush Hreg Hunset.
  assert (Getenv E "GITHUB_TOKEN" = "") as Htoken.
  { unfold Getenv. rewrite Hunset. reflexivity. }
  rewrite (push_without_token E w name Hprep Hname Hpush Hreg Htoken).
  eexists. split; [reflexivity|]. unfold withError. world_simpl.
  repeat split. apply lookup_insert_ne. discriminate.
Qed.

Lemma publish_requires_token_witness :
  exists w',
    stepPushImage_Run (plainEnv false) (demoWorld true) = Ok ActionHalt w'
    /\ calls w' = calls (demoWorld true)
    /\ bag w' = <["error" := VError tokenMsg]> (bag (demoWorld true))
    /\ bag w' !! "pushed_image" = bag (demoWorld true) !! "pushed_image".
Proof.
  apply (publish_requires_token (plainEnv false) (demoWorld true) "img:v1").
  - split; vm_compute; reflexivity.
  - vm_compute; reflexivity.
  - reflexivity.
  - vm_compute; reflexivity.
  - vm_compute; reflexivity.
Defined.

(** ** Reporting *)

(** C10: after the step runner, an error recorded in the state bag is
    returned with no artifact, before the reports of cancellation and of a
    halt; without a recorded error a cancelled build and a halted build are
    reported by two different errors, cancellation first; and an artifact is
    returned only when the state bag has an image name, whose absence is an
    error of its own. *)
Theorem report_precedence (w : World) :
  (forall e, bag w !! "error" = Some (VError e) ->
             report w = Ok (None, Some e) w)
  /\ (bag w !! "error" = None -> is_Some (bag w !! StateCancelled) ->
      report w = Ok (None, Some "build was cancelled") w)
  /\ (bag w !! "error" = None -> bag w !! StateCancelled = None ->
      is_Some (bag w !! StateHalted) ->
      report w = Ok (None, Some "build was halted") w)
  /\ (bag w !! "error" = None -> bag w !! StateCancelled = None ->
      bag w !! StateHalted = None -> bag w !! "image_name" = None ->
      report w = Ok (None, Some "failed to get image name from state") w)
  /\ (forall a e w', report w = Ok (Some a, e) w' ->
        e = None
        /\ bag w !! "image_name" = Some (VString (ImageName a))
        /\ bag w !! "error" = None
        /\ bag w !! StateCancelled = None
        /\ bag w !! StateHalted = None)
  /\ "build was cancelled" <> "build was halted".
Proof.
  unfold report. unfold_monad.
  split; [|split; [|split; [|split; [|split]]]].
  - intros e ->. reflexivity.
  - intros -> [v ->]. reflexivity.
  - intros -> -> [v ->]. reflexivity.
  - intros -> -> -> ->. reflexivity.
  - intros a e w' H.
    destruct (bag w !! "error") as [[]|]; try discriminate.
    destruct (bag w !! StateCancelled); [discriminate|].
    destruct (bag w !! StateHalted); [discriminate|].
    destruct (bag w !! "image_name") as [[]|]; try discriminate;
      destruct (bag w !! "pushed_image") as [[]|]; try discriminate;
      injection H as <- <- <-; auto.
  - discriminate.
Qed.

Lemma report_precedence_witness :
  report failedWorld
  = Ok (None, Some "failed to start VM: exit status 1 - ") failedWorld.
Proof.
  apply (proj1 (report_precedence failedWorld)).
  vm_compute. reflexivity.
Defined.

(** ** The VM name *)

Lemma itoa_inj (m n : Z) : itoa m = itoa n -> m = n.
Proof.
  unfold itoa. intros H.
  assert (forall z, Z.to_int z <> Decimal.Pos Decimal.Nil
                    /\ Z.to_int z <> Decimal.Neg Decimal.Nil) as Hnonnil.
  { intros [|p|p]; simpl; split; try discriminate;
      intros [= Hp]; exact (DecimalPos.Unsigned.to_uint_nonnil p Hp). }
  apply DecimalZ.to_int_inj.
  destruct (Hnonnil m) as [Hm1 Hm2], (Hnonnil n) as [Hn1 Hn2].
  pose proof (DecimalString.NilZero.isi _ Hm1 Hm2) as Im.
  pose proof (DecimalString.NilZero.isi _ Hn1 Hn2) as In.
  rewrite H in Im. congruence.
Qed.

(** Builds of one configured name that start in different seconds get
    different VM names. *)
Lemma generateVMName_seconds name (s1 s2 : Z) :
  generateVMName name s1 = generateVMName name s2 -> s1 = s2.
Proof.
  unfold generateVMName. intros H.
  apply itoa_inj.
  repeat (apply String.app_inj in H). exact H.
Qed.

(** [Builder.Run] is the runner on the step list and then the report, from
a state bag with the VM name made of the configured name and the whole
seconds of the start. *)
Lemma Builder_Run_unfold E fuel c :
  Builder_Run E fuel c
  = (runSteps E fuel 0 (buildSteps c) ;;; report) (startWorld E c).
Proof. reflexivity. Qed.

(** C9: two builds of the configured name [web] that start half a second
    apart, within one second of the clock, run their VMs under one and the
    same name, [packer-web-1700000000]. *)
Theorem vm_names_collide_within_a_second :
  let early := plainEnv true in
  let late := demoEnv {["GITHUB_TOKEN" := "ghp_token"]} "10.0.0.5" 0 false
                      (quietPiped [] None) 1700000000623456789 in
  startTime early <> startTime late
  /\ finalEntry (Builder_Run early 40 (demoConfig true)) "vm_name"
     = Some (VString "packer-web-1700000000")
  /\ finalEntry (Builder_Run late 40 (demoConfig true)) "vm_name"
     = Some (VString "packer-web-1700000000")
  /\ generateVMName "web" (Unix (startTime early))
     = generateVMName "web" (Unix (startTime late)).
Proof.
  cbv zeta. split; [discriminate|]. vm_compute. auto.
Qed.

(** ** Failure detection of pull and push *)

(** C6: a push that the registry refuses with exit status 1 and the text
    [denied: quota 100% used] halts the step, and the error recorded is not
    the composed message: [fmt.Errorf] reads the message as a format and
    reports a missing operand in the middle of the captured text. *)
Theorem push_error_message_garbled :
  failureMsg "failed to push image" (waitErr refusedPush)
             (captured (stderrLines refusedPush))
  = "failed to push image: exit status 1 - denied: quota 100% used"
  /\ exists w',
       stepPushImage_Run refusedEnv (demoWorld true) = Ok ActionHalt w'
       /\ bag w' !! "error"
          = Some (VError "failed to push image: exit status 1 - denied: quota 100%!u(MISSING)sed").
Proof.
  split; [vm_compute; reflexivity|].
  eexists. split; [vm_compute; reflexivity|].
  vm_compute. reflexivity.
Qed.

(** ** Waiting for the VM *)

Section Waiting.

Variable E : Env.
Variables (vmName : string) (t0 : Z).

(** A round that takes the timer's case halts with the timeout error. *)
Lemma waitLoop_timeout fuel buffered k w at_ :
  select (selectPick E k) t0 (now w) buffered = (CaseTimeout, at_) ->
  waitLoop E (S fuel) vmName t0 buffered k w
  = Ok ActionHalt (withError timeoutMsg (setNow w at_)).
Proof.
  intros Hsel. cbn [waitLoop]. rewrite Hsel. unfold_monad. eval_step.
  rewrite Errorf0_timeoutMsg. reflexivity.
Qed.

(** A round that takes a tick and gets no address says so and goes on, the
    state bag being what it was: no error is recorded. *)
Lemma waitLoop_not_ready fuel buffered k w at_ :
  select (selectPick E k) t0 (now w) buffered = (CaseTick, at_) ->
  noAddress (execCombined E (length (calls w)) (ipCmd (config w) vmName)) ->
  waitLoop E (S fuel) vmName t0 buffered k w
  = waitLoop E fuel vmName t0
      (tickDue t0 at_
         (at_ + Z.of_N (took (execCombined E (length (calls w))
                                (ipCmd (config w) vmName)))))
      (S k) (afterPoll E vmName at_ w).
Proof.
  intros Hsel Hno. cbn [waitLoop]. rewrite Hsel. unfold_monad. eval_step.
  assert ((if bool_decide
                (err (execCombined E (length (calls w)) (ipCmd (config w) vmName)) = None)
              && (0 <? String.length
                         (output (execCombined E (length (calls w))
                                    (ipCmd (config w) vmName))))%nat
           then extractIP (output (execCombined E (length (calls w))
                                     (ipCmd (config w) vmName)))
           else "") = "") as ->.
  { destruct Hno as [Herr|Hrej].
    - rewrite bool_decide_eq_false_2 by exact Herr. reflexivity.
    - rewrite (extractIP_rejected _ Hrej). destruct (_ && _); reflexivity. }
  reflexivity.
Qed.

Lemma afterPoll_frame at_ w :
  bag (afterPoll E vmName at_ w) = bag w
  /\ config (afterPoll E vmName at_ w) = config w
  /\ calls (afterPoll E vmName at_ w)
     = calls w ++ [{| issuedAt := at_; command := ipCmd (config w) vmName |}]
  /\ now (afterPoll E vmName at_ w)
     = (at_ + Z.of_N (took (execCombined E (length (calls w))
                              (ipCmd (config w) vmName))))%Z.
Proof. unfold afterPoll. world_simpl. auto. Qed.

Lemma waitTimeout_ticks : waitTimeout = (30 * tickInterval)%Z.
Proof. reflexivity. Qed.

Lemma tickInterval_pos : (0 < tickInterval)%Z.
Proof. reflexivity. Qed.

Lemma interval_div (x k : Z) :
  (k * tickInterval <= x < (k + 1) * tickInterval)%Z ->
  (x / tickInterval)%Z = k.
Proof.
  intros H. symmetry.
  apply (Z.div_unique_pos x tickInterval k (x - k * tickInterval)); lia.
Qed.

(** Before the deadline, with no tick waiting, the loop blocks until the
    next tick. *)
Lemma select_next_tick pick (k : Z) now_ :
  (0 <= k < 29)%Z ->
  (t0 + k * tickInterval <= now_ < t0 + (k + 1) * tickInterval)%Z ->
  select pick t0 now_ false = (CaseTick, (t0 + (k + 1) * tickInterval)%Z).
Proof.
  intros Hk Hnow. unfold select.
  rewrite (interval_div (now_ - t0) k) by lia.
  pose proof tickInterval_pos. rewrite waitTimeout_ticks.
  destruct (Z.leb_spec (t0 + 30 * tickInterval) now_); [nia|].
  destruct (Z.ltb_spec (t0 + (k + 1) * tickInterval) (t0 + 30 * tickInterval));
    [reflexivity|nia].
Qed.

(** The thirtieth tick and the deadline fall due together. *)
Lemma select_tie pick now_ :
  (t0 + 29 * tickInterval <= now_ < t0 + 30 * tickInterval)%Z ->
  select pick t0 now_ false
  = (if pick then CaseTick else CaseTimeout, (t0 + waitTimeout)%Z).
Proof.
  intros Hnow. unfold select.
  rewrite (interval_div (now_ - t0) 29) by lia.
  rewrite waitTimeout_ticks.
  destruct (Z.leb_spec (t0 + 30 * tickInterval) now_); [lia|].
  change ((29 + 1) * tickInterval)%Z with (30 * tickInterval)%Z.
  rewrite !Z.ltb_irrefl. reflexivity.
Qed.

(** After the deadline, with no tick waiting, the timer's case is taken. *)
Lemma select_late pick now_ :
  (t0 + waitTimeout <= now_)%Z ->
  select pick t0 now_ false = (CaseTimeout, now_).
Proof.
  intros Hnow. unfold select.
  destruct (Z.leb_spec (t0 + waitTimeout) now_); [reflexivity|lia].
Qed.

Lemma tickDue_prompt (k d : Z) :
  (0 <= d < tickInterval)%Z ->
  tickDue t0 (t0 + k * tickInterval) (t0 + k * tickInterval + d) = false.
Proof.
  intros Hd. unfold tickDue.
  rewrite (interval_div (t0 + k * tickInterval - t0) k) by lia.
  rewrite (interval_div (t0 + k * tickInterval + d - t0) k) by lia.
  apply Z.ltb_irrefl.
Qed.

Lemma pollsAt_cons c first count :
  pollsAt c t0 first (S count)
  = {| issuedAt := (t0 + Z.of_nat first * tickInterval)%Z; command := c |}
    :: pollsAt c t0 (S first) count.
Proof. reflexivity. Qed.

Hypothesis Hnever : neverReady E.
Hypothesis Hprompt : promptPolls E.

(** With prompt polls that yield no address: after [k] polls, the last of
    them at tick [k], the loop polls at every further tick before the
    deadline, then takes the timeout, or one more tick first when the
    [select] at the deadline picks the ticker. *)
Lemma waitLoop_prompt (m : nat) : forall (k fuel : nat) (w : World),
  k + m = 29 -> m + 2 <= fuel ->
  (t0 + Z.of_nat k * tickInterval <= now w
   < t0 + (Z.of_nat k + 1) * tickInterval)%Z ->
  exists w',
    waitLoop E fuel vmName t0 false k w = Ok ActionHalt w'
    /\ bag w' = <["error" := VError timeoutMsg]> (bag w)
    /\ calls w' = calls w ++ pollsAt (ipCmd (config w) vmName) t0 (S k)
                               ((if selectPick E 29 then 30 else 29) - k)
    /\ (t0 + waitTimeout <= now w' < t0 + waitTimeout + tickInterval)%Z.
Proof.
  pose proof tickInterval_pos as Hpos.
  induction m as [|m IH]; intros k fuel w Hk Hfuel Hnow.
  - assert (k = 29) as -> by lia.
    destruct fuel as [|[|fuel]]; [lia..|].
    destruct (selectPick E 29) eqn:Hpick.
    + rewrite (waitLoop_not_ready (S fuel) false 29 w (t0 + waitTimeout));
        [|rewrite select_tie, Hpick by exact Hnow; reflexivity|apply Hnever].
      rewrite waitTimeout_ticks, tickDue_prompt
        by (split; [lia|apply Hprompt]).
      destruct (afterPoll_frame (t0 + 30 * tickInterval) w)
        as (Hbag & Hcfg & Hcalls & Hnow').
      rewrite (waitLoop_timeout fuel false 30 _ (now (afterPoll E vmName (t0 + 30 * tickInterval) w)))
        by (apply select_late; rewrite Hnow', waitTimeout_ticks; lia).
      eexists. split; [reflexivity|]. unfold withError. world_simpl.
      rewrite Hbag, Hcalls, Hnow'. repeat split; try lia.
      pose proof (Hprompt (length (calls w)) (ipCmd (config w) vmName)). lia.
    + rewrite (waitLoop_timeout (S fuel) false 29 w (t0 + waitTimeout))
        by (rewrite select_tie, Hpick by exact Hnow; reflexivity).
      eexists. split; [reflexivity|]. unfold withError. world_simpl.
      repeat split; try lia. cbn. rewrite app_nil_r. reflexivity.
  - destruct fuel as [|fuel]; [lia|].
    rewrite (waitLoop_not_ready fuel false k w
               (t0 + (Z.of_nat k + 1) * tickInterval));
      [|apply select_next_tick; [lia|exact Hnow]|apply Hnever].
    rewrite tickDue_prompt by (split; [lia|apply Hprompt]).
    destruct (afterPoll_frame (t0 + (Z.of_nat k + 1) * tickInterval) w)
      as (Hbag & Hcfg & Hcalls & Hnow').
    destruct (IH (S k) fuel (afterPoll E vmName (t0 + (Z.of_nat k + 1) * tickInterval) w))
      as (w' & Hrun & Hbag' & Hcalls' & Htime); [lia|lia| |].
    { rewrite Hnow'.
      pose proof (Hprompt (length (calls w)) (ipCmd (config w) vmName)). lia. }
    exists w'. split; [exact Hrun|]. rewrite Hbag', Hcalls', Hbag, Hcfg, Hcalls.
    repeat split; try apply Htime.
    rewrite <- app_assoc. f_equal.
    replace ((if selectPick E 29 then 30 else 29) - k)
      with (S ((if selectPick E 29 then 30 else 29) - S k))
      by (destruct (selectPick E 29); lia).
    rewrite pollsAt_cons. cbn [app]. do 3 f_equal. lia.
Qed.

End Waiting.

(** C2: when no [ip] call ever yields an address and every call returns
    within the tick interval, WaitForReady polls at every tick of the
    ten-second ticker and halts once the five-minute timer has fired, with
    the timeout error recorded under ["error"] in the state bag.  29 polls
    have been made by then, one after each of the first 29 ticks; the
    thirtieth tick falls due together with the timer, and a thirtieth poll
    is made only when the [select] takes the ticker's case first. *)
Theorem wait_times_out (E : Env) (fuel : nat) (w : World) (vmName : string) :
  prepared w -> bag w !! "vm_name" = Some (VString vmName) ->
  neverReady E -> promptPolls E -> 31 <= fuel ->
  exists w',
    stepWaitForVM_Run E fuel w = Ok ActionHalt w'
    /\ bag w' = <["error" := VError timeoutMsg]> (bag w)
    /\ calls w' = calls w ++ pollsAt (ipCmd (config w) vmName) (now w) 1
                               (if selectPick E 29 then 30 else 29)
    /\ (now w + waitTimeout <= now w' < now w + waitTimeout + tickInterval)%Z.
Proof.
  intros [Hc Hu] Hname Hnever Hprompt Hfuel.
  unfold stepWaitForVM_Run. unfold_monad.
  rewrite Hc. eval_step. rewrite Hu. eval_step. rewrite Hname. eval_step.
  destruct (waitLoop_prompt E vmName (now w) Hnever Hprompt 29 0 fuel
              (addUi w (Say ("Waiting for VM '" +:+ vmName +:+ "' to be ready..."))))
    as (w' & Hrun & Hbag & Hcalls & Htime);
    [lia|lia|world_simpl; pose proof tickInterval_pos; lia|].
  exists w'. split; [exact Hrun|]. world_simpl.
  rewrite Nat.sub_0_r in Hcalls. auto.
Qed.

Lemma stuckEnv_neverReady delay pick : neverReady (stuckEnv delay pick).
Proof.
  intros n c. right. cbn [stuckEnv demoEnv execCombined demoBackend output].
  repeat case_bool_decide; apply rejected_decide; reflexivity.
Qed.

Lemma wait_times_out_witness :
  exists w',
    stepWaitForVM_Run (stuckEnv 0 false) 31 (demoWorld true) = Ok ActionHalt w'
    /\ bag w' = <["error" := VError timeoutMsg]> (bag (demoWorld true))
    /\ calls w' = calls (demoWorld true)
                  ++ pollsAt (ipCmd (config (demoWorld true)) "packer-web-1700000000")
                       (now (demoWorld true)) 1
                       (if selectPick (stuckEnv 0 false) 29 then 30 else 29)
    /\ (now (demoWorld true) + waitTimeout <= now w'
        < now (demoWorld true) + waitTimeout + tickInterval)%Z.
Proof.
  apply (wait_times_out (stuckEnv 0 false) 31 (demoWorld true)
           "packer-web-1700000000").
  - split; vm_compute; reflexivity.
  - vm_compute; reflexivity.
  - apply stuckEnv_neverReady.
  - intros n c. vm_compute. reflexivity.
  - lia.
Defined.

(** With [ip] calls of one minute each, the ticker drops the ticks that
    fall due while a call runs: five polls have been made when the timer
    fires. *)
Lemma slow_polls_timeout :
  exists w',
    stepWaitForVM_Run (stuckEnv 60000000000 false) 31 (demoWorld true)
    = Ok ActionHalt w'
    /\ bag w' !! "error" = Some (VError timeoutMsg)
    /\ map issuedAt (calls w')
       = [10 * Second; 70 * Second; 130 * Second; 190 * Second; 250 * Second]%Z
    /\ now w' = (310 * Second)%Z.
Proof.
  eexists.
  split; [vm_compute; reflexivity|].
  split; [vm_compute; reflexivity|].
  split; vm_compute; reflexivity.
Qed.

(** With calls that return at once and a [select] that takes the timer at
    the deadline, 29 polls have been made when the timeout fires. *)
Lemma prompt_polls_timeout :
  exists w',
    stepWaitForVM_Run (stuckEnv 0 false) 31 (demoWorld true) = Ok ActionHalt w'
    /\ length (calls w') = 29
    /\ now w' = waitTimeout.
Proof.
  eexists.
  split; [vm_compute; reflexivity|].
  split; vm_compute; reflexivity.
Qed.

(** The claim of C2 as the specification states it does not hold: the
    timeout can fire with fewer than 30 polls made. *)
Lemma timeout_before_thirty_polls : ~ timeoutAfterThirtyPolls.
Proof.
  intros Hclaim.
  destruct slow_polls_timeout as (w' & Hrun & _ & Hcalls & _).
  destruct (Hclaim (stuckEnv 60000000000 false) 31 (demoWorld true)
              "packer-web-1700000000" ActionHalt w') as (_ & _ & Hlen).
  - split; vm_compute; reflexivity.
  - vm_compute; reflexivity.
  - apply stuckEnv_neverReady.
  - exact Hrun.
  - apply (f_equal length) in Hcalls. rewrite length_map in Hcalls.
    rewrite Hcalls in Hlen. discriminate Hlen.
Qed.



(** ** Frame properties of the steps *)

Section Frame.

Variable E : Env.

Lemma sameOutput_refl c : sameOutput c c.
Proof. destruct c. reflexivity. Qed.

Lemma sameOutput_trans c1 c2 c3 :
  sameOutput c1 c2 -> sameOutput c2 c3 -> sameOutput c1 c3.
Proof. unfold sameOutput. intros H12 H23. rewrite H23, H12. reflexivity. Qed.

Lemma keeps_refl w : keeps w w.
Proof. split; [apply sameOutput_refl|reflexivity]. Qed.

Lemma keeps_trans w1 w2 w3 : keeps w1 w2 -> keeps w2 w3 -> keeps w1 w3.
Proof.
  intros [Hc12 Hb12] [Hc23 Hb23]. split.
  - eapply sameOutput_trans; eassumption.
  - congruence.
Qed.

Lemma preserves_ret {A} (a : A) : preserves (ret a).
Proof. intros w a' w' [= <- <-]. apply keeps_refl. Qed.

Lemma preserves_panic {A} msg : preserves (@panic A msg).
Proof. intros w a w' [=]. Qed.

Lemma preserves_bind {A B} (m : M A) (k : A -> M B) :
  preserves m -> (forall a, preserves (k a)) -> preserves (bind m k).
Proof.
  intros Hm Hk w b w' H. unfold bind in H.
  destruct (m w) as [a w1| |] eqn:Em; try discriminate.
  eapply keeps_trans; [eapply Hm, Em|eapply Hk, H].
Qed.

(** A computation that changes the UI, the log, the calls or the clock
    only. *)
Lemma preserves_silent {A} (m : M A) :
  (forall w a w', m w = Ok a w' -> bag w' = bag w /\ config w' = config w) ->
  preserves m.
Proof.
  intros H w a w' Hm. destruct (H w a w' Hm) as [Hb Hc].
  split; [rewrite Hc; apply sameOutput_refl|rewrite Hb; reflexivity].
Qed.

Lemma preserves_Put key v : key <> "pushed_image" -> preserves (Put key v).
Proof.
  intros Hkey w [] w' [= <-]. split; [apply sameOutput_refl|].
  world_simpl. apply lookup_insert_ne. exact Hkey.
Qed.

Lemma preserves_GetOk key : preserves (GetOk key).
Proof. apply preserves_silent. intros w a w' [= _ <-]. auto. Qed.

Lemma preserves_uiSay msg : preserves (uiSay msg).
Proof. apply preserves_silent. intros w a w' [= _ <-]. auto. Qed.

Lemma preserves_uiError msg : preserves (uiError msg).
Proof. apply preserves_silent. intros w a w' [= _ <-]. auto. Qed.

Lemma preserves_logPrintf msg : preserves (logPrintf msg).
Proof. apply preserves_silent. intros w a w' [= _ <-]. auto. Qed.

Lemma preserves_sleep d : preserves (sleep d).
Proof. apply preserves_silent. intros w a w' [= _ <-]. auto. Qed.

Lemma preserves_Start c : preserves (Start c).
Proof. apply preserves_silent. intros w a w' [= _ <-]. auto. Qed.

Lemma preserves_CombinedOutput c : preserves (CombinedOutput E c).
Proof. apply preserves_silent. intros w a w' [= _ <-]. auto. Qed.

Lemma preserves_pipedResult c : preserves (pipedResult E c).
Proof. apply preserves_silent. intros w a w' [= _ <-]. auto. Qed.

Lemma preserves_uiSayAll lines : preserves (uiSayAll lines).
Proof.
  apply preserves_silent. intros w a w'. rewrite uiSayAll_sayLines.
  intros [= _ <-]. destruct (sayLines_frame lines w) as (? & _ & ? & _). auto.
Qed.

Lemma preserves_GetString key : preserves (GetString key).
Proof.
  unfold GetString. apply preserves_bind; [apply preserves_GetOk|].
  intros [[]|]; first [apply preserves_ret|apply preserves_panic].
Qed.

Lemma preserves_GetUi : preserves GetUi.
Proof.
  unfold GetUi. apply preserves_bind; [apply preserves_GetOk|].
  intros [[]|]; first [apply preserves_ret|apply preserves_panic].
Qed.

Lemma preserves_GetConfig : preserves GetConfig.
Proof.
  unfold GetConfig. apply preserves_bind; [apply preserves_GetOk|].
  intros [[]|]; try apply preserves_panic.
  apply preserves_silent. intros w a w' [= _ <-]. auto.
Qed.

Lemma preserves_setSSHHost ip :
  preserves (fun w => Ok tt (setConfig w (setSSHHost (config w) ip))).
Proof.
  intros w [] w' [= <-]. split; [|reflexivity].
  world_simpl. destruct (config w). reflexivity.
Qed.

End Frame.

Create HintDb frame.

#[export] Hint Resolve preserves_ret preserves_panic preserves_GetOk
  preserves_uiSay preserves_uiError preserves_logPrintf preserves_sleep
  preserves_Start preserves_CombinedOutput preserves_pipedResult
  preserves_uiSayAll preserves_GetString preserves_GetUi preserves_GetConfig
  preserves_setSSHHost : frame.

(** Walks through a computation built with [bind]: every primitive in the
    hint base, every branch of a conditional. *)
Ltac frame_step :=
  match goal with
  | |- preserves (bind _ _) => apply preserves_bind; [|intros]
  | |- preserves (Put _ _) => apply preserves_Put; discriminate
  | |- preserves (match ?x with _ => _ end) => destruct x
  | |- preserves (if ?b then _ else _) => destruct b
  | |- preserves (let _ := _ in _) => cbv zeta
  | |- preserves _ => solve [auto with frame]
  end.

Ltac frame := repeat frame_step.

Section FrameSteps.

Variable E : Env.

Lemma preserves_runPiped c startMsg what failed onSuccess :
  preserves onSuccess ->
  preserves (runPiped E c startMsg what failed onSuccess).
Proof. intros H. unfold runPiped. frame. Qed.

Lemma preserves_runFatal c what onSuccess :
  preserves onSuccess -> preserves (runFatal E c what onSuccess).
Proof. intros H. unfold runFatal. frame. Qed.

Lemma preserves_pull : preserves (stepPullImage_Run E).
Proof.
  unfold stepPullImage_Run. frame. apply preserves_runPiped. frame.
Qed.

Lemma preserves_createVM : preserves (stepCreateVM_Run E).
Proof.
  unfold stepCreateVM_Run. frame. apply preserves_runFatal. frame.
Qed.

Lemma preserves_startVM : preserves (stepStartVM_Run E).
Proof.
  unfold stepStartVM_Run. frame. apply preserves_runFatal. frame.
Qed.

Lemma preserves_stopVM : preserves (stepStopVM_Run E).
Proof. unfold stepStopVM_Run. frame. Qed.

Lemma preserves_collaborator o : preserves (collaborator o).
Proof. unfold collaborator. frame. Qed.

Lemma preserves_waitLoop vmName t0 fuel :
  forall buffered k, preserves (waitLoop E fuel vmName t0 buffered k).
Proof.
  induction fuel as [|fuel IH]; intros buffered k w a w' H; [discriminate|].
  cbn [waitLoop] in H.
  destruct (select (selectPick E k) t0 (now w) buffered) as [case at_].
  match type of H with
  | ?m _ = _ => assert (preserves m) as Hm
  end.
  { destruct case; frame. intros ? ? ? Hloop. eapply IH, Hloop. }
  eapply (keeps_trans _ (setNow w at_)); [|eapply Hm, H].
  split; world_simpl; [apply sameOutput_refl|reflexivity].
Qed.

Lemma preserves_wait fuel : preserves (stepWaitForVM_Run E fuel).
Proof.
  unfold stepWaitForVM_Run. frame.
  intros ? ? ? Hloop. eapply preserves_waitLoop, Hloop.
Qed.

(** A piped run that continues has been started and has run [onSuccess]
    from a world with the same state bag and configuration. *)
Lemma runPiped_continue c startMsg what failed onSuccess w w' :
  runPiped E c startMsg what failed onSuccess w = Ok ActionContinue w' ->
  exists w0,
    bag w0 = bag w /\ config w0 = config w
    /\ onSuccess w0 = Ok ActionContinue w'.
Proof.
  intros H.
  destruct (stdoutPipeErr (execPiped E (length (calls w)) c)) eqn:H1.
  { unfold runPiped in H. unfold_monad. rewrite H1 in H.
    rewrite bool_decide_eq_true_2 in H by (eexists; reflexivity).
    cbv beta iota in H. discriminate. }
  destruct (stderrPipeErr (execPiped E (length (calls w)) c)) eqn:H2.
  { unfold runPiped in H. unfold_monad. rewrite H1, H2 in H.
    rewrite bool_decide_eq_false_2 in H by (intros [? ?]; discriminate).
    rewrite bool_decide_eq_true_2 in H by (eexists; reflexivity).
    cbv beta iota in H. discriminate. }
  destruct (startErr (execPiped E (length (calls w)) c)) eqn:H3.
  { rewrite (runPiped_not_started E c startMsg what failed onSuccess w s H1 H2 H3) in H.
    discriminate. }
  rewrite runPiped_started in H by (repeat split; assumption).
  cbv zeta in H. destruct (failed _ _); [discriminate|].
  destruct (afterPiped_frame (execPiped E (length (calls w)) c) c w)
    as (Hb & _ & Hc).
  eexists. split; [exact Hb|]. split; [exact Hc|exact H].
Qed.

(** A snapshot that continues has stored the image name made of the
    configured output name and tag. *)
Lemma createImage_continue w w' :
  stepCreateImage_Run E w = Ok ActionContinue w' ->
  bag w' = <["image_name" := VString (OutputImageName (config w) +:+ ":" +:+
                                      OutputTag (config w))]> (bag w)
  /\ config w' = config w.
Proof.
  unfold stepCreateImage_Run. unfold_monad.
  destruct (bag w !! "config") as [[]|]; try discriminate. eval_step.
  destruct (bag w !! "ui") as [[]|]; try discriminate. eval_step.
  destruct (bag w !! "vm_name") as [[]|]; try discriminate. eval_step.
  rewrite runFatal_by_exit_status. cbv zeta.
  destruct (err _); [discriminate|]. eval_step.
  intros [= <-]. world_simpl. auto.
Qed.

(** A publish step that continues was disabled and changed nothing, or was
    enabled and stored the target coordinate as the published image. *)
Lemma push_continue w w' :
  stepPushImage_Run E w = Ok ActionContinue w' ->
  config w' = config w
  /\ (PushToRegistry (config w) = false /\ bag w' = bag w
      \/ PushToRegistry (config w) = true
         /\ bag w' = <["pushed_image" := VString (targetImage (config w))]> (bag w)).
Proof.
  unfold stepPushImage_Run. unfold_monad.
  destruct (bag w !! "config") as [[]|]; try discriminate. eval_step.
  destruct (bag w !! "ui") as [[]|]; try discriminate. eval_step.
  destruct (bag w !! "image_name") as [[]|]; try discriminate. eval_step.
  destruct (PushToRegistry (config w)); cbn [negb]; eval_step.
  - assert (forall m (w0 : World),
              bag w0 = bag w -> config w0 = config w ->
              runPiped E (pushCmd (config w) s) "failed to start push command: "
                "failed to push image" pushFailed
                (fun w1 => Ok ActionContinue
                   (setBag (addUi w1 (Say m))
                      (<["pushed_image" := VString (targetImage (config w))]>
                         (bag (addUi w1 (Say m)))))) w0
              = Ok ActionContinue w' ->
              config w' = config w
              /\ bag w' = <["pushed_image" := VString (targetImage (config w))]> (bag w))
      as Hpush.
    { intros m w0 Hb Hc Hrun.
      apply runPiped_continue in Hrun as (w1 & Hb1 & Hc1 & [= <-]).
      world_simpl. rewrite Hb1, Hb, Hc1, Hc. auto. }
    destruct (Contains (Registry (config w)) "ghcr.io").
    + destruct (bool_decide (Getenv E "GITHUB_TOKEN" = "")); eval_step;
        [discriminate|].
      intros H. apply Hpush in H; [|reflexivity..]. destruct H. auto.
    + intros H. apply Hpush in H; [|reflexivity..]. destruct H. auto.
  - intros [= <-]. world_simpl. auto.
Qed.

(** Cleanup never halts and never touches the state bag: it cannot record
    an error, nor replace one. *)
Lemma cleanup_best_effort w a w' :
  stepCleanupVM_Run E w = Ok a w' ->
  a = ActionContinue /\ bag w' = bag w /\ config w' = config w
  /\ exists vmName,
       bag w !! "vm_name" = Some (VString vmName)
       /\ calls w' = calls w ++ [{| issuedAt := now w;
                                    command := deleteVMCmd (config w) vmName |}].
Proof.
  unfold stepCleanupVM_Run. unfold_monad.
  destruct (bag w !! "config") as [[]|]; try discriminate. eval_step.
  destruct (bag w !! "ui") as [[]|]; try discriminate. eval_step.
  destruct (bag w !! "vm_name") as [[]|]; try discriminate. eval_step.
  destruct (err _); eval_step; intros [= <- <-]; world_simpl; eauto 10.
Qed.

(** Stopping never halts and never touches the state bag. *)
Lemma stop_best_effort w a w' :
  stepStopVM_Run E w = Ok a w' ->
  a = ActionContinue /\ bag w' = bag w /\ config w' = config w.
Proof.
  unfold stepStopVM_Run. unfold_monad.
  destruct (bag w !! "config") as [[]|]; try discriminate. eval_step.
  destruct (bag w !! "ui") as [[]|]; try discriminate. eval_step.
  destruct (bag w !! "vm_name") as [[]|]; try discriminate. eval_step.
  destruct (err _); eval_step; intros [= <- <-]; world_simpl; auto.
Qed.

(** A step that halts ends the runner: [StateHalted] is put into the bag
    and no later step is run. *)
Lemma runSteps_halt fuel i step rest w w1 :
  cancelBefore E i = false -> cancelDuring E i = false ->
  Cleanup step = ret tt ->
  Run step E fuel w = Ok ActionHalt w1 ->
  bag w1 !! StateCancelled = None ->
  runSteps E fuel i (step :: rest) w
  = Ok tt (setBag w1 (<[StateHalted := VBool true]> (bag w1))).
Proof.
  intros Hb Hd Hc Hrun Hnot. cbn [runSteps]. rewrite Hb, Hd, Hc.
  unfold_monad. rewrite Hrun. eval_step. rewrite Hnot. reflexivity.
Qed.

(** When the runner leaves neither [StateCancelled] nor [StateHalted] in
    the bag, every step has returned [ActionContinue] in turn. *)
Lemma runSteps_continued fuel steps : forall i w w',
  Forall (fun step => Cleanup step = ret tt) steps ->
  runSteps E fuel i steps w = Ok tt w' ->
  bag w' !! StateCancelled = None -> bag w' !! StateHalted = None ->
  continued E fuel steps w w'.
Proof.
  induction steps as [|step rest IH]; intros i w w' Hclean Hrun Hc Hh.
  - injection Hrun as <-. constructor.
  - apply Forall_cons in Hclean as [Hstep Hrest].
    cbn [runSteps] in Hrun. rewrite Hstep in Hrun.
    destruct (cancelBefore E i).
    { injection Hrun as <-. world_simpl.
      rewrite lookup_insert_eq in Hc. discriminate. }
    unfold_monad.
    destruct (Run step E fuel w) as [action w1| |] eqn:Estep; try discriminate.
    destruct (cancelDuring E i); eval_step.
    { rewrite lookup_insert_eq in Hrun. injection Hrun as <-. world_simpl.
      rewrite lookup_insert_eq in Hc. discriminate. }
    destruct (bag w1 !! StateCancelled) eqn:Ecancel.
    { injection Hrun as <-. congruence. }
    destruct action.
    + destruct (runSteps E fuel (S i) rest w1) as [[] w2| |] eqn:Erest;
        try discriminate.
      injection Hrun as <-.
      econstructor; [exact Estep|]. eapply IH; eassumption.
    + injection Hrun as <-. world_simpl.
      rewrite lookup_insert_eq in Hh. discriminate.
Qed.

Lemma preserves_keygen fuel on :
  preserves (Run (If on StepSSHKeyGen) E fuel).
Proof. destruct on; cbn [If Run StepSSHKeyGen]; [apply preserves_collaborator|frame]. Qed.

Lemma preserves_connect fuel : preserves (Run StepConnect E fuel).
Proof.
  cbn [Run StepConnect]. frame; [apply preserves_collaborator|..]; frame.
Qed.

Lemma preserves_provision fuel : preserves (Run StepProvision E fuel).
Proof. cbn [Run StepProvision]. apply preserves_collaborator. Qed.

(** What [report] has found in the state bag when it returns an
    artifact. *)
Lemma report_artifact w a e w' :
  report w = Ok (Some a, e) w' ->
  e = None /\ w' = w
  /\ bag w !! "error" = None
  /\ bag w !! StateCancelled = None
  /\ bag w !! StateHalted = None
  /\ bag w !! "image_name" = Some (VString (ImageName a))
  /\ (bag w !! "pushed_image" = None /\ PushedImage a = ""
      \/ bag w !! "pushed_image" = Some (VString (PushedImage a)))
  /\ ArtifactConfig a = config w.
Proof.
  unfold report. unfold_monad. intros H.
  destruct (bag w !! "error") as [[]|]; try discriminate.
  destruct (bag w !! StateCancelled); [discriminate|].
  destruct (bag w !! StateHalted); [discriminate|].
  destruct (bag w !! "image_name") as [[]|]; try discriminate;
    destruct (bag w !! "pushed_image") as [[]|]; try discriminate;
    injection H as <- <- <-; cbn; auto 10.
Qed.

End FrameSteps.

Lemma targetImage_nonempty c : targetImage c <> "".
Proof.
  unfold targetImage.
  assert (forall s t, s +:+ "/" +:+ t <> "") as H.
  { intros [|a s] t; discriminate. }
  case_bool_decide; apply H.
Qed.

(** ** The artifact of a successful build *)

(** C7: the artifact a build returns has the image name
    [output_image_name:output_tag]; when publishing is enabled its
    published coordinate is [registry/organization/output_image_name:output_tag],
    without the organization segment when the organization is empty, and
    its summary is [Meda image: NAME (pushed to TARGET)]; when publishing is
    disabled the published coordinate is empty and the summary is
    [Meda image: NAME]. *)
Theorem artifact_of_successful_run (E : Env) (fuel : nat) (c : Config)
    (a : Artifact) (w : World) :
  Builder_Run E fuel c = Ok (Some a, None) w ->
  ImageName a = OutputImageName c +:+ ":" +:+ OutputTag c
  /\ (if PushToRegistry c
      then PushedImage a = targetImage c
           /\ Artifact_String a
              = "Meda image: " +:+ ImageName a +:+ " (pushed to "
                +:+ targetImage c +:+ ")"
      else PushedImage a = ""
           /\ Artifact_String a = "Meda image: " +:+ ImageName a)
  /\ targetImage c
     = (if bool_decide (Organization c = "")
        then Registry c +:+ "/" +:+ OutputImageName c +:+ ":" +:+ OutputTag c
        else Registry c +:+ "/" +:+ Organization c +:+ "/" +:+
             OutputImageName c +:+ ":" +:+ OutputTag c).
Proof.
  intros H. rewrite Builder_Run_unfold in H. unfold bind in H.
  destruct (runSteps E fuel 0 (buildSteps c) (startWorld E c))
    as [[] wf| |] eqn:Hrun; try discriminate.
  apply report_artifact in H
    as (_ & -> & _ & Hcancel & Hhalt & Hname & Hpushed & _).
  apply runSteps_continued in Hrun; [|clear|assumption..].
  2:{ unfold buildSteps, If. repeat constructor.
      destruct (_ && _ && _); reflexivity. }
  unfold buildSteps in Hrun.
  repeat match goal with
         | H : continued _ _ (_ :: _) _ _ |- _ => inversion H; subst; clear H
         | H : continued _ _ [] _ _ |- _ => inversion H; subst; clear H
         end.
  repeat match goal with
         | H : Run stepPullImage _ _ _ = _ |- _ => apply preserves_pull in H
         | H : Run stepCreateVM _ _ _ = _ |- _ => apply preserves_createVM in H
         | H : Run stepStartVM _ _ _ = _ |- _ => apply preserves_startVM in H
         | H : Run stepWaitForVM _ _ _ = _ |- _ => apply preserves_wait in H
         | H : Run (If _ _) _ _ _ = _ |- _ => apply preserves_keygen in H
         | H : Run StepConnect _ _ _ = _ |- _ => apply preserves_connect in H
         | H : Run StepProvision _ _ _ = _ |- _ => apply preserves_provision in H
         | H : Run stepStopVM _ _ _ = _ |- _ => apply preserves_stopVM in H
         | H : Run stepCreateImage _ _ _ = _ |- _ =>
             apply createImage_continue in H as [? ?]
         | H : Run stepPushImage _ _ _ = _ |- _ =>
             apply push_continue in H as [? ?]
         | H : Run stepCleanupVM _ _ _ = _ |- _ =>
             apply cleanup_best_effort in H as (_ & ? & ? & _)
         end.
  assert (keeps (startWorld E c) w7) as [Hcfg Hnone].
  { repeat (eapply keeps_trans; [eassumption|]). apply keeps_refl. }
  cbn [startWorld setBag initialWorld config bag] in Hcfg, Hnone.
  rewrite !lookup_insert_ne, lookup_empty in Hnone by discriminate.
  assert (OutputImageName (config w7) = OutputImageName c
          /\ OutputTag (config w7) = OutputTag c
          /\ PushToRegistry (config w7) = PushToRegistry c
          /\ targetImage (config w7) = targetImage c) as (Hn & Ht & Hp & Htarget).
  { rewrite Hcfg. unfold targetImage. cbn. auto. }
  rewrite H11 in Hname, Hpushed. rewrite H0, Hp, Htarget in H10.
  rewrite Hn, Ht in H.
  split; [|split; [|reflexivity]].
  - destruct H10 as [[_ Hb]|[_ Hb]]; rewrite Hb, H in Hname.
    + rewrite lookup_insert_eq in Hname. congruence.
    + rewrite lookup_insert_ne, lookup_insert_eq in Hname by discriminate.
      congruence.
  - destruct H10 as [[Hoff Hb]|[Hon Hb]]; rewrite Hb in Hpushed.
    + rewrite Hoff. rewrite H, lookup_insert_ne, Hnone in Hpushed by discriminate.
      destruct Hpushed as [[_ Hempty]|?]; [|discriminate].
      split; [exact Hempty|]. unfold Artifact_String. rewrite Hempty.
      reflexivity.
    + rewrite Hon. rewrite lookup_insert_eq in Hpushed.
      destruct Hpushed as [[? _]|[= Heq]]; [discriminate|].
      split; [congruence|]. unfold Artifact_String. rewrite <- Heq.
      rewrite bool_decide_eq_false_2 by apply targetImage_nonempty.
      reflexivity.
Qed.

Lemma artifact_of_successful_run_witness :
  exists a w,
    Builder_Run (plainEnv true) 40 (demoConfig true) = Ok (Some a, None) w
    /\ ImageName a = "img" +:+ ":" +:+ "v1"
    /\ PushedImage a = "ghcr.io/acme/img:v1"
    /\ Artifact_String a = "Meda image: img:v1 (pushed to ghcr.io/acme/img:v1)".
Proof.
  assert (exists a w,
            Builder_Run (plainEnv true) 40 (demoConfig true)
            = Ok (Some a, None) w) as (a & w & Hrun).
  { eexists _, _. vm_compute. reflexivity. }
  exists a, w. split; [exact Hrun|].
  destruct (artifact_of_successful_run (plainEnv true) 40 (demoConfig true)
              a w Hrun) as (Hname & [Hpushed Hstring] & _).
  rewrite Hstring, Hname. repeat split; assumption.
Defined.

(** The summary of an artifact names the backend before the image: for the
    image [img:v1] of a build without publishing it is
    [Meda image: img:v1], not [image: img:v1]. *)
Lemma summary_names_the_backend :
  exists a w,
    Builder_Run (plainEnv true) 40 (demoConfig false) = Ok (Some a, None) w
    /\ ImageName a = "img:v1"
    /\ PushedImage a = ""
    /\ Artifact_String a = "Meda image: img:v1"
    /\ Artifact_String a <> "image: " +:+ ImageName a.
Proof.
  eexists _, _.
  split; [vm_compute; reflexivity|].
  split; [vm_compute; reflexivity|].
  split; [vm_compute; reflexivity|].
  split; [vm_compute; reflexivity|].
  vm_compute. discriminate.
Qed.

(** ** Cleanup *)

(** C1: in the build that halts at PublishImage for want of the token,
    after CreateVM, StartVM and SnapshotImage have succeeded, the runner
    ends at the halted step: the build returns the precondition error, and
    the VM that was created and started is never deleted, no [delete]
    command being among the subprocesses started. *)
Theorem halted_build_skips_cleanup :
  exists w,
    Builder_Run (plainEnv false) 40 (demoConfig true)
    = Ok (None, Some tokenMsg) w
    /\ bag w !! StateHalted = Some (VBool true)
    /\ map (fun call => Args (command call)) (calls w)
       = [ ["images"];
           ["run"; "ubuntu:latest"; "--name"; "packer-web-1700000000";
            "--memory"; "1G"; "--cpus"; "2"; "--disk"; "10G"; "--no-start"];
           ["start"; "packer-web-1700000000"];
           ["ip"; "packer-web-1700000000"];
           ["stop"; "packer-web-1700000000"];
           ["create-image"; "img"; "--tag"; "v1"; "--from-vm";
            "packer-web-1700000000"] ]
    /\ timesCalled (deleteVMCmd (config w) "packer-web-1700000000") w = 0.
Proof.
  eexists.
  split; [vm_compute; reflexivity|].
  split; [vm_compute; reflexivity|].
  split; vm_compute; reflexivity.
Qed.

(** The same build with the token set deletes the VM once, as its last
    subprocess. *)
Lemma successful_build_cleans_up :
  exists a w,
    Builder_Run (plainEnv true) 40 (demoConfig true) = Ok (Some a, None) w
    /\ timesCalled (deleteVMCmd (config w) "packer-web-1700000000") w = 1
    /\ last (map command (calls w))
       = Some (deleteVMCmd (config w) "packer-web-1700000000").
Proof.
  eexists _, _.
  split; [vm_compute; reflexivity|].
  split; vm_compute; reflexivity.
Qed.

(** * Further properties of the code *)

(** ** The single-shot steps *)

(** X1: CreateVM starts the one [run] command and is fatal exactly when
    that command returns an error: it then halts with
    [failed to create VM: ERR - OUTPUT] recorded under ["error"]; otherwise
    it continues and leaves the state bag as it was. *)
Theorem createVM_outcome (E : Env) (w : World) (vmName : string) :
  prepared w -> bag w !! "vm_name" = Some (VString vmName) ->
  let c := createVMCmd (config w) vmName in
  let r := execCombined E (length (calls w)) c in
  exists w',
    stepCreateVM_Run E w
    = Ok (match err r with Some _ => ActionHalt | None => ActionContinue end) w'
    /\ calls w' = oneCall w c
    /\ bag w' = match err r with
               | Some e => <["error" := VError ("failed to create VM: " +:+ e
                                                +:+ " - " +:+ output r)]> (bag w)
               | None => bag w
               end.
Proof.
  intros [Hc Hu] Hn c r. subst c r.
  unfold stepCreateVM_Run. unfold_monad.
  rewrite Hc. eval_step. rewrite Hu. eval_step. rewrite Hn. eval_step.
  rewrite runFatal_by_exit_status. cbv zeta. world_simpl.
  destruct (err _); eexists; (split; [reflexivity|]);
    unfold withError, oneCall; world_simpl; auto.
Qed.

Lemma createVM_outcome_witness :
  exists w',
    stepCreateVM_Run (failingEnv "run" "no such image") (demoWorld true)
    = Ok ActionHalt w'
    /\ calls w' = oneCall (demoWorld true)
                    (createVMCmd (demoConfig true) "packer-web-1700000000")
    /\ bag w' = <["error" := VError "failed to create VM: exit status 1 - no such image"]>
                  (bag (demoWorld true)).
Proof.
  apply (createVM_outcome (failingEnv "run" "no such image") (demoWorld true)
           "packer-web-1700000000").
  - split; vm_compute; reflexivity.
  - vm_compute; reflexivity.
Defined.

(** X2: over the REST API the create request carries no user data: in API
    mode the command of CreateVM is the same whatever [user_data_file] is
    set to, while the command line passes a non-empty file on as
    [--user-data FILE] after [--no-start]. *)
Theorem createVM_user_data (c : Config) (vmName file : string) :
  (UseAPI c = true ->
   createVMCmd (setUserDataFile c file) vmName = createVMCmd c vmName)
  /\ (UseAPI c = false -> file <> "" ->
      Args (createVMCmd (setUserDataFile c file) vmName)
      = Args (createVMCmd (setUserDataFile c "") vmName)
        ++ ["--user-data"; file]
      /\ last (Args (createVMCmd (setUserDataFile c "") vmName))
         = Some "--no-start").
Proof.
  split.
  - intros Hapi. unfold createVMCmd, medaCmd. cbn [UseAPI setUserDataFile].
    rewrite Hapi. reflexivity.
  - intros Hcli Hfile. unfold createVMCmd, medaCmd.
    cbn [UseAPI MedaBinary UserDataFile BaseImage Memory CPUs DiskSize
         setUserDataFile].
    rewrite Hcli, (bool_decide_eq_false_2 (file = "")) by exact Hfile.
    rewrite (bool_decide_eq_true_2 ("" = "")) by reflexivity.
    case_bool_decide; cbn [Args]; split; reflexivity.
Qed.

Lemma createVM_user_data_witness :
  createVMCmd (setUserDataFile
                 (Build_Config demoComm "meda" "127.0.0.1" 7777 true "web"
                    "ubuntu:latest" "1G" 2 "10G" "" "img" "v1" "ghcr.io"
                    "acme" true false)
                 "cloud-init.yaml") "vm"
  = createVMCmd (Build_Config demoComm "meda" "127.0.0.1" 7777 true "web"
                   "ubuntu:latest" "1G" 2 "10G" "" "img" "v1" "ghcr.io"
                   "acme" true false) "vm".
Proof.
  apply (proj1 (createVM_user_data
                  (Build_Config demoComm "meda" "127.0.0.1" 7777 true "web"
                     "ubuntu:latest" "1G" 2 "10G" "" "img" "v1" "ghcr.io"
                     "acme" true false) "vm" "cloud-init.yaml")).
  reflexivity.
Defined.

(** X3: StartVM starts the one [start] command and is fatal exactly when it
    returns an error, recording [failed to start VM: ERR - OUTPUT]; a VM
    that started leaves the state bag as it was. *)
Theorem startVM_outcome (E : Env) (w : World) (vmName : string) :
  prepared w -> bag w !! "vm_name" = Some (VString vmName) ->
  let c := startVMCmd (config w) vmName in
  let r := execCombined E (length (calls w)) c in
  exists w',
    stepStartVM_Run E w
    = Ok (match err r with Some _ => ActionHalt | None => ActionContinue end) w'
    /\ calls w' = oneCall w c
    /\ bag w' = match err r with
               | Some e => <["error" := VError ("failed to start VM: " +:+ e
                                                +:+ " - " +:+ output r)]> (bag w)
               | None => bag w
               end.
Proof.
  intros [Hc Hu] Hn c r. subst c r.
  unfold stepStartVM_Run. unfold_monad.
  rewrite Hc. eval_step. rewrite Hu. eval_step. rewrite Hn. eval_step.
  rewrite runFatal_by_exit_status. cbv zeta. world_simpl.
  destruct (err _); eexists; (split; [reflexivity|]);
    unfold withError, oneCall; world_simpl; auto.
Qed.

Lemma startVM_outcome_witness :
  exists w',
    stepStartVM_Run (plainEnv true) (demoWorld true) = Ok ActionContinue w'
    /\ calls w' = oneCall (demoWorld true)
                    (startVMCmd (demoConfig true) "packer-web-1700000000")
    /\ bag w' = bag (demoWorld true).
Proof.
  apply (startVM_outcome (plainEnv true) (demoWorld true)
           "packer-web-1700000000").
  - split; vm_compute; reflexivity.
  - vm_compute; reflexivity.
Defined.

(** X4: StopVM is best effort: it starts the one [stop] command and always
    continues; a failure of the command goes to the log as a warning and
    nowhere else, the state bag and the UI's error channel staying as they
    were. *)
Theorem stopVM_never_fatal (E : Env) (w : World) (vmName : string) :
  prepared w -> bag w !! "vm_name" = Some (VString vmName) ->
  let c := stopVMCmd (config w) vmName in
  let r := execCombined E (length (calls w)) c in
  exists w',
    stepStopVM_Run E w = Ok ActionContinue w'
    /\ calls w' = oneCall w c
    /\ bag w' = bag w
    /\ logs w' = logs w
                 ++ match err r with
                    | Some e => ["Warning: failed to stop VM: " +:+ e
                                 +:+ " - " +:+ output r]
                    | None => []
                    end
    /\ Forall (fun m => match m with Error _ => False | Say _ => True end)
              (drop (length (ui w)) (ui w')).
Proof.
  intros [Hc Hu] Hn c r. subst c r.
  unfold stepStopVM_Run. unfold_monad.
  rewrite Hc. eval_step. rewrite Hu. eval_step. rewrite Hn. eval_step.
  destruct (err _); eval_step; eexists; (split; [reflexivity|]);
    unfold oneCall; world_simpl;
    rewrite ?app_nil_r, ?drop_app_length, <- ?app_assoc, ?drop_app_length;
    repeat split; repeat constructor.
Qed.

Lemma stopVM_never_fatal_witness :
  exists w',
    stepStopVM_Run (failingEnv "stop" "not running") (demoWorld true)
    = Ok ActionContinue w'
    /\ calls w' = oneCall (demoWorld true)
                    (stopVMCmd (demoConfig true) "packer-web-1700000000")
    /\ bag w' = bag (demoWorld true)
    /\ logs w' = ["Warning: failed to stop VM: exit status 1 - not running"]
    /\ Forall (fun m => match m with Error _ => False | Say _ => True end)
              (drop (length (ui (demoWorld true))) (ui w')).
Proof.
  apply (stopVM_never_fatal (failingEnv "stop" "not running") (demoWorld true)
           "packer-web-1700000000").
  - split; vm_compute; reflexivity.
  - vm_compute; reflexivity.
Defined.

(** X5: SnapshotImage starts the one [create-image] command.  When it
    succeeds the step continues and has stored
    [output_image_name:output_tag] as ["image_name"], nothing else in the
    state bag changing; when it fails the step halts with
    [failed to create image: ERR - OUTPUT] recorded and the image name is
    not written. *)
Theorem createImage_outcome (E : Env) (w : World) (vmName : string) :
  prepared w -> bag w !! "vm_name" = Some (VString vmName) ->
  let c := createImageCmd (config w) vmName in
  let r := execCombined E (length (calls w)) c in
  exists w',
    stepCreateImage_Run E w
    = Ok (match err r with Some _ => ActionHalt | None => ActionContinue end) w'
    /\ calls w' = oneCall w c
    /\ bag w' = match err r with
               | Some e => <["error" := VError ("failed to create image: " +:+ e
                                                +:+ " - " +:+ output r)]> (bag w)
               | None => <["image_name" := VString (OutputImageName (config w)
                                                    +:+ ":" +:+ OutputTag (config w))]>
                           (bag w)
               end
    /\ (err r <> None -> bag w' !! "image_name" = bag w !! "image_name").
Proof.
  intros [Hc Hu] Hn c r. subst c r.
  unfold stepCreateImage_Run. unfold_monad.
  rewrite Hc. eval_step. rewrite Hu. eval_step. rewrite Hn. eval_step.
  rewrite runFatal_by_exit_status. cbv zeta. world_simpl.
  destruct (err _); eexists; (split; [reflexivity|]);
    unfold withError, oneCall; world_simpl.
  - repeat split. intros _. apply lookup_insert_ne. discriminate.
  - repeat split. intros H. congruence.
Qed.

Lemma createImage_outcome_witness :
  exists w',
    stepCreateImage_Run (plainEnv true) (demoWorld true) = Ok ActionContinue w'
    /\ calls w' = oneCall (demoWorld true)
                    (createImageCmd (demoConfig true) "packer-web-1700000000")
    /\ bag w' = <["image_name" := VString "img:v1"]> (bag (demoWorld true))
    /\ (@None string <> None ->
        bag w' !! "image_name" = bag (demoWorld true) !! "image_name").
Proof.
  apply (createImage_outcome (plainEnv true) (demoWorld true)
           "packer-web-1700000000").
  - split; vm_compute; reflexivity.
  - vm_compute; reflexivity.
Defined.

(** X6: CleanupVM starts the one [delete] command for the VM named in the
    state bag and always continues; a failed delete goes to the log as a
    warning, and the state bag is left as it was, so an error recorded
    before is still the one recorded after. *)
Theorem cleanupVM_never_fatal (E : Env) (w : World) (vmName : string) :
  prepared w -> bag w !! "vm_name" = Some (VString vmName) ->
  let c := deleteVMCmd (config w) vmName in
  let r := execCombined E (length (calls w)) c in
  exists w',
    stepCleanupVM_Run E w = Ok ActionContinue w'
    /\ calls w' = oneCall w c
    /\ bag w' = bag w
    /\ logs w' = logs w
                 ++ match err r with
                    | Some e => ["Warning: failed to delete VM: " +:+ e
                                 +:+ " - " +:+ output r]
                    | None => []
                    end.
Proof.
  intros [Hc Hu] Hn c r. subst c r.
  unfold stepCleanupVM_Run. unfold_monad.
  rewrite Hc. eval_step. rewrite Hu. eval_step. rewrite Hn. eval_step.
  destruct (err _); eval_step; eexists; (split; [reflexivity|]);
    unfold oneCall; world_simpl; rewrite ?app_nil_r; auto.
Qed.

Lemma cleanupVM_never_fatal_witness :
  exists w',
    stepCleanupVM_Run (failingEnv "delete" "no such VM") failedWorld
    = Ok ActionContinue w'
    /\ calls w' = oneCall failedWorld
                    (deleteVMCmd (demoConfig true) "packer-web-1700000000")
    /\ bag w' = bag failedWorld
    /\ logs w' = ["Warning: failed to delete VM: exit status 1 - no such VM"].
Proof.
  apply (cleanupVM_never_fatal (failingEnv "delete" "no such VM") failedWorld
           "packer-web-1700000000").
  - split; vm_compute; reflexivity.
  - vm_compute; reflexivity.
Defined.

(** ** Pull and push *)

Lemma reportsAbsent_not_exists E w :
  reportsAbsent E w ->
  bool_decide (err (execCombined E (length (calls w)) (imagesCmd (config w))) = None)
  && Contains (output (execCombined E (length (calls w)) (imagesCmd (config w))))
              (BaseImage (config w)) = false.
Proof.
  intros [Herr|Hout].
  - rewrite bool_decide_eq_false_2 by exact Herr. reflexivity.
  - rewrite Hout. apply andb_false_r.
Qed.

(** X7: when the existence check does not find the base image and the pull
    subprocess is started, PullOrCreateBaseImage has started the check and
    the pull and nothing else; it halts exactly when [Wait] returns an
    error or the captured standard error contains [unauthorized] or
    [denied] (no other text counts, [authentication required] included),
    with the error recorded; otherwise it continues and leaves the state
    bag as it was. *)
Theorem pull_when_absent (E : Env) (w : World) :
  prepared w -> reportsAbsent E w ->
  let r := execPiped E (S (length (calls w))) (pullCmd (config w)) in
  let text := captured (stderrLines r) in
  let failed := pullFailed (waitErr r) text in
  started r ->
  exists w',
    stepPullImage_Run E w
    = Ok (if failed then ActionHalt else ActionContinue) w'
    /\ calls w' = pullCalls E w
    /\ bag w' =
       (if failed
        then <["error" := VError (Errorf0 (failureMsg
                 ("failed to pull base image '" +:+ BaseImage (config w) +:+ "'")
                 (waitErr r) text))]> (bag w)
        else bag w)
    /\ (failed = true <->
        waitErr r <> None \/ Contains text "unauthorized" = true
        \/ Contains text "denied" = true).
Proof.
  intros [Hc Hu] Habsent r text failed Hstarted. subst r text failed.
  unfold stepPullImage_Run. unfold_monad.
  rewrite Hc. eval_step. rewrite Hu. eval_step.
  rewrite (reportsAbsent_not_exists E w Habsent). cbn [negb]. eval_step.
  rewrite runPiped_started;
    world_simpl; rewrite ?length_app, ?Nat.add_1_r; [|exact Hstarted].
  cbv zeta.
  match goal with
  | |- context [afterPiped ?r ?c ?w0] =>
      destruct (afterPiped_frame r c w0) as (Hb & Hcalls & _)
  end.
  world_simpl.
  pose proof (pullFailed_iff
                (waitErr (execPiped E (S (length (calls w))) (pullCmd (config w))))
                (captured (stderrLines
                   (execPiped E (S (length (calls w))) (pullCmd (config w))))))
    as Hiff.
  destruct (pullFailed _ _).
  - eexists. split; [reflexivity|]. unfold withError. world_simpl.
    rewrite Hb, Hcalls. unfold pullCalls. rewrite <- app_assoc.
    split; [reflexivity|]. split; [reflexivity|]. exact Hiff.
  - eval_step. eexists. split; [reflexivity|]. world_simpl.
    rewrite Hb, Hcalls. unfold pullCalls. rewrite <- app_assoc.
    split; [reflexivity|]. split; [reflexivity|]. exact Hiff.
Qed.

Lemma pull_when_absent_witness :
  exists w',
    stepPullImage_Run
      (emptyRegistryEnv (quietPiped ["authentication required"] None))
      (demoWorld true)
    = Ok ActionContinue w'
    /\ calls w' = pullCalls
                    (emptyRegistryEnv (quietPiped ["authentication required"] None))
                    (demoWorld true)
    /\ bag w' = bag (demoWorld true)
    /\ (false = true <->
        @None string <> None
        \/ Contains (captured ["authentication required"]) "unauthorized" = true
        \/ Contains (captured ["authentication required"]) "denied" = true).
Proof.
  apply (pull_when_absent
           (emptyRegistryEnv (quietPiped ["authentication required"] None))
           (demoWorld true)).
  - split; vm_compute; reflexivity.
  - right. vm_compute. reflexivity.
  - repeat split.
Defined.

(** X8: when a pipe of the pull subprocess cannot be created, the step
    halts without starting the pull and without recording any error; when
    the subprocess cannot be started, the step halts with
    [failed to start pull command: ERR] recorded. *)
Theorem pull_not_started (E : Env) (w : World) :
  prepared w -> reportsAbsent E w ->
  let r := execPiped E (S (length (calls w))) (pullCmd (config w)) in
  (is_Some (stdoutPipeErr r) \/ is_Some (stderrPipeErr r) ->
   exists w',
     stepPullImage_Run E w = Ok ActionHalt w'
     /\ calls w' = oneCall w (imagesCmd (config w))
     /\ bag w' = bag w)
  /\ (forall e,
        stdoutPipeErr r = None -> stderrPipeErr r = None ->
        startErr r = Some e ->
        exists w',
          stepPullImage_Run E w = Ok ActionHalt w'
          /\ calls w' = pullCalls E w
          /\ bag w' = <["error" := VError ("failed to start pull command: " +:+ e)]>
                        (bag w)).
Proof.
  intros [Hc Hu] Habsent r. subst r. split.
  - intros Hpipe.
    unfold stepPullImage_Run. unfold_monad.
    rewrite Hc. eval_step. rewrite Hu. eval_step.
    rewrite (reportsAbsent_not_exists E w Habsent). cbn [negb]. eval_step.
    unfold runPiped. unfold_monad. eval_step.
    rewrite ?length_app, ?Nat.add_1_r. cbn [length].
    destruct (stdoutPipeErr _) eqn:H1.
    + rewrite bool_decide_eq_true_2 by eauto.
      eexists. split; [reflexivity|]. world_simpl. auto.
    + rewrite bool_decide_eq_false_2 by (intros [? ?]; discriminate).
      destruct Hpipe as [[? ?]|Hpipe]; [discriminate|].
      rewrite bool_decide_eq_true_2 by exact Hpipe.
      eexists. split; [reflexivity|]. world_simpl. auto.
  - intros e H1 H2 H3.
    unfold stepPullImage_Run. unfold_monad.
    rewrite Hc. eval_step. rewrite Hu. eval_step.
    rewrite (reportsAbsent_not_exists E w Habsent). cbn [negb]. eval_step.
    rewrite (runPiped_not_started E _ _ _ _ _ _ e);
      world_simpl; rewrite ?length_app, ?Nat.add_1_r; try assumption.
    eexists. split; [reflexivity|]. unfold withError, pullCalls. world_simpl.
    rewrite <- app_assoc. auto.
Qed.

Lemma pull_not_started_witness :
  exists w',
    stepPullImage_Run
      (emptyRegistryEnv
         {| stdoutPipeErr := Some "too many open files"; stderrPipeErr := None;
            startErr := None; stdoutLines := []; stderrLines := [];
            waitErr := None; tookPiped := 0 |})
      (demoWorld true)
    = Ok ActionHalt w'
    /\ calls w' = oneCall (demoWorld true) (imagesCmd (demoConfig true))
    /\ bag w' = bag (demoWorld true).
Proof.
  apply (proj1 (pull_not_started
                  (emptyRegistryEnv
                     {| stdoutPipeErr := Some "too many open files";
                        stderrPipeErr := None; startErr := None;
                        stdoutLines := []; stderrLines := [];
                        waitErr := None; tookPiped := 0 |})
                  (demoWorld true)
                  ltac:(split; vm_compute; reflexivity)
                  ltac:(right; vm_compute; reflexivity))).
  left. eexists. reflexivity.
Defined.

(** X9: with pushing enabled and the subprocess started, PublishImage
    starts the one [push] command; it needs the token only when the
    registry names [ghcr.io]; it halts exactly when [Wait] returns an error
    or the captured standard error contains [unauthorized], [denied] or
    [authentication required], with the error recorded and no published
    image written; otherwise it continues with the target coordinate stored
    as ["pushed_image"]. *)
Theorem push_when_enabled (E : Env) (w : World) (name : string) :
  prepared w -> bag w !! "image_name" = Some (VString name) ->
  PushToRegistry (config w) = true ->
  (Contains (Registry (config w)) "ghcr.io" = true ->
   Getenv E "GITHUB_TOKEN" <> "") ->
  let c := pushCmd (config w) name in
  let r := execPiped E (length (calls w)) c in
  let text := captured (stderrLines r) in
  let failed := pushFailed (waitErr r) text in
  started r ->
  exists w',
    stepPushImage_Run E w
    = Ok (if failed then ActionHalt else ActionContinue) w'
    /\ calls w' = oneCall w c
    /\ bag w' =
       (if failed
        then <["error" := VError (Errorf0 (failureMsg "failed to push image"
                 (waitErr r) text))]> (bag w)
        else <["pushed_image" := VString (targetImage (config w))]> (bag w))
    /\ (failed = true <->
        waitErr r <> None \/ Contains text "unauthorized" = true
        \/ Contains text "denied" = true
        \/ Contains text "authentication required" = true).
Proof.
  intros [Hc Hu] Hi Hp Htoken c r text failed Hstarted. subst c r text failed.
  unfold stepPushImage_Run. unfold_monad.
  rewrite Hc. eval_step. rewrite Hu. eval_step. rewrite Hi. eval_step.
  rewrite Hp. cbn [negb]. eval_step.
  pose proof (pushFailed_iff
                (waitErr (execPiped E (length (calls w)) (pushCmd (config w) name)))
                (captured (stderrLines
                   (execPiped E (length (calls w)) (pushCmd (config w) name)))))
    as Hiff.
  destruct (Contains (Registry (config w)) "ghcr.io") eqn:Hreg;
    [rewrite bool_decide_eq_false_2 by (apply Htoken; reflexivity)|];
    eval_step;
    (rewrite runPiped_started by (world_simpl; exact Hstarted));
    cbv zeta; world_simpl;
    match goal with
    | |- context [afterPiped ?r ?c ?w0] =>
        destruct (afterPiped_frame r c w0) as (Hb & Hcalls & _)
    end;
    world_simpl;
    (destruct (pushFailed _ _);
     eexists; (split; [reflexivity|]); unfold withError, oneCall; world_simpl;
     rewrite Hb, Hcalls;
     (split; [reflexivity|]); (split; [reflexivity|]); exact Hiff).
Qed.

Lemma push_when_enabled_witness :
  exists w',
    stepPushImage_Run (plainEnv false) otherRegistryWorld = Ok ActionContinue w'
    /\ calls w' = oneCall otherRegistryWorld
                    {| Path := "meda";
                       Args := ["push"; "img"; "registry.example.org/img:v1";
                                "--registry"; "registry.example.org"; "--dry-run"];
                       Dir := "" |}
    /\ bag w' = <["pushed_image" := VString "registry.example.org/img:v1"]>
                  (bag otherRegistryWorld)
    /\ (false = true <->
        @None string <> None \/ Contains (captured []) "unauthorized" = true
        \/ Contains (captured []) "denied" = true
        \/ Contains (captured []) "authentication required" = true).
Proof.
  apply (push_when_enabled (plainEnv false) otherRegistryWorld "img:v1").
  - split; vm_compute; reflexivity.
  - vm_compute; reflexivity.
  - reflexivity.
  - intros H. vm_compute in H. discriminate H.
  - repeat split.
Defined.

(** ** Address extraction *)

Lemma looksLikeIP_empty : looksLikeIP "" = false.
Proof. reflexivity. Qed.

Lemma scanLines_empty lines :
  scanLines lines = "" <->
  (forall line, line ∈ lines -> looksLikeIP (TrimSpace line) = false).
Proof.
  split; [|apply scanLines_rejected].
  induction lines as [|l lines IH]; intros H line Hin.
  - apply elem_of_nil in Hin. destruct Hin.
  - simpl in H. destruct (looksLikeIP (TrimSpace l)) eqn:Hl.
    + rewrite H in Hl. discriminate Hl.
    + apply elem_of_cons in Hin as [->|Hin]; [exact Hl|apply IH; assumption].
Qed.

Lemma scanLines_first lines ip :
  ip <> "" ->
  scanLines lines = ip <->
  exists pre line post,
    lines = pre ++ line :: post
    /\ (forall l, l ∈ pre -> looksLikeIP (TrimSpace l) = false)
    /\ TrimSpace line = ip /\ looksLikeIP ip = true.
Proof.
  intros Hip. induction lines as [|l lines IH].
  - split; [intros H; symmetry in H; contradiction|].
    intros (pre & line & post & H & _). destruct pre; discriminate H.
  - simpl. destruct (looksLikeIP (TrimSpace l)) eqn:Hl.
    + split.
      * intros <-. exists [], l, lines. split; [reflexivity|].
        split; [intros ? Hin; apply elem_of_nil in Hin; destruct Hin|auto].
      * intros (pre & line & post & H & Hpre & Hline & _).
        destruct pre as [|l' pre].
        -- injection H as -> _. exact Hline.
        -- injection H as -> _.
           rewrite (Hpre l') in Hl by apply list_elem_of_here. discriminate Hl.
    + rewrite IH. split.
      * intros (pre & line & post & -> & Hpre & Hline & Hok).
        exists (l :: pre), line, post. split; [reflexivity|].
        split; [|auto].
        intros l' Hin. apply elem_of_cons in Hin as [->|Hin]; auto.
      * intros (pre & line & post & H & Hpre & Hline & Hok).
        destruct pre as [|l' pre].
        -- injection H as -> _. rewrite Hline, Hok in Hl. discriminate Hl.
        -- injection H as -> ->. exists pre, line, post.
           split; [reflexivity|]. split; [|auto].
           intros l Hin. apply Hpre, list_elem_of_further, Hin.
Qed.

(** X10: the address extracted from an output of the [ip] command is the
    first line, in the order of the output, whose trimmed text passes the
    address test, trimmed; it is empty exactly when no line passes; and it
    is never [null], so that the comparison with [null] that follows the
    extraction never decides anything. *)
Theorem extractIP_first_accepted (out : string) :
  (extractIP out = "" <-> rejected out)
  /\ extractIP out <> "null"
  /\ (forall ip, ip <> "" ->
        extractIP out = ip <->
        exists pre line post,
          SplitByte out newline = pre ++ line :: post
          /\ (forall l, l ∈ pre -> looksLikeIP (TrimSpace l) = false)
          /\ TrimSpace line = ip /\ looksLikeIP ip = true).
Proof.
  unfold extractIP, rejected. split; [apply scanLines_empty|]. split.
  - intros H. destruct (scanLines_accepts (SplitByte out newline)) as [H'|H'];
      rewrite H in H'; discriminate H'.
  - intros ip Hip. apply scanLines_first, Hip.
Qed.

Lemma digits_of_uint_acc d : forall acc : positive,
  digits (Z.pos acc) (DecimalString.NilEmpty.string_of_uint d)
  = Some (Z.pos (Pos.of_uint_acc d acc)).
Proof.
  induction d as [|d IH|d IH|d IH|d IH|d IH|d IH|d IH|d IH|d IH|d IH];
    intros acc; [reflexivity|..];
    cbn [DecimalString.NilEmpty.string_of_uint digits Pos.of_uint_acc];
    (match goal with
     | |- (if isDigit ?c then _ else _) = _ =>
         change (isDigit c) with true; cbv iota
     end);
    rewrite <- IH; f_equal; unfold digitVal;
    (match goal with
     | |- context [Z.of_nat (nat_of_ascii ?c)] =>
         let v := eval vm_compute in (Z.of_nat (nat_of_ascii c)) in
         change (Z.of_nat (nat_of_ascii c)) with v
     end);
    lia.
Qed.

Lemma digits_of_uint d :
  digits 0 (DecimalString.NilEmpty.string_of_uint d)
  = Some (Z.of_N (Pos.of_uint d)).
Proof.
  induction d as [|d IH|d IH|d IH|d IH|d IH|d IH|d IH|d IH|d IH|d IH];
    [reflexivity|exact IH|..];
    cbn [DecimalString.NilEmpty.string_of_uint digits Pos.of_uint];
    (match goal with
     | |- (if isDigit ?c then _ else _) = _ =>
         change (isDigit c) with true; cbv iota
     end);
    cbn [Z.of_N]; rewrite <- digits_of_uint_acc; f_equal.
Qed.

Lemma digits_to_uint p :
  digits 0 (DecimalString.NilEmpty.string_of_uint (Pos.to_uint p))
  = Some (Z.pos p).
Proof. rewrite digits_of_uint, DecimalPos.Unsigned.of_to. reflexivity. Qed.

Lemma itoa_pos p :
  itoa (Z.pos p) = DecimalString.NilEmpty.string_of_uint (Pos.to_uint p).
Proof.
  unfold itoa. cbn [Z.to_int DecimalString.NilZero.string_of_int].
  unfold DecimalString.NilZero.string_of_uint.
  pose proof (DecimalPos.Unsigned.to_uint_nonnil p).
  destruct (Pos.to_uint p); [contradiction|reflexivity..].
Qed.

Lemma itoa_neg p : itoa (Z.neg p) = String "-" (itoa (Z.pos p)).
Proof.
  rewrite itoa_pos. unfold itoa.
  cbn [Z.to_int DecimalString.NilZero.string_of_int].
  unfold DecimalString.NilZero.string_of_uint.
  pose proof (DecimalPos.Unsigned.to_uint_nonnil p).
  destruct (Pos.to_uint p); [contradiction|reflexivity..].
Qed.

(** The text of a non-negative number is its digits. *)
Lemma digits_itoa (n : Z) : (0 <= n)%Z -> digits 0 (itoa n) = Some n.
Proof.
  destruct n as [|p|p]; intros Hn; [reflexivity| |lia].
  rewrite itoa_pos. apply digits_to_uint.
Qed.

Lemma digits_first acc c s v :
  digits acc (String c s) = Some v -> isDigit c = true.
Proof. simpl. destruct (isDigit c); [reflexivity|discriminate]. Qed.

(** [strconv.Atoi] reads back what [%d] prints. *)
Lemma Atoi_itoa (n : Z) :
  (minInt <= n <= maxInt)%Z -> Atoi (itoa n) = Some n.
Proof.
  intros Hn. destruct n as [|p|p]; [reflexivity| |].
  - pose proof (digits_itoa (Z.pos p) ltac:(lia)) as Hd.
    destruct (itoa (Z.pos p)) as [|c s] eqn:Hs; [discriminate Hd|].
    pose proof (digits_first _ _ _ _ Hd) as Hc.
    unfold Atoi.
    assert (Ascii.eqb c "-" = false) as ->
      by (destruct (Ascii.eqb_spec c "-") as [->|]; [discriminate Hc|reflexivity]).
    assert (Ascii.eqb c "+" = false) as ->
      by (destruct (Ascii.eqb_spec c "+") as [->|]; [discriminate Hc|reflexivity]).
    cbn [orb]. rewrite Hd.
    destruct (Z.leb_spec minInt (Z.pos p)); [|lia].
    destruct (Z.leb_spec (Z.pos p) maxInt); [reflexivity|lia].
  - rewrite itoa_neg.
    pose proof (digits_itoa (Z.pos p) ltac:(lia)) as Hd.
    unfold Atoi. change (Ascii.eqb "-" "-") with true. cbn [orb].
    destruct (itoa (Z.pos p)) as [|c s] eqn:Hs; [discriminate Hd|].
    rewrite Hd. change (- Z.pos p)%Z with (Z.neg p).
    destruct (Z.leb_spec minInt (Z.neg p)); [|lia].
    destruct (Z.leb_spec (Z.neg p) maxInt); [reflexivity|lia].
Qed.

(** X11: the address test bounds no segment: any four numbers of the
    range of [int], written in decimal and joined by dots, pass it, also
    when a number is negative or above 255. *)
Theorem address_test_unbounded (a b c d : Z) :
  (minInt <= a <= maxInt)%Z -> (minInt <= b <= maxInt)%Z ->
  (minInt <= c <= maxInt)%Z -> (minInt <= d <= maxInt)%Z ->
  looksLikeIP (itoa a +:+ "." +:+ itoa b +:+ "." +:+ itoa c +:+ "." +:+ itoa d)
  = true.
Proof.
  intros Ha Hb Hc Hd. apply looksLikeIP_segments.
  exists (itoa a), (itoa b), (itoa c), (itoa d).
  split; [reflexivity|].
  unfold parseable. rewrite !Atoi_itoa by assumption. eauto.
Qed.

Lemma address_test_unbounded_witness : looksLikeIP "999.-1.256.0" = true.
Proof.
  apply (address_test_unbounded 999 (-1) 256 0);
    unfold minInt, maxInt; lia.
Defined.

(** ** The generated VM name *)

Lemma last_dash (a b d1 d2 : string) :
  CountByte d1 "-" = 0 -> CountByte d2 "-" = 0 ->
  a +:+ "-" +:+ d1 = b +:+ "-" +:+ d2 -> a = b /\ d1 = d2.
Proof.
  intros H1 H2. revert b. induction a as [|c a IH]; intros [|c' b] H.
  - rewrite !app_nil_l in H. injection H as H. auto.
  - rewrite app_nil_l, !app_cons, !app_nil_l in H. injection H as _ H.
    rewrite H, CountByte_app in H1. simpl in H1. lia.
  - rewrite app_nil_l, !app_cons, !app_nil_l in H. injection H as _ H.
    rewrite <- H, CountByte_app in H2. simpl in H2. lia.
  - rewrite !app_cons in H. injection H as -> H.
    destruct (IH b H) as [-> ->]. auto.
Qed.

(** X12: for times not before 1970, the generated VM name determines the
    configured name and the second: two builds get the same VM name only
    with the same configured name in the same second.  Before 1970 the
    sign of the second runs into the name. *)
Theorem generateVMName_injective (n1 n2 : string) (s1 s2 : Z) :
  (0 <= s1)%Z -> (0 <= s2)%Z ->
  generateVMName n1 s1 = generateVMName n2 s2 ->
  n1 = n2 /\ s1 = s2.
Proof.
  intros H1 H2 H. unfold generateVMName in H.
  apply String.app_inj in H. fold String.append in H.
  apply last_dash in H.
  - destruct H as [-> H]. apply itoa_inj in H. auto.
  - eapply digits_only; [apply digits_itoa, H1|reflexivity].
  - eapply digits_only; [apply digits_itoa, H2|reflexivity].
Qed.

Lemma generateVMName_injective_witness :
  "web" = "web" /\ 1700000000%Z = 1700000000%Z.
Proof.
  apply (generateVMName_injective "web" "web" 1700000000 1700000000);
    [lia|lia|reflexivity].
Defined.

Lemma generateVMName_before_1970 :
  generateVMName "a" (-5) = generateVMName "a-" 5.
Proof. reflexivity. Qed.

(** ** The wait for the address, whatever the backend does *)

Section Wait.

Variable E : Env.
Variable vmName : string.
Variable t0 : Z.

Lemma tick_index_ge (x k : Z) :
  (k * tickInterval <= x)%Z -> (k <= x / tickInterval)%Z.
Proof.
  intros H. apply Z.div_le_lower_bound; [apply tickInterval_pos|lia].
Qed.

Lemma tick_index_le (x k : Z) :
  (k <= x / tickInterval)%Z -> (k * tickInterval <= x)%Z.
Proof.
  intros H. pose proof tickInterval_pos as Hpos.
  pose proof (Z.mul_div_le x tickInterval Hpos). nia.
Qed.

Lemma tick_index_lt (x k : Z) :
  (x < k * tickInterval)%Z -> (x / tickInterval < k)%Z.
Proof.
  intros H. apply Z.div_lt_upper_bound; [apply tickInterval_pos|lia].
Qed.

Lemma tick_index_mono (x y : Z) :
  (x <= y)%Z -> (x / tickInterval <= y / tickInterval)%Z.
Proof. intros H. apply Z.div_le_mono; [apply tickInterval_pos|exact H]. Qed.

Lemma tick_index_next (x : Z) :
  ((t0 + (x / tickInterval + 1) * tickInterval - t0) / tickInterval
   = x / tickInterval + 1)%Z.
Proof.
  replace (t0 + (x / tickInterval + 1) * tickInterval - t0)%Z
    with ((x / tickInterval + 1) * tickInterval)%Z by lia.
  apply Z.div_mul. pose proof tickInterval_pos. lia.
Qed.

(** The timer is never taken before the deadline. *)
Lemma select_timeout_late pick now_ buffered at_ :
  select pick t0 now_ buffered = (CaseTimeout, at_) ->
  (t0 + waitTimeout <= at_)%Z.
Proof.
  unfold select. intros H.
  destruct buffered.
  - destruct (Z.leb_spec (t0 + waitTimeout) now_);
      [destruct pick|]; inversion H; subst; lia.
  - destruct (Z.leb_spec (t0 + waitTimeout) now_); [inversion H; lia|].
    destruct (Z.ltb_spec
                (t0 + ((now_ - t0) / tickInterval + 1) * tickInterval)
                (t0 + waitTimeout)); [discriminate H|].
    destruct (Z.ltb_spec (t0 + waitTimeout)
                (t0 + ((now_ - t0) / tickInterval + 1) * tickInterval));
      [|destruct pick]; inversion H; subst; lia.
Qed.

(** A tick is taken no earlier than it is sent. *)
Lemma select_tick_time pick now_ buffered at_ (k : Z) :
  select pick t0 now_ buffered = (CaseTick, at_) ->
  (t0 + k * tickInterval <= now_)%Z ->
  (buffered = true -> t0 + (k + 1) * tickInterval <= now_)%Z ->
  (t0 + (k + 1) * tickInterval <= at_)%Z /\ (now_ <= at_)%Z.
Proof.
  unfold select. intros H Hk Hb. pose proof tickInterval_pos as Hpos.
  destruct buffered.
  - specialize (Hb eq_refl).
    destruct (Z.leb_spec (t0 + waitTimeout) now_);
      [destruct pick|]; inversion H; subst; lia.
  - destruct (Z.leb_spec (t0 + waitTimeout) now_); [discriminate H|].
    pose proof (tick_index_ge (now_ - t0) k ltac:(lia)) as Hge.
    pose proof (Z.mod_pos_bound (now_ - t0) tickInterval Hpos) as Hmod.
    pose proof (Z.div_mod (now_ - t0) tickInterval ltac:(lia)) as Hdiv.
    assert (t0 + (k + 1) * tickInterval
            <= t0 + ((now_ - t0) / tickInterval + 1) * tickInterval)%Z
      by nia.
    assert (now_ <= t0 + ((now_ - t0) / tickInterval + 1) * tickInterval)%Z
      by nia.
    destruct (Z.ltb_spec
                (t0 + ((now_ - t0) / tickInterval + 1) * tickInterval)
                (t0 + waitTimeout)); [inversion H; subst; lia|].
    destruct (Z.ltb_spec (t0 + waitTimeout)
                (t0 + ((now_ - t0) / tickInterval + 1) * tickInterval));
      [discriminate H|].
    destruct pick; inversion H; subst; lia.
Qed.

(** A tick that waits when a poll returns fell due during the poll. *)
Lemma tickDue_later (k at_ to : Z) :
  (t0 + k * tickInterval <= at_)%Z ->
  tickDue t0 at_ to = true ->
  (t0 + (k + 1) * tickInterval <= to)%Z.
Proof.
  unfold tickDue. intros Hat Hdue. apply Z.ltb_lt in Hdue.
  pose proof (tick_index_ge (at_ - t0) k ltac:(lia)).
  pose proof (tick_index_le (to - t0) (k + 1) ltac:(lia)). lia.
Qed.

(** One round of the loop that takes a tick: the poll yields no address
    and the loop goes on, or it yields one and the step continues. *)
Lemma waitLoop_tick fuel buffered k w at_ :
  select (selectPick E k) t0 (now w) buffered = (CaseTick, at_) ->
  let r := execCombined E (length (calls w)) (ipCmd (config w) vmName) in
  let ip := extractIP (output r) in
  (noAddress r
   /\ waitLoop E (S fuel) vmName t0 buffered k w
      = waitLoop E fuel vmName t0 (tickDue t0 at_ (at_ + Z.of_N (took r)))
          (S k) (afterPoll E vmName at_ w))
  \/ (err r = None /\ looksLikeIP ip = true
      /\ exists w',
           waitLoop E (S fuel) vmName t0 buffered k w = Ok ActionContinue w'
           /\ calls w' = calls w ++ [{| issuedAt := at_;
                                        command := ipCmd (config w) vmName |}]
           /\ bag w' = <["instance_ip" := VString ip]>
                         (<["vm_ip" := VString ip]> (bag w))
           /\ config w' = setSSHHost (config w) ip).
Proof.
  intros Hsel r ip.
  destruct (err r) as [e|] eqn:Herr.
  { left. assert (noAddress r) as Hno by (left; rewrite Herr; discriminate).
    split; [exact Hno|]. apply waitLoop_not_ready; assumption. }
  destruct (scanLines_accepts (SplitByte (output r) newline)) as [Hempty|Hok].
  { left. assert (noAddress r) as Hno
      by (right; unfold rejected; apply scanLines_empty; exact Hempty).
    split; [exact Hno|]. apply waitLoop_not_ready; assumption. }
  right. fold (extractIP (output r)) in Hok. fold ip in Hok.
  split; [reflexivity|]. split; [exact Hok|].
  cbn [waitLoop]. rewrite Hsel. unfold_monad. eval_step.
  fold r. rewrite Herr.
  rewrite (bool_decide_eq_true_2 (@None string = None) eq_refl).
  assert ((0 <? String.length (output r))%nat = true) as ->.
  { destruct (output r) eqn:Hout; [|reflexivity].
    subst ip. try rewrite Hout in Hok. discriminate Hok. }
  cbn [andb]. fold ip.
  rewrite (bool_decide_eq_false_2 (ip = ""))
    by (intros Hip; rewrite Hip in Hok; discriminate Hok).
  rewrite (bool_decide_eq_false_2 (ip = "null"))
    by (intros Hip; rewrite Hip in Hok; discriminate Hok).
  cbn [negb andb]. eval_step.
  eexists. split; [reflexivity|]. world_simpl. auto.
Qed.

Lemma paced_nil c k : paced c t0 k [].
Proof. intros j call H. rewrite lookup_nil in H. discriminate H. Qed.

Lemma paced_cons c k call l :
  command call = c ->
  (t0 + (Z.of_nat k + 1) * tickInterval <= issuedAt call)%Z ->
  paced c t0 (S k) l -> paced c t0 k (call :: l).
Proof.
  intros Hc Ht Hl [|j] call' H.
  - injection H as <-. split; [exact Hc|]. rewrite Nat.add_0_r. exact Ht.
  - destruct (Hl j call' H) as [Hc' Ht']. split; [exact Hc'|].
    replace (Z.of_nat (k + S j)) with (Z.of_nat (S k + j)) by lia. exact Ht'.
Qed.

Lemma waitLoop_safety fuel : forall buffered k w a w',
  (t0 + Z.of_nat k * tickInterval <= now w)%Z ->
  (buffered = true -> t0 + (Z.of_nat k + 1) * tickInterval <= now w)%Z ->
  waitLoop E fuel vmName t0 buffered k w = Ok a w' ->
  exists l,
    calls w' = calls w ++ l
    /\ paced (ipCmd (config w) vmName) t0 k l
    /\ waitOutcome E vmName t0 w a w'.
Proof.
  induction fuel as [|fuel IH]; intros buffered k w a w' Hk Hb H;
    [discriminate H|].
  destruct (select (selectPick E k) t0 (now w) buffered) as [[] at_] eqn:Hsel.
  - rewrite (waitLoop_timeout E vmName t0 fuel buffered k w at_ Hsel) in H.
    injection H as <- <-. exists []. rewrite app_nil_r.
    split; [reflexivity|]. split; [apply paced_nil|].
    unfold withError. cbn [waitOutcome]. world_simpl.
    split; [reflexivity|]. split; [reflexivity|].
    eapply select_timeout_late, Hsel.
  - destruct (select_tick_time _ _ _ _ (Z.of_nat k) Hsel Hk Hb) as [Hat Hnow].
    destruct (waitLoop_tick fuel buffered k w at_ Hsel)
      as [[Hno Hloop]|(Herr & Hok & w1 & Hrun & Hcalls & Hbag & Hcfg)].
    + rewrite Hloop in H.
      destruct (afterPoll_frame E vmName at_ w) as (Hbag & Hcfg & Hcalls & Hnow').
      apply IH in H.
      * destruct H as (l & Hl & Hpaced & Hout).
        eexists (_ :: l). rewrite Hl, Hcalls, <- app_assoc.
        split; [reflexivity|]. split.
        -- apply paced_cons; [reflexivity|exact Hat|].
           rewrite <- Hcfg. exact Hpaced.
        -- destruct a; cbn [waitOutcome] in *;
             rewrite Hbag, Hcfg in Hout; exact Hout.
      * rewrite Hnow'. lia.
      * intros Hdue. rewrite Hnow'.
        replace (Z.of_nat (S k) + 1)%Z with ((Z.of_nat k + 1) + 1)%Z by lia.
        eapply tickDue_later; [exact Hat|exact Hdue].
    + rewrite Hrun in H. injection H as <- <-.
      eexists [_]. split; [exact Hcalls|]. split.
      * apply paced_cons; [reflexivity|exact Hat|apply paced_nil].
      * cbn [waitOutcome]. rewrite Hcalls, length_app, Nat.add_1_r.
        cbn [Nat.pred]. auto.
Qed.

Lemma waitLoop_returns (Hpick : timerFirst E) (n : nat) :
  forall fuel (buffered : bool) k w,
    ((if buffered then 30%Z else 29%Z) - (now w - t0) / tickInterval
     <= Z.of_nat n)%Z ->
    n < fuel ->
    exists a w',
      waitLoop E fuel vmName t0 buffered k w = Ok a w'
      /\ length (calls w') <= length (calls w) + n.
Proof.
  pose proof tickInterval_pos as Hpos.
  induction n as [|n IH]; intros fuel buffered k w Hm Hfuel;
    (destruct fuel as [|fuel]; [lia|]);
    destruct (select (selectPick E k) t0 (now w) buffered) as [[] at_] eqn:Hsel;
    try (rewrite (waitLoop_timeout E vmName t0 fuel buffered k w at_ Hsel);
         do 2 eexists; (split; [reflexivity|]); unfold withError; world_simpl; lia).
  - (* no poll is left, yet a tick is taken *)
    exfalso. rewrite Hpick in Hsel. unfold select in Hsel.
    rewrite waitTimeout_ticks in Hsel.
    destruct (Z.leb_spec (t0 + 30 * tickInterval) (now w)) as [Hlate|Hearly].
    { destruct buffered; discriminate Hsel. }
    pose proof (tick_index_lt (now w - t0) 30 ltac:(lia)).
    destruct buffered; [lia|].
    destruct (Z.ltb_spec (t0 + ((now w - t0) / tickInterval + 1) * tickInterval)
                (t0 + 30 * tickInterval)); [nia|].
    destruct (Z.ltb_spec (t0 + 30 * tickInterval)
                (t0 + ((now w - t0) / tickInterval + 1) * tickInterval));
      discriminate Hsel.
  - destruct (waitLoop_tick fuel buffered k w at_ Hsel)
      as [[Hno Hloop]|(Herr & Hok & w1 & Hrun & Hcalls & _)].
    + rewrite Hloop.
      destruct (afterPoll_frame E vmName at_ w) as (_ & _ & Hcalls & Hnow').
      destruct (IH fuel
                  (tickDue t0 at_
                     (at_ + Z.of_N (took (execCombined E (length (calls w))
                                            (ipCmd (config w) vmName)))))
                  (S k) (afterPoll E vmName at_ w))
        as (a & w' & Hrun & Hlen); [|lia|].
      * rewrite Hnow'. unfold tickDue.
        set (d := Z.of_N (took (execCombined E (length (calls w))
                                  (ipCmd (config w) vmName)))).
        assert (0 <= d)%Z as Hd by (subst d; lia).
        pose proof (tick_index_mono (at_ - t0) (at_ + d - t0) ltac:(lia)) as Hmono.
        rewrite Hpick in Hsel. unfold select in Hsel.
        rewrite waitTimeout_ticks in Hsel.
        destruct (Z.leb_spec (t0 + 30 * tickInterval) (now w)) as [Hlate|Hearly].
        { destruct buffered; discriminate Hsel. }
        destruct buffered.
        -- injection Hsel as <-.
           destruct (Z.ltb_spec ((now w - t0) / tickInterval)
                       ((now w + d - t0) / tickInterval)); lia.
        -- destruct (Z.ltb_spec
                       (t0 + ((now w - t0) / tickInterval + 1) * tickInterval)
                       (t0 + 30 * tickInterval)) as [Hnext|Hnext].
           ++ injection Hsel as <-. rewrite tick_index_next in *.
              match goal with
              | |- context [(?x <? ?y)%Z] => destruct (Z.ltb_spec x y)
              end; lia.
           ++ destruct (Z.ltb_spec (t0 + 30 * tickInterval)
                          (t0 + ((now w - t0) / tickInterval + 1) * tickInterval));
                discriminate Hsel.
      * exists a, w'. split; [exact Hrun|].
        rewrite Hcalls, length_app in Hlen. cbn [length] in Hlen. lia.
    + exists ActionContinue, w1. split; [exact Hrun|].
      rewrite Hcalls, length_app. cbn [length]. lia.
Qed.

End Wait.

Lemma wait_unfold E fuel w vmName :
  prepared w -> bag w !! "vm_name" = Some (VString vmName) ->
  stepWaitForVM_Run E fuel w
  = waitLoop E fuel vmName (now w) false 0
      (addUi w (Say ("Waiting for VM '" +:+ vmName +:+ "' to be ready..."))).
Proof.
  intros [Hc Hu] Hn. unfold stepWaitForVM_Run. unfold_monad.
  rewrite Hc. eval_step. rewrite Hu. eval_step. rewrite Hn. eval_step.
  reflexivity.
Qed.

(** X13: however the backend answers and whichever ready case the
    [select] takes, a wait that returns has started polls of the address
    and nothing else, the first no earlier than 10 s after the step began
    and each further one no earlier than 10 s more; if it continues, its
    last poll succeeded and the address extracted from that poll's output
    passes the address test and is stored as ["vm_ip"], as
    ["instance_ip"] and as the SSH host; if it halts, the timeout error is
    recorded, the configuration is unchanged and 5 min at least have
    passed. *)
Theorem wait_safety (E : Env) (fuel : nat) (w : World) (vmName : string)
    (a : StepAction) (w' : World) :
  prepared w -> bag w !! "vm_name" = Some (VString vmName) ->
  stepWaitForVM_Run E fuel w = Ok a w' ->
  exists l,
    calls w' = calls w ++ l
    /\ paced (ipCmd (config w) vmName) (now w) 0 l
    /\ waitOutcome E vmName (now w) w a w'.
Proof.
  intros Hp Hn H. rewrite (wait_unfold E fuel w vmName Hp Hn) in H.
  apply waitLoop_safety in H; world_simpl; [exact H|lia|discriminate].
Qed.

Lemma wait_safety_witness :
  exists l,
    calls (finalWorld (stepWaitForVM_Run (bootingEnv 3 25000000000 true) 40
                         (demoWorld true)) (demoWorld true))
    = calls (demoWorld true) ++ l
    /\ paced (ipCmd (demoConfig true) "packer-web-1700000000") 0 0 l
    /\ waitOutcome (bootingEnv 3 25000000000 true) "packer-web-1700000000" 0
         (demoWorld true) ActionContinue
         (finalWorld (stepWaitForVM_Run (bootingEnv 3 25000000000 true) 40
                        (demoWorld true)) (demoWorld true)).
Proof.
  apply (wait_safety (bootingEnv 3 25000000000 true) 40 (demoWorld true)
           "packer-web-1700000000" ActionContinue).
  - split; vm_compute; reflexivity.
  - vm_compute; reflexivity.
  - vm_compute; reflexivity.
Defined.

(** X14: when the [select] takes the timer whenever timer and ticker are
    both ready, the wait returns, whatever the backend does and however
    long its answers take: within 30 rounds of the loop and after 29 polls
    at most. *)
Theorem wait_returns (E : Env) (fuel : nat) (w : World) (vmName : string) :
  timerFirst E ->
  prepared w -> bag w !! "vm_name" = Some (VString vmName) ->
  30 <= fuel ->
  exists a w',
    stepWaitForVM_Run E fuel w = Ok a w'
    /\ length (calls w') <= length (calls w) + 29.
Proof.
  intros Hpick Hp Hn Hfuel. rewrite (wait_unfold E fuel w vmName Hp Hn).
  destruct (waitLoop_returns E vmName (now w) Hpick 29 fuel false 0
              (addUi w (Say ("Waiting for VM '" +:+ vmName +:+
                             "' to be ready..."))))
    as (a & w' & Hrun & Hlen); [|lia|].
  - world_simpl. rewrite Z.sub_diag. change (0 / tickInterval)%Z with 0%Z. lia.
  - exists a, w'. split; [exact Hrun|exact Hlen].
Qed.

Lemma wait_returns_witness :
  exists a w',
    stepWaitForVM_Run (stuckEnv 25000000000 false) 30 (demoWorld true)
    = Ok a w'
    /\ length (calls w') <= length (calls (demoWorld true)) + 29.
Proof.
  apply (wait_returns (stuckEnv 25000000000 false) 30 (demoWorld true)
           "packer-web-1700000000").
  - intros k. reflexivity.
  - split; vm_compute; reflexivity.
  - vm_compute; reflexivity.
  - lia.
Defined.

(** ** What the steps do to the state *)

Lemma deleteArgs_deleteVMCmd c vmName :
  deleteArgs (Args (deleteVMCmd c vmName)) = true.
Proof.
  unfold deleteVMCmd, medaCmd.
  destruct (UseAPI c); [reflexivity|]. case_bool_decide; reflexivity.
Qed.

Lemma notDelete_ne cmd : notDelete cmd -> forall c vmName, cmd <> deleteVMCmd c vmName.
Proof.
  intros H c vmName ->. unfold notDelete in H.
  rewrite deleteArgs_deleteVMCmd in H. discriminate H.
Qed.

Ltac not_delete :=
  unfold notDelete, imagesCmd, pullCmd, createVMCmd, startVMCmd, ipCmd,
    stopVMCmd, createImageCmd, pushCmd, medaCmd;
  repeat match goal with
         | |- context [if ?b then _ else _] => destruct b
         end;
  reflexivity.

Lemma notDelete_imagesCmd c : notDelete (imagesCmd c).
Proof. not_delete. Qed.

Lemma notDelete_pullCmd c : notDelete (pullCmd c).
Proof. not_delete. Qed.

Lemma notDelete_createVMCmd c vmName : notDelete (createVMCmd c vmName).
Proof. not_delete. Qed.

Lemma notDelete_startVMCmd c vmName : notDelete (startVMCmd c vmName).
Proof. not_delete. Qed.

Lemma notDelete_ipCmd c vmName : notDelete (ipCmd c vmName).
Proof. not_delete. Qed.

Lemma notDelete_stopVMCmd c vmName : notDelete (stopVMCmd c vmName).
Proof. not_delete. Qed.

Lemma notDelete_createImageCmd c vmName : notDelete (createImageCmd c vmName).
Proof. not_delete. Qed.

Lemma notDelete_pushCmd c name : notDelete (pushCmd c name).
Proof. not_delete. Qed.

Lemma issues_refl w : issues w w.
Proof. exists []. rewrite app_nil_r. auto. Qed.

Lemma issues_same w w' : calls w' = calls w -> issues w w'.
Proof. intros H. exists []. rewrite app_nil_r. auto. Qed.

Lemma issues_trans w1 w2 w3 : issues w1 w2 -> issues w2 w3 -> issues w1 w3.
Proof.
  intros (l1 & H1 & F1) (l2 & H2 & F2). exists (l1 ++ l2).
  rewrite H2, H1, app_assoc. split; [reflexivity|].
  apply Forall_app. auto.
Qed.

Lemma frames_refl keys w : frames keys w w.
Proof. split; [apply sameOutput_refl|]. split; [reflexivity|auto]. Qed.

Lemma frames_trans keys w1 w2 w3 :
  frames keys w1 w2 -> frames keys w2 w3 -> frames keys w1 w3.
Proof.
  intros (Hc12 & Hk12 & Ht12) (Hc23 & Hk23 & Ht23).
  split; [eapply sameOutput_trans; eassumption|].
  split; [intros key Hkey; rewrite Hk23, Hk12 by exact Hkey; reflexivity|].
  intros key v H. destruct (Ht23 key v H) as [H'|H']; [|auto].
  apply Ht12, H'.
Qed.

Lemma frames_mono keys keys' w w' :
  (forall key, key ∈ keys -> key ∈ keys') ->
  frames keys w w' -> frames keys' w w'.
Proof.
  intros Hsub (Hc & Hk & Ht). split; [exact Hc|].
  split; [|auto]. intros key Hkey. apply Hk. intros Hin. apply Hkey, Hsub, Hin.
Qed.

Lemma frames_steps_runner w w' :
  frames stepKeys w w' -> frames runnerKeys w w'.
Proof.
  apply frames_mono. intros key H. unfold runnerKeys.
  apply elem_of_cons. right. apply elem_of_cons. right. exact H.
Qed.

(** A write under one of the keys of [keys], of a typed entry. *)
Lemma frames_insert keys w key v :
  key ∈ keys -> typedWrite key v ->
  frames keys w (setBag w (<[key := v]> (bag w))).
Proof.
  intros Hkey Hv. split; [apply sameOutput_refl|]. world_simpl. split.
  - intros key' Hkey'. apply lookup_insert_ne. intros ->. contradiction.
  - intros key' v' H. destruct (decide (key = key')) as [<-|Hne].
    + rewrite lookup_insert_eq in H. injection H as <-. auto.
    + rewrite lookup_insert_ne in H by exact Hne. auto.
Qed.

(** A change that leaves state bag and configuration alone. *)
Lemma frames_silent keys w w' :
  bag w' = bag w -> config w' = config w -> frames keys w w'.
Proof.
  intros Hb Hc. split; [rewrite Hc; apply sameOutput_refl|].
  rewrite Hb. split; [reflexivity|auto].
Qed.

Lemma advances_refl keys w : advances keys w w.
Proof. split; [apply frames_refl|apply issues_refl]. Qed.

Lemma advances_trans keys w1 w2 w3 :
  advances keys w1 w2 -> advances keys w2 w3 -> advances keys w1 w3.
Proof.
  intros [Hf12 Hi12] [Hf23 Hi23].
  split; [eapply frames_trans|eapply issues_trans]; eassumption.
Qed.

Lemma advances_steps_runner w w' :
  advances stepKeys w w' -> advances runnerKeys w w'.
Proof. intros [Hf Hi]. split; [apply frames_steps_runner, Hf|exact Hi]. Qed.

Lemma advances_insert keys w key v :
  key ∈ keys -> typedWrite key v ->
  advances keys w (setBag w (<[key := v]> (bag w))).
Proof.
  intros Hkey Hv.
  split; [apply frames_insert; assumption|apply issues_same; reflexivity].
Qed.

(** A change that leaves state bag, configuration and calls alone. *)
Lemma advances_silent keys w w' :
  bag w' = bag w -> config w' = config w -> calls w' = calls w ->
  advances keys w w'.
Proof.
  intros Hb Hc Hcalls.
  split; [apply frames_silent; assumption|apply issues_same, Hcalls].
Qed.

(** One subprocess more. *)
Lemma advances_call keys w w' c t :
  notDelete c ->
  bag w' = bag w -> config w' = config w ->
  calls w' = calls w ++ [{| issuedAt := t; command := c |}] ->
  advances keys w w'.
Proof.
  intros Hnd Hb Hc Hcalls. split; [apply frames_silent; assumption|].
  eexists. split; [exact Hcalls|]. repeat constructor. exact Hnd.
Qed.

Section Orderly.

Variable E : Env.

Lemma tidy_advancing {A} (m : M A) : tidy m -> advancing m.
Proof. intros H w a w' Hm. apply (H w a w' Hm). Qed.

Lemma tidy_silent {A} (m : M A) :
  (forall w a w', m w = Ok a w' ->
     bag w' = bag w /\ config w' = config w /\ calls w' = calls w) ->
  tidy m.
Proof.
  intros H w a w' Hm. destruct (H w a w' Hm) as (Hb & Hc & Hcalls).
  split; [apply advances_silent; assumption|rewrite Hb; reflexivity].
Qed.

Lemma tidy_ret {A} (a : A) : tidy (ret a).
Proof. apply tidy_silent. intros w a' w' [= _ <-]. auto. Qed.

Lemma tidy_panic {A} msg : tidy (@panic A msg).
Proof. intros w a w' [=]. Qed.

Lemma tidy_bind {A B} (m : M A) (k : A -> M B) :
  tidy m -> (forall a, tidy (k a)) -> tidy (bind m k).
Proof.
  intros Hm Hk w b w' H. unfold bind in H.
  destruct (m w) as [a w1| |] eqn:Em; try discriminate.
  destruct (Hm w a w1 Em) as [H1 He1]. destruct (Hk a w1 b w' H) as [H2 He2].
  split; [eapply advances_trans; eassumption|congruence].
Qed.

Lemma tidy_GetOk key : tidy (GetOk key).
Proof. apply tidy_silent. intros w a w' [= _ <-]. auto. Qed.

Lemma tidy_uiSay msg : tidy (uiSay msg).
Proof. apply tidy_silent. intros w a w' [= _ <-]. auto. Qed.

Lemma tidy_uiError msg : tidy (uiError msg).
Proof. apply tidy_silent. intros w a w' [= _ <-]. auto. Qed.

Lemma tidy_logPrintf msg : tidy (logPrintf msg).
Proof. apply tidy_silent. intros w a w' [= _ <-]. auto. Qed.

Lemma tidy_sleep d : tidy (sleep d).
Proof. apply tidy_silent. intros w a w' [= _ <-]. auto. Qed.

Lemma tidy_pipedResult c : tidy (pipedResult E c).
Proof. apply tidy_silent. intros w a w' [= _ <-]. auto. Qed.

Lemma tidy_uiSayAll lines : tidy (uiSayAll lines).
Proof.
  apply tidy_silent. intros w a w'. rewrite uiSayAll_sayLines.
  intros [= _ <-]. destruct (sayLines_frame lines w) as (? & ? & ? & _). auto.
Qed.

Lemma tidy_GetString key : tidy (GetString key).
Proof.
  unfold GetString. apply tidy_bind; [apply tidy_GetOk|].
  intros [[]|]; first [apply tidy_ret|apply tidy_panic].
Qed.

Lemma tidy_GetUi : tidy GetUi.
Proof.
  unfold GetUi. apply tidy_bind; [apply tidy_GetOk|].
  intros [[]|]; first [apply tidy_ret|apply tidy_panic].
Qed.

Lemma tidy_GetConfig : tidy GetConfig.
Proof.
  unfold GetConfig. apply tidy_bind; [apply tidy_GetOk|].
  intros [[]|]; try apply tidy_panic.
  apply tidy_silent. intros w a w' [= _ <-]. auto.
Qed.

Lemma tidy_Start c : notDelete c -> tidy (Start c).
Proof.
  intros Hnd w [] w' [= <-]. split; [|reflexivity].
  eapply advances_call; [exact Hnd|reflexivity..].
Qed.

Lemma tidy_CombinedOutput c : notDelete c -> tidy (CombinedOutput E c).
Proof.
  intros Hnd w r w' [= _ <-]. split; [|reflexivity].
  eapply advances_call; [exact Hnd|reflexivity..].
Qed.

Lemma tidy_Put key v :
  key ∈ stepKeys -> key <> "error" -> typedWrite key v -> tidy (Put key v).
Proof.
  intros Hkey Hne Hv w [] w' [= <-].
  split; [apply advances_insert; assumption|].
  world_simpl. apply lookup_insert_ne. exact Hne.
Qed.

Lemma tidy_setSSHHost ip :
  tidy (fun w => Ok tt (setConfig w (setSSHHost (config w) ip))).
Proof.
  intros w [] w' [= <-]. split; [|reflexivity].
  split; [|apply issues_same; reflexivity].
  split; [world_simpl; destruct (config w); reflexivity|].
  world_simpl. split; [reflexivity|auto].
Qed.

Lemma advancing_bind {A B} (m : M A) (k : A -> M B) :
  advancing m -> (forall a, advancing (k a)) -> advancing (bind m k).
Proof.
  intros Hm Hk w b w' H. unfold bind in H.
  destruct (m w) as [a w1| |] eqn:Em; try discriminate.
  eapply advances_trans; [eapply Hm, Em|eapply Hk, H].
Qed.

Lemma advancing_Put_error e : advancing (Put "error" (VError e)).
Proof.
  intros w [] w' [= <-]. apply advances_insert; [|reflexivity].
  apply list_elem_of_here.
Qed.

Lemma halting_ret : halting (ret ActionHalt).
Proof. intros w a w' [= <- <-]. split; [apply advances_refl|reflexivity]. Qed.

Lemma halting_bind {A} (m : M A) (k : A -> M StepAction) :
  advancing m -> (forall a, halting (k a)) -> halting (bind m k).
Proof.
  intros Hm Hk w b w' H. unfold bind in H.
  destruct (m w) as [a w1| |] eqn:Em; try discriminate.
  destruct (Hk a w1 b w' H) as [H2 Hb].
  split; [eapply advances_trans; [eapply Hm, Em|exact H2]|exact Hb].
Qed.

(** The way every step fails: the error is recorded and shown, and the
    step halts. *)
Lemma halting_fail e :
  halting (Put "error" (VError e) ;;; uiError e ;;; ret ActionHalt).
Proof.
  apply halting_bind; [apply advancing_Put_error|intros _].
  apply halting_bind; [apply tidy_advancing, tidy_uiError|intros _].
  apply halting_ret.
Qed.

Lemma orderly_halting m : halting m -> orderly m.
Proof.
  intros H w a w' Hm. destruct (H w a w' Hm) as [Hadv ->].
  split; [exact Hadv|discriminate].
Qed.

Lemma orderly_tidy m : tidy m -> orderly m.
Proof. intros H w a w' Hm. destruct (H w a w' Hm). auto. Qed.

Lemma orderly_bind {A} (m : M A) (k : A -> M StepAction) :
  tidy m -> (forall a, orderly (k a)) -> orderly (bind m k).
Proof.
  intros Hm Hk w b w' H. unfold bind in H.
  destruct (m w) as [a w1| |] eqn:Em; try discriminate.
  destruct (Hm w a w1 Em) as [H1 He1]. destruct (Hk a w1 b w' H) as [H2 He2].
  split; [eapply advances_trans; eassumption|].
  intros Hb. rewrite He2, He1 by exact Hb. reflexivity.
Qed.

End Orderly.

Create HintDb tidy.

#[export] Hint Resolve tidy_ret tidy_panic tidy_GetOk tidy_uiSay tidy_uiError
  tidy_logPrintf tidy_sleep tidy_pipedResult tidy_uiSayAll tidy_GetString
  tidy_GetUi tidy_GetConfig tidy_setSSHHost
  notDelete_imagesCmd notDelete_pullCmd notDelete_createVMCmd
  notDelete_startVMCmd notDelete_ipCmd notDelete_stopVMCmd
  notDelete_createImageCmd notDelete_pushCmd : tidy.

(** Walks through a step: the failure branches halt, everything else is
    tidy. *)
Ltac tidy_step :=
  match goal with
  | |- tidy (bind _ _) => apply tidy_bind; [|intros]
  | |- tidy (Put _ _) =>
      apply tidy_Put;
      [unfold stepKeys; repeat first [apply list_elem_of_here
                                     |apply list_elem_of_further]
      |discriminate
      |cbn; tauto]
  | |- tidy (Start _) => apply tidy_Start; auto with tidy
  | |- tidy (CombinedOutput _ _) => apply tidy_CombinedOutput; auto with tidy
  | |- tidy (match ?x with _ => _ end) => destruct x
  | |- tidy _ => solve [auto with tidy]
  end.

Ltac orderly_step :=
  match goal with
  | |- orderly (bind (Put "error" _) _) =>
      apply orderly_halting, halting_fail
  | |- orderly (ret _) => apply orderly_tidy, tidy_ret
  | |- orderly (bind _ _) =>
      apply orderly_bind; [solve [repeat tidy_step]|intros]
  | |- orderly (match ?x with _ => _ end) => destruct x
  | |- orderly (let _ := _ in _) => cbv zeta
  end.

Ltac orderly := repeat orderly_step.

Section OrderlySteps.

Variable E : Env.

Lemma orderly_runPiped c startMsg what failed onSuccess :
  notDelete c -> orderly onSuccess ->
  orderly (runPiped E c startMsg what failed onSuccess).
Proof.
  intros Hnd H. unfold runPiped.
  apply orderly_bind; [apply tidy_pipedResult|intros r].
  destruct (bool_decide _); [apply orderly_halting, halting_ret|].
  destruct (bool_decide _); [apply orderly_halting, halting_ret|].
  apply orderly_bind; [apply tidy_Start, Hnd|intros _].
  destruct (startErr r); [apply orderly_halting, halting_fail|].
  orderly. exact H.
Qed.

Lemma orderly_runFatal c what onSuccess :
  notDelete c -> orderly onSuccess -> orderly (runFatal E c what onSuccess).
Proof.
  intros Hnd H. unfold runFatal.
  apply orderly_bind; [apply tidy_CombinedOutput, Hnd|intros r].
  destruct (err r); [apply orderly_halting, halting_fail|exact H].
Qed.

Lemma orderly_pull : orderly (stepPullImage_Run E).
Proof.
  unfold stepPullImage_Run. orderly.
  apply orderly_runPiped; [auto with tidy|orderly].
Qed.

Lemma orderly_createVM : orderly (stepCreateVM_Run E).
Proof.
  unfold stepCreateVM_Run. orderly.
  apply orderly_runFatal; [auto with tidy|orderly].
Qed.

Lemma orderly_startVM : orderly (stepStartVM_Run E).
Proof.
  unfold stepStartVM_Run. orderly.
  apply orderly_runFatal; [auto with tidy|orderly].
Qed.

Lemma orderly_stopVM : orderly (stepStopVM_Run E).
Proof. unfold stepStopVM_Run. orderly. Qed.

Lemma orderly_createImage : orderly (stepCreateImage_Run E).
Proof.
  unfold stepCreateImage_Run. orderly.
  apply orderly_runFatal; [auto with tidy|orderly].
Qed.

Lemma orderly_push : orderly (stepPushImage_Run E).
Proof.
  unfold stepPushImage_Run. orderly;
    apply orderly_runPiped; auto with tidy; orderly.
Qed.

Lemma orderly_collaborator o : orderly (collaborator o).
Proof.
  destruct o as [|[e|]]; cbn [collaborator].
  - apply orderly_tidy, tidy_ret.
  - apply orderly_halting.
    apply halting_bind; [apply advancing_Put_error|intros _; apply halting_ret].
  - apply orderly_halting, halting_ret.
Qed.

Lemma orderly_connect : orderly (Run StepConnect E 0).
Proof.
  cbn [Run StepConnect].
  apply orderly_bind; [apply tidy_GetString|intros _].
  destruct (connect E) as [|[e|]]; cbn [collaborator].
  - unfold ret at 1, bind at 1.
    change (orderly (Put "communicator" VCommunicator ;;; ret ActionContinue)).
    orderly.
  - intros w a w' H. unfold bind, Put, ret in H. cbv beta iota in H.
    injection H as <- <-. split; [|discriminate].
    apply advances_insert; [apply list_elem_of_here|reflexivity].
  - unfold ret at 1, bind at 1. change (orderly (ret ActionHalt)).
    apply orderly_halting, halting_ret.
Qed.

Lemma orderly_waitLoop vmName t0 fuel :
  forall buffered k, orderly (waitLoop E fuel vmName t0 buffered k).
Proof.
  induction fuel as [|fuel IH]; intros buffered k w a w' H; [discriminate|].
  cbn [waitLoop] in H.
  destruct (select (selectPick E k) t0 (now w) buffered) as [case at_].
  match type of H with
  | ?m _ = _ => assert (orderly m) as Hm
  end.
  { destruct case; orderly. intros ? ? ? Hloop. eapply IH, Hloop. }
  destruct (Hm _ _ _ H) as [Hadv Herr]. split; [|exact Herr].
  eapply advances_trans; [|exact Hadv].
  apply advances_silent; reflexivity.
Qed.

Lemma orderly_wait fuel : orderly (stepWaitForVM_Run E fuel).
Proof.
  unfold stepWaitForVM_Run. orderly.
  intros ? ? ? Hloop. eapply orderly_waitLoop, Hloop.
Qed.

End OrderlySteps.

(** ** The runner and [Builder.Run], whatever the environment does *)

Ltac not_step_key :=
  let Hin := fresh "Hin" in
  unfold runnerKeys, stepKeys, StateCancelled, StateHalted; intros Hin;
  repeat (apply elem_of_cons in Hin as [Hin|Hin]; [discriminate Hin|]);
  apply elem_of_nil in Hin; exact Hin.

Lemma buildSteps_workSteps c : buildSteps c = workSteps c ++ [stepCleanupVM].
Proof. reflexivity. Qed.

Lemma good_workSteps E fuel c : Forall (good E fuel) (workSteps c).
Proof.
  unfold workSteps.
  repeat (apply Forall_cons; split); try solve [constructor];
    try (split; [reflexivity|cbn [Run]]).
  - apply orderly_pull.
  - apply orderly_createVM.
  - apply orderly_startVM.
  - apply orderly_wait.
  - destruct (_ && _); cbn [If]; (split; [reflexivity|cbn [Run StepSSHKeyGen]]);
      [apply orderly_collaborator|apply orderly_tidy, tidy_ret].
  - apply (orderly_connect E).
  - apply orderly_collaborator.
  - apply orderly_stopVM.
  - apply orderly_createImage.
  - apply orderly_push.
Qed.

Lemma clear_startWorld E c : clear (startWorld E c).
Proof.
  unfold clear, startWorld. world_simpl.
  rewrite !lookup_insert_ne by discriminate. rewrite !lookup_empty. auto.
Qed.

Lemma continued_app E fuel pre rest w w1 w2 :
  continued E fuel pre w w1 -> continued E fuel rest w1 w2 ->
  continued E fuel (pre ++ rest) w w2.
Proof.
  induction 1 as [|step pre w w' w1 Hrun Hpre IH]; intros Hrest; [exact Hrest|].
  cbn [app]. econstructor; [exact Hrun|]. apply IH, Hrest.
Qed.

(** The runner on steps that are [good], followed by others: either every
    good step has continued and the others are run from a clear state, or
    the runner has stopped among the good steps, with an error recorded or
    a flag set. *)
Lemma runSteps_prefix E fuel pre rest :
  Forall (good E fuel) pre ->
  forall i w w',
    runSteps E fuel i (pre ++ rest) w = Ok tt w' -> clear w ->
    (exists w1,
        continued E fuel pre w w1 /\ clear w1 /\ advances stepKeys w w1
        /\ runSteps E fuel (length pre + i) rest w1 = Ok tt w')
    \/ (advances runnerKeys w w' /\ ~ clear w').
Proof.
  induction pre as [|step pre IH]; intros Hgood i w w' Hrun Hclear.
  { left. exists w. split; [constructor|]. split; [exact Hclear|].
    split; [apply advances_refl|exact Hrun]. }
  apply Forall_cons in Hgood as [[Hclean Horderly] Hgood].
  cbn [app runSteps] in Hrun. rewrite Hclean in Hrun.
  destruct (cancelBefore E i).
  { right. injection Hrun as <-.
    split; [apply advances_insert; [apply list_elem_of_here|left; reflexivity]|].
    intros (_ & Hc & _). world_simpl. rewrite lookup_insert_eq in Hc.
    discriminate Hc. }
  unfold_monad.
  destruct (Run step E fuel w) as [action w1| |] eqn:Estep; try discriminate.
  destruct (Horderly w action w1 Estep) as [Hadv Herr].
  pose proof Hadv as [(_ & Hkeys & _) _].
  destruct Hclear as (He & Hc & Hh).
  destruct (cancelDuring E i); eval_step.
  { right. rewrite lookup_insert_eq in Hrun. injection Hrun as <-.
    split.
    - eapply advances_trans; [apply advances_steps_runner, Hadv|].
      apply advances_insert; [apply list_elem_of_here|left; reflexivity].
    - intros (_ & Hc' & _). world_simpl. rewrite lookup_insert_eq in Hc'.
      discriminate Hc'. }
  rewrite (Hkeys StateCancelled), Hc in Hrun by not_step_key.
  destruct action.
  - destruct (runSteps E fuel (S i) (pre ++ rest) w1) as [[] w2| |] eqn:Erest;
      try discriminate.
    injection Hrun as <-.
    destruct (IH Hgood (S i) w1 w2 Erest) as [(w3 & Hcont & Hcl & Hadv' & Hrest)|[Hadv' Hncl]].
    + split; [rewrite Herr by reflexivity; exact He|].
      rewrite !Hkeys by not_step_key. auto.
    + left. exists w3. split; [econstructor; eassumption|].
      split; [exact Hcl|]. split; [eapply advances_trans; eassumption|].
      cbn [length]. rewrite <- Nat.add_succ_comm in Hrest. exact Hrest.
    + right. split; [|exact Hncl].
      eapply advances_trans; [apply advances_steps_runner, Hadv|exact Hadv'].
  - right. injection Hrun as <-. split.
    + eapply advances_trans; [apply advances_steps_runner, Hadv|].
      apply advances_insert;
        [apply list_elem_of_further, list_elem_of_here|right; reflexivity].
    + intros (_ & _ & Hh'). world_simpl. rewrite lookup_insert_eq in Hh'.
      discriminate Hh'.
Qed.

(** The runner on the cleanup step alone. *)
Lemma runSteps_cleanup E fuel i w w' :
  runSteps E fuel i [stepCleanupVM] w = Ok tt w' ->
  bag w !! StateCancelled = None ->
  (cancelBefore E i = true
   /\ w' = setBag w (<[StateCancelled := VBool true]> (bag w)))
  \/ (cancelBefore E i = false
      /\ exists w2 vmName,
           bag w !! "vm_name" = Some (VString vmName)
           /\ bag w2 = bag w /\ config w2 = config w
           /\ calls w2 = calls w ++ [{| issuedAt := now w;
                                        command := deleteVMCmd (config w) vmName |}]
           /\ stepCleanupVM_Run E w = Ok ActionContinue w2
           /\ w' = (if cancelDuring E i
                    then setBag w2 (<[StateCancelled := VBool true]> (bag w2))
                    else w2)).
Proof.
  intros Hrun Hc. cbn [runSteps Run Cleanup stepCleanupVM] in Hrun.
  destruct (cancelBefore E i); [left; injection Hrun as <-; auto|right].
  split; [reflexivity|]. unfold_monad.
  destruct (stepCleanupVM_Run E w) as [action w2| |] eqn:Estep; try discriminate.
  destruct (cleanup_best_effort E w action w2 Estep)
    as (-> & Hbag & Hcfg & vmName & Hname & Hcalls).
  exists w2, vmName. repeat (split; [assumption|]). split; [reflexivity|].
  destruct (cancelDuring E i); eval_step.
  - rewrite lookup_insert_eq in Hrun. injection Hrun as <-. reflexivity.
  - rewrite Hbag, Hc in Hrun. injection Hrun as <-. reflexivity.
Qed.

Lemma report_world w r w' : report w = Ok r w' -> w' = w.
Proof.
  unfold report. unfold_monad. intros H.
  repeat match type of H with
         | context [match ?x with _ => _ end] => destruct x
         end;
    congruence.
Qed.

(** [report] returns no artifact unless the state is clear. *)
Lemma report_unclear w r w' :
  report w = Ok r w' -> ~ clear w -> exists e, r = (None, Some e).
Proof.
  unfold report, clear. unfold_monad. intros H Hn.
  destruct (bag w !! "error") as [[]|]; try discriminate H;
    [injection H as <- _; eauto|].
  destruct (bag w !! StateCancelled); [injection H as <- _; eauto|].
  destruct (bag w !! StateHalted); [injection H as <- _; eauto|].
  exfalso. apply Hn. auto.
Qed.

Lemma Builder_Run_inv E fuel c r w :
  Builder_Run E fuel c = Ok r w ->
  runSteps E fuel 0 (buildSteps c) (startWorld E c) = Ok tt w
  /\ report w = Ok r w.
Proof.
  rewrite Builder_Run_unfold. unfold bind. intros H.
  destruct (runSteps E fuel 0 (buildSteps c) (startWorld E c))
    as [[] w1| |] eqn:Erun; try discriminate.
  pose proof (report_world _ _ _ H) as ->. auto.
Qed.

Lemma timesCalled_notDelete w c vmName :
  Forall (fun call => notDelete (command call)) (calls w) ->
  timesCalled (deleteVMCmd c vmName) w = 0.
Proof.
  unfold timesCalled. induction (calls w) as [|call l IH]; intros H;
    [reflexivity|].
  apply Forall_cons in H as [Hcall Hl].
  rewrite filter_cons_False by (apply notDelete_ne, Hcall). apply IH, Hl.
Qed.

Lemma issues_startWorld E c w :
  issues (startWorld E c) w ->
  Forall (fun call => notDelete (command call)) (calls w).
Proof. intros (l & -> & Hl). exact Hl. Qed.

(** X15: whenever [Builder.Run] returns with an error recorded in the
    state bag, with the build halted, or with the build cancelled
    otherwise than during the cleanup step itself, it returns an error and
    no artifact, and no delete of a VM has been started: the VM that the
    build may have created is left behind. *)
Theorem failed_build_keeps_vm (E : Env) (fuel : nat) (c : Config)
    (r : RunResult) (w : World) :
  Builder_Run E fuel c = Ok r w ->
  is_Some (bag w !! "error") \/ is_Some (bag w !! StateHalted)
  \/ (is_Some (bag w !! StateCancelled) /\ cancelDuring E 10 = false) ->
  (exists e, r = (None, Some e))
  /\ forall c' vmName, timesCalled (deleteVMCmd c' vmName) w = 0.
Proof.
  intros Hrun Hfailed. apply Builder_Run_inv in Hrun as [Hrun Hreport].
  assert (~ clear w) as Hunclear.
  { intros (He & Hc & Hh). rewrite He, Hc, Hh in Hfailed.
    destruct Hfailed as [[? [=]]|[[? [=]]|[[? [=]] _]]]. }
  split; [eapply report_unclear; eassumption|].
  intros c' vmName. apply timesCalled_notDelete.
  rewrite buildSteps_workSteps in Hrun.
  apply (runSteps_prefix E fuel _ _ (good_workSteps E fuel c)) in Hrun
    as [(w1 & _ & Hclear & [_ Hissues] & Hrest)|[[_ Hissues] _]];
    [|eapply issues_startWorld, Hissues|apply clear_startWorld].
  apply issues_startWorld in Hissues.
  destruct Hclear as (He & Hc & Hh).
  apply runSteps_cleanup in Hrest
    as [[_ ->]|(_ & w2 & vm & _ & Hbag & _ & _ & _ & ->)]; [exact Hissues| |exact Hc].
  exfalso. change (length (workSteps c) + 0) with 10 in *.
  destruct (cancelDuring E 10).
  - world_simpl. rewrite !lookup_insert_ne, Hbag, He, Hh in Hfailed by discriminate.
    destruct Hfailed as [[? [=]]|[[? [=]]|[_ [=]]]].
  - apply Hunclear. unfold clear. rewrite Hbag. auto.
Qed.

Lemma failed_build_keeps_vm_witness :
  (exists e,
      finalValue (Builder_Run (failingEnv "start" "no such image") 40
                    (demoConfig false)) (None, None)
      = (None, Some e))
  /\ forall c' vmName,
       timesCalled (deleteVMCmd c' vmName)
         (finalWorld (Builder_Run (failingEnv "start" "no such image") 40
                        (demoConfig false)) (initialWorld (demoConfig false)))
       = 0.
Proof.
  apply (failed_build_keeps_vm (failingEnv "start" "no such image") 40
           (demoConfig false)).
  - vm_compute. reflexivity.
  - left. vm_compute. eexists. reflexivity.
Defined.

Lemma deleteVMCmd_sameOutput c c' vmName :
  sameOutput c c' -> deleteVMCmd c' vmName = deleteVMCmd c vmName.
Proof. unfold sameOutput. intros ->. reflexivity. Qed.

Lemma filter_notDelete (l : list Call) c vmName :
  Forall (fun call => notDelete (command call)) l ->
  filter (fun call => command call = deleteVMCmd c vmName) l = [].
Proof.
  induction l as [|call l IH]; intros H; [reflexivity|].
  apply Forall_cons in H as [Hcall Hl].
  rewrite filter_cons_False by (apply notDelete_ne, Hcall). apply IH, Hl.
Qed.

Lemma startWorld_vm_name E c :
  bag (startWorld E c) !! "vm_name" = Some (VString (buildVMName E c)).
Proof. unfold startWorld. world_simpl. apply lookup_insert_eq. Qed.

Lemma startWorld_ready E c : ready (startWorld E c).
Proof.
  split; [split|exists (buildVMName E c); apply startWorld_vm_name];
    unfold startWorld; world_simpl.
  - rewrite !lookup_insert_ne by discriminate. apply lookup_insert_eq.
  - rewrite !lookup_insert_ne by discriminate. apply lookup_insert_eq.
Qed.

(** A build that ends in a clear state has run every step, the cleanup
    last. *)
Lemma clear_build E fuel c w :
  runSteps E fuel 0 (buildSteps c) (startWorld E c) = Ok tt w -> clear w ->
  exists w1,
    continued E fuel (workSteps c) (startWorld E c) w1
    /\ advances stepKeys (startWorld E c) w1
    /\ stepCleanupVM_Run E w1 = Ok ActionContinue w
    /\ bag w = bag w1 /\ config w = config w1
    /\ calls w = calls w1 ++ [{| issuedAt := now w1;
                                 command := deleteVMCmd c (buildVMName E c) |}].
Proof.
  intros Hrun Hclear. rewrite buildSteps_workSteps in Hrun.
  apply (runSteps_prefix E fuel _ _ (good_workSteps E fuel c)) in Hrun
    as [(w1 & Hcont & Hclear1 & Hadv & Hrest)|[_ Hn]];
    [|contradiction|apply clear_startWorld].
  destruct Hclear as (He & Hc & Hh).
  apply runSteps_cleanup in Hrest
    as [[_ ->]|(_ & w2 & vm & Hname & Hbag & Hcfg & Hcalls & Hstep & ->)];
    [world_simpl; rewrite lookup_insert_eq in Hc; discriminate Hc|
    |apply Hclear1].
  destruct (cancelDuring E _);
    [world_simpl; rewrite lookup_insert_eq in Hc; discriminate Hc|].
  exists w1. split; [exact Hcont|]. split; [exact Hadv|].
  split; [exact Hstep|]. split; [exact Hbag|]. split; [exact Hcfg|].
  destruct Hadv as [(Hsame & Hkeys & _) _].
  rewrite Hkeys, startWorld_vm_name in Hname by not_step_key.
  injection Hname as <-.
  rewrite Hcalls, (deleteVMCmd_sameOutput c (config w1)) by exact Hsame.
  reflexivity.
Qed.

(** X16: a build that returns an artifact has run all eleven steps, each
    returning [ActionContinue]; the delete of its VM (the VM name is the
    generated one, the command that of the configuration as given) is the
    last subprocess it has started, and the only delete. *)
Theorem successful_build_deletes_last (E : Env) (fuel : nat) (c : Config)
    (r : RunResult) (w : World) :
  Builder_Run E fuel c = Ok r w -> is_Some (fst r) ->
  continued E fuel (buildSteps c) (startWorld E c) w
  /\ (exists before t,
        calls w = before ++ [{| issuedAt := t;
                                command := deleteVMCmd c (buildVMName E c) |}]
        /\ Forall (fun call => notDelete (command call)) before)
  /\ timesCalled (deleteVMCmd c (buildVMName E c)) w = 1.
Proof.
  intros Hrun [a Ha]. apply Builder_Run_inv in Hrun as [Hrun Hreport].
  destruct r as [oa e]. cbn [fst] in Ha. subst oa.
  apply report_artifact in Hreport as (_ & _ & He & Hc & Hh & _).
  destruct (clear_build E fuel c w Hrun ltac:(split; [|split]; assumption))
    as (w1 & Hcont & [_ Hissues] & Hstep & _ & _ & Hcalls).
  apply issues_startWorld in Hissues.
  split; [|split].
  - rewrite buildSteps_workSteps. eapply continued_app; [exact Hcont|].
    econstructor; [exact Hstep|constructor].
  - eauto.
  - unfold timesCalled. rewrite Hcalls, filter_app, filter_notDelete by exact Hissues.
    rewrite filter_cons_True by reflexivity. reflexivity.
Qed.

Lemma successful_build_deletes_last_witness :
  continued (plainEnv true) 40 (buildSteps (demoConfig true))
    (startWorld (plainEnv true) (demoConfig true))
    (finalWorld (Builder_Run (plainEnv true) 40 (demoConfig true))
       (initialWorld (demoConfig true)))
  /\ (exists before t,
        calls (finalWorld (Builder_Run (plainEnv true) 40 (demoConfig true))
                 (initialWorld (demoConfig true)))
        = before ++ [{| issuedAt := t;
                        command := deleteVMCmd (demoConfig true)
                                     (buildVMName (plainEnv true) (demoConfig true)) |}]
        /\ Forall (fun call => notDelete (command call)) before)
  /\ timesCalled (deleteVMCmd (demoConfig true)
                    (buildVMName (plainEnv true) (demoConfig true)))
       (finalWorld (Builder_Run (plainEnv true) 40 (demoConfig true))
          (initialWorld (demoConfig true)))
     = 1.
Proof.
  apply (successful_build_deletes_last (plainEnv true) 40 (demoConfig true)
           (finalValue (Builder_Run (plainEnv true) 40 (demoConfig true))
              (None, None))).
  - vm_compute. reflexivity.
  - vm_compute. eexists. reflexivity.
Defined.

(** The state of a build that has returned: as the runner left it. *)
Lemma runSteps_frames E fuel c w :
  runSteps E fuel 0 (buildSteps c) (startWorld E c) = Ok tt w ->
  frames runnerKeys (startWorld E c) w.
Proof.
  intros Hrun. rewrite buildSteps_workSteps in Hrun.
  apply (runSteps_prefix E fuel _ _ (good_workSteps E fuel c)) in Hrun
    as [(w1 & _ & Hclear & [Hf _] & Hrest)|[[Hf _] _]];
    [|exact Hf|apply clear_startWorld].
  apply frames_steps_runner in Hf.
  eapply frames_trans; [exact Hf|].
  apply runSteps_cleanup in Hrest
    as [[_ ->]|(_ & w2 & vm & _ & Hbag & Hcfg & _ & _ & ->)];
    [apply frames_insert; [apply list_elem_of_here|left; reflexivity]|
    |apply Hclear].
  destruct (cancelDuring E _); [|apply frames_silent; assumption].
  eapply frames_trans; [apply frames_silent; eassumption|].
  apply frames_insert; [apply list_elem_of_here|left; reflexivity].
Qed.

(** X17: whatever happens during a build, [Builder.Run] returns with the
    entries it stored itself as it stored them (the configuration, the
    hook, the UI and the generated VM name are never overwritten), with a
    configuration that differs from the given one in the communicator
    settings at most, and with a state bag in which every other entry has
    the type its reader asserts: an error under ["error"], strings under
    the address and image keys. *)
Theorem build_state_frame (E : Env) (fuel : nat) (c : Config)
    (r : RunResult) (w : World) :
  Builder_Run E fuel c = Ok r w ->
  frames runnerKeys (startWorld E c) w
  /\ bag w !! "config" = Some VConfig
  /\ bag w !! "hook" = Some VHook
  /\ bag w !! "ui" = Some VUi
  /\ bag w !! "vm_name" = Some (VString (buildVMName E c)).
Proof.
  intros Hrun. apply Builder_Run_inv in Hrun as [Hrun _].
  pose proof (runSteps_frames E fuel c w Hrun) as Hframes.
  split; [exact Hframes|].
  destruct Hframes as (_ & Hkeys & _).
  rewrite !Hkeys by not_step_key.
  destruct (startWorld_ready E c) as [[Hc Hu] _].
  split; [exact Hc|]. split; [|split; [exact Hu|apply startWorld_vm_name]].
  unfold startWorld. world_simpl.
  rewrite !lookup_insert_ne by discriminate. apply lookup_insert_eq.
Qed.

Lemma build_state_frame_witness :
  frames runnerKeys (startWorld refusedEnv (demoConfig true))
    (finalWorld (Builder_Run refusedEnv 40 (demoConfig true))
       (initialWorld (demoConfig true)))
  /\ bag (finalWorld (Builder_Run refusedEnv 40 (demoConfig true))
            (initialWorld (demoConfig true))) !! "config" = Some VConfig
  /\ bag (finalWorld (Builder_Run refusedEnv 40 (demoConfig true))
            (initialWorld (demoConfig true))) !! "hook" = Some VHook
  /\ bag (finalWorld (Builder_Run refusedEnv 40 (demoConfig true))
            (initialWorld (demoConfig true))) !! "ui" = Some VUi
  /\ bag (finalWorld (Builder_Run refusedEnv 40 (demoConfig true))
            (initialWorld (demoConfig true))) !! "vm_name"
     = Some (VString (buildVMName refusedEnv (demoConfig true))).
Proof.
  apply (build_state_frame refusedEnv 40 (demoConfig true)
           (finalValue (Builder_Run refusedEnv 40 (demoConfig true))
              (None, None))).
  vm_compute. reflexivity.
Defined.

Lemma continued_app_inv E fuel pre rest : forall w w',
  continued E fuel (pre ++ rest) w w' ->
  exists w1, continued E fuel pre w w1 /\ continued E fuel rest w1 w'.
Proof.
  induction pre as [|step pre IH]; intros w w' H.
  - exists w. split; [constructor|exact H].
  - cbn [app] in H. inversion H as [|? ? ? w1 ? Hrun Hrest]; subst.
    destruct (IH w1 w' Hrest) as (w2 & Hpre & Hrest').
    exists w2. split; [econstructor; eassumption|exact Hrest'].
Qed.

Lemma typedWrite_error v : typedWrite "error" v -> exists e, v = VError e.
Proof.
  destruct v; cbn; intros H; try contradiction; try discriminate H; eauto;
    repeat (destruct H as [H|H]; try discriminate H).
Qed.

Lemma typedWrite_string key v :
  key = "vm_ip" \/ key = "instance_ip" \/ key = "image_name"
  \/ key = "pushed_image" ->
  typedWrite key v -> exists s, v = VString s.
Proof.
  intros [-> | [-> | [-> | ->]]]; destruct v; cbn; intros H;
    try contradiction; try discriminate H; eauto;
    repeat (destruct H as [H|H]; try discriminate H).
Qed.

Lemma startWorld_fresh E c key :
  key <> "config" -> key <> "hook" -> key <> "ui" -> key <> "vm_name" ->
  bag (startWorld E c) !! key = None.
Proof.
  intros. unfold startWorld. world_simpl.
  rewrite !lookup_insert_ne by congruence. apply lookup_empty.
Qed.

(** X18: [Builder.Run] returns an artifact exactly when the runner leaves
    no error, no cancellation and no halt in the state bag: the report
    [failed to get image name from state] is never reached that way, the
    image name being in the state bag whenever every step has continued. *)
Theorem artifact_iff_clear (E : Env) (fuel : nat) (c : Config)
    (r : RunResult) (w : World) :
  Builder_Run E fuel c = Ok r w ->
  (exists a, r = (Some a, None)) <-> clear w.
Proof.
  intros Hrun. apply Builder_Run_inv in Hrun as [Hrun Hreport]. split.
  { intros [a ->].
    apply report_artifact in Hreport as (_ & _ & He & Hc & Hh & _).
    split; [|split]; assumption. }
  intros Hclear.
  pose proof (runSteps_frames E fuel c w Hrun) as (_ & _ & Htyped).
  destruct (clear_build E fuel c w Hrun Hclear)
    as (w1 & Hcont & _ & _ & Hbag & _ & _).
  change (workSteps c)
    with (firstn 8 (workSteps c) ++ [stepCreateImage; stepPushImage]) in Hcont.
  apply continued_app_inv in Hcont as (w8 & _ & Hcont).
  inversion Hcont as [|? ? ? w9 ? Himage Hcont']; subst.
  inversion Hcont' as [|? ? ? w10 ? Hpush Hcont'']; subst.
  inversion Hcont''; subst.
  apply createImage_continue in Himage as [Hbag9 _].
  apply push_continue in Hpush as [_ Hbag10].
  assert (exists name, bag w !! "image_name" = Some (VString name))
    as [name Hname].
  { rewrite Hbag.
    destruct Hbag10 as [[_ ->]|[_ ->]]; rewrite Hbag9;
      [|rewrite lookup_insert_ne by discriminate];
      rewrite lookup_insert_eq; eauto. }
  destruct Hclear as (He & Hc & Hh).
  unfold report in Hreport. unfold_monad.
  rewrite He, Hc, Hh, Hname in Hreport.
  destruct (bag w !! "pushed_image") as [v|] eqn:Hpushed.
  - destruct (Htyped _ _ Hpushed) as [Hstart|Hv].
    + rewrite startWorld_fresh in Hstart by discriminate. discriminate Hstart.
    + apply typedWrite_string in Hv as [s ->]; [|auto].
      injection Hreport as <-. eauto.
  - injection Hreport as <-. eauto.
Qed.

Lemma artifact_iff_clear_witness :
  (exists a,
      finalValue (Builder_Run (plainEnv true) 40 (demoConfig false)) (None, None)
      = (Some a, None))
  <-> clear (finalWorld (Builder_Run (plainEnv true) 40 (demoConfig false))
               (initialWorld (demoConfig false))).
Proof.
  apply (artifact_iff_clear (plainEnv true) 40 (demoConfig false)).
  vm_compute. reflexivity.
Defined.

(** ** Every step returns *)

Lemma readyWith_bag key w w' : bag w' = bag w -> readyWith key w -> readyWith key w'.
Proof. unfold readyWith, ready, prepared, has. intros ->. auto. Qed.

Lemma readyWith_insert key w k v :
  k <> "config" -> k <> "ui" -> k <> "vm_name" -> k <> key ->
  readyWith key w -> readyWith key (setBag w (<[k := v]> (bag w))).
Proof.
  unfold readyWith, ready, prepared, has. world_simpl. intros.
  rewrite !lookup_insert_ne by assumption. assumption.
Qed.

Lemma ready_readyWith w : ready w <-> readyWith "vm_name" w.
Proof. unfold readyWith, ready, has. tauto. Qed.

Lemma ready_frames w w' : frames stepKeys w w' -> ready w -> ready w'.
Proof.
  intros (_ & Hkeys & _). unfold ready, prepared.
  rewrite !Hkeys by not_step_key. auto.
Qed.

Section Sound.

Variable E : Env.
Variable key : string.

Lemma sound_silent {A} (m : M A) :
  (forall w, exists a w', m w = Ok a w' /\ bag w' = bag w) -> sound key m.
Proof.
  intros H w Hw. destruct (H w) as (a & w' & Hm & Hbag).
  exists a, w'. split; [exact Hm|]. eapply readyWith_bag; eassumption.
Qed.

Lemma sound_ret {A} (a : A) : sound key (ret a).
Proof. apply sound_silent. intros w. exists a, w. auto. Qed.

Lemma sound_bind {A B} (m : M A) (k : A -> M B) :
  sound key m -> (forall a, sound key (k a)) -> sound key (bind m k).
Proof.
  intros Hm Hk w Hw. destruct (Hm w Hw) as (a & w1 & Em & Hw1).
  destruct (Hk a w1 Hw1) as (b & w2 & Ek & Hw2).
  exists b, w2. split; [|exact Hw2]. unfold bind. rewrite Em. exact Ek.
Qed.

Lemma sound_GetOk k : sound key (GetOk k).
Proof. apply sound_silent. intros w. eexists _, _. split; reflexivity. Qed.

Lemma sound_uiSay msg : sound key (uiSay msg).
Proof. apply sound_silent. intros w. eexists _, _. split; reflexivity. Qed.

Lemma sound_uiError msg : sound key (uiError msg).
Proof. apply sound_silent. intros w. eexists _, _. split; reflexivity. Qed.

Lemma sound_logPrintf msg : sound key (logPrintf msg).
Proof. apply sound_silent. intros w. eexists _, _. split; reflexivity. Qed.

Lemma sound_sleep d : sound key (sleep d).
Proof. apply sound_silent. intros w. eexists _, _. split; reflexivity. Qed.

Lemma sound_pipedResult c : sound key (pipedResult E c).
Proof. apply sound_silent. intros w. eexists _, _. split; reflexivity. Qed.

Lemma sound_Start c : sound key (Start c).
Proof. apply sound_silent. intros w. eexists _, _. split; reflexivity. Qed.

Lemma sound_CombinedOutput c : sound key (CombinedOutput E c).
Proof. apply sound_silent. intros w. eexists _, _. split; reflexivity. Qed.

Lemma sound_uiSayAll lines : sound key (uiSayAll lines).
Proof.
  apply sound_silent. intros w. rewrite uiSayAll_sayLines.
  eexists _, _. split; [reflexivity|apply sayLines_frame].
Qed.

Lemma sound_setSSHHost ip :
  sound key (fun w => Ok tt (setConfig w (setSSHHost (config w) ip))).
Proof. apply sound_silent. intros w. eexists _, _. split; reflexivity. Qed.

Lemma sound_Put k v :
  k <> "config" -> k <> "ui" -> k <> "vm_name" -> k <> key ->
  sound key (Put k v).
Proof.
  intros ? ? ? ? w Hw. eexists _, _. split; [reflexivity|].
  apply readyWith_insert; assumption.
Qed.

Lemma sound_GetConfig : sound key GetConfig.
Proof.
  intros w Hw. pose proof Hw as [[[Hc _] _] _].
  unfold GetConfig, bind, GetOk. rewrite Hc. eexists _, _. split; [reflexivity|exact Hw].
Qed.

Lemma sound_GetUi : sound key GetUi.
Proof.
  intros w Hw. pose proof Hw as [[[_ Hu] _] _].
  unfold GetUi, bind, GetOk. rewrite Hu. eexists _, _. split; [reflexivity|exact Hw].
Qed.

Lemma sound_GetString_vm_name : sound key (GetString "vm_name").
Proof.
  intros w Hw. pose proof Hw as [[_ [n Hn]] _].
  unfold GetString, bind, GetOk. rewrite Hn. eexists _, _. split; [reflexivity|exact Hw].
Qed.

Lemma sound_GetString_key : sound key (GetString key).
Proof.
  intros w Hw. pose proof Hw as [_ [s Hs]].
  unfold GetString, bind, GetOk. rewrite Hs. eexists _, _. split; [reflexivity|exact Hw].
Qed.

End Sound.

Create HintDb sound.

#[export] Hint Resolve sound_ret sound_GetOk sound_uiSay sound_uiError
  sound_logPrintf sound_sleep sound_pipedResult sound_Start
  sound_CombinedOutput sound_uiSayAll sound_setSSHHost sound_GetConfig
  sound_GetUi sound_GetString_vm_name sound_GetString_key : sound.

Ltac sound_step :=
  match goal with
  | |- sound _ (bind _ _) => apply sound_bind; [|intros]
  | |- sound _ (Put _ _) =>
      apply sound_Put; first [discriminate|congruence]
  | |- sound _ (match ?x with _ => _ end) => destruct x
  | |- sound _ (let _ := _ in _) => cbv zeta
  | |- sound _ _ => solve [auto with sound]
  end.

Ltac sound := repeat sound_step.

Section SoundSteps.

Variable E : Env.

Lemma sound_runPiped key c startMsg what failed onSuccess :
  key <> "error" ->
  sound key onSuccess ->
  sound key (runPiped E c startMsg what failed onSuccess).
Proof. intros Hkey H. unfold runPiped. sound; try congruence. Qed.

Lemma sound_runFatal key c what onSuccess :
  key <> "error" ->
  sound key onSuccess -> sound key (runFatal E c what onSuccess).
Proof. intros Hkey H. unfold runFatal. sound; try congruence. Qed.

Lemma sound_pull : sound "vm_name" (stepPullImage_Run E).
Proof.
  unfold stepPullImage_Run. sound.
  apply sound_runPiped; [discriminate|sound].
Qed.

Lemma sound_createVM : sound "vm_name" (stepCreateVM_Run E).
Proof.
  unfold stepCreateVM_Run. sound. apply sound_runFatal; [discriminate|sound].
Qed.

Lemma sound_startVM : sound "vm_name" (stepStartVM_Run E).
Proof.
  unfold stepStartVM_Run. sound. apply sound_runFatal; [discriminate|sound].
Qed.

Lemma sound_stopVM : sound "vm_name" (stepStopVM_Run E).
Proof. unfold stepStopVM_Run. sound. Qed.

Lemma sound_createImage : sound "vm_name" (stepCreateImage_Run E).
Proof.
  unfold stepCreateImage_Run. sound. apply sound_runFatal; [discriminate|sound].
Qed.

Lemma sound_push : sound "image_name" (stepPushImage_Run E).
Proof.
  unfold stepPushImage_Run. sound;
    apply sound_runPiped; try discriminate; sound.
Qed.

Lemma sound_cleanup : sound "vm_name" (stepCleanupVM_Run E).
Proof. unfold stepCleanupVM_Run. sound. Qed.

Lemma sound_collaborator key o :
  key <> "error" -> sound key (collaborator o).
Proof. intros Hkey. unfold collaborator. sound; congruence. Qed.

Lemma sound_connect : sound "vm_ip" (Run StepConnect E 0).
Proof.
  cbn [Run StepConnect]. sound. apply sound_collaborator. discriminate.
Qed.

End SoundSteps.

Lemma chain_returns E fuel I steps :
  chain E fuel I steps ->
  forall i w, I w -> exists w', runSteps E fuel i steps w = Ok tt w'.
Proof.
  induction 1 as [I|I J step rest Hclean Hstep Hrest IH]; intros i w Hw.
  - exists w. reflexivity.
  - cbn [runSteps]. rewrite Hclean.
    destruct (cancelBefore E i); [eexists; reflexivity|].
    destruct (Hstep w Hw) as (a & w1 & Hrun & HJ).
    unfold_monad. rewrite Hrun.
    destruct (cancelDuring E i); eval_step.
    + rewrite lookup_insert_eq. eexists. reflexivity.
    + destruct (bag w1 !! StateCancelled); [eexists; reflexivity|].
      destruct a; [|eexists; reflexivity].
      destruct (IH (S i) w1 (HJ eq_refl)) as (w2 & ->). eexists. reflexivity.
Qed.

(** A step that is [sound] and [orderly] returns from a ready world in a
    ready world. *)
Lemma sound_step_ready (m : M StepAction) :
  sound "vm_name" m ->
  forall w, ready w ->
    exists a w', m w = Ok a w' /\ (a = ActionContinue -> ready w').
Proof.
  intros Hm w Hw. apply ready_readyWith in Hw.
  destruct (Hm w Hw) as (a & w' & Hrun & Hw').
  exists a, w'. split; [exact Hrun|]. intros _. apply ready_readyWith, Hw'.
Qed.

Lemma wait_sound E fuel w :
  timerFirst E -> 30 <= fuel -> ready w ->
  exists a w',
    stepWaitForVM_Run E fuel w = Ok a w'
    /\ (a = ActionContinue -> readyWith "vm_ip" w').
Proof.
  intros Hpick Hfuel Hw. pose proof Hw as [Hp [vmName Hn]].
  rewrite (wait_unfold E fuel w vmName Hp Hn).
  destruct (waitLoop_returns E vmName (now w) Hpick 29 fuel false 0
              (addUi w (Say ("Waiting for VM '" +:+ vmName +:+
                             "' to be ready..."))))
    as (a & w' & Hrun & _); [|lia|].
  { world_simpl. rewrite Z.sub_diag. change (0 / tickInterval)%Z with 0%Z. lia. }
  exists a, w'. split; [exact Hrun|]. intros ->.
  pose proof (orderly_waitLoop E vmName (now w) fuel false 0 _ _ _ Hrun)
    as [[Hf _] _].
  split; [eapply ready_frames; [exact Hf|exact Hw]|].
  apply waitLoop_safety in Hrun as (_ & _ & _ & Hout); world_simpl;
    [|lia|discriminate].
  destruct Hout as (_ & _ & Hbag & _). unfold has. rewrite Hbag.
  rewrite lookup_insert_ne by discriminate. rewrite lookup_insert_eq. eauto.
Qed.

Lemma chain_buildSteps E fuel c :
  timerFirst E -> 30 <= fuel -> chain E fuel ready (buildSteps c).
Proof.
  intros Hpick Hfuel. unfold buildSteps.
  apply (chain_cons E fuel ready ready); [reflexivity| |].
  { apply sound_step_ready, sound_pull. }
  apply (chain_cons E fuel ready ready); [reflexivity| |].
  { apply sound_step_ready, sound_createVM. }
  apply (chain_cons E fuel ready ready); [reflexivity| |].
  { apply sound_step_ready, sound_startVM. }
  apply (chain_cons E fuel ready (readyWith "vm_ip")); [reflexivity| |].
  { intros w Hw. apply wait_sound; assumption. }
  apply (chain_cons E fuel (readyWith "vm_ip") (readyWith "vm_ip")).
  { destruct (_ && _); reflexivity. }
  { intros w Hw.
    assert (sound "vm_ip"
              (Run (If (bool_decide (CommType (Comm c) = "ssh")
                        && bool_decide (SSHPrivateKeyFile (Comm c) = "")
                        && bool_decide (SSHPassword (Comm c) = ""))
                       StepSSHKeyGen) E fuel)) as Hs.
    { destruct (_ && _); cbn [If Run StepSSHKeyGen];
        [apply sound_collaborator; discriminate|apply sound_ret]. }
    destruct (Hs w Hw) as (a & w' & Hrun & Hw'). eauto. }
  apply (chain_cons E fuel (readyWith "vm_ip") ready); [reflexivity| |].
  { intros w Hw. destruct (sound_connect E w Hw) as (a & w' & Hrun & [Hw' _]).
    eauto. }
  apply (chain_cons E fuel ready ready); [reflexivity| |].
  { apply sound_step_ready. cbn [Run StepProvision].
    apply sound_collaborator. discriminate. }
  apply (chain_cons E fuel ready ready); [reflexivity| |].
  { apply sound_step_ready, sound_stopVM. }
  apply (chain_cons E fuel ready (readyWith "image_name")); [reflexivity| |].
  { intros w Hw. destruct (sound_step_ready _ (sound_createImage E) w Hw)
      as (a & w' & Hrun & Hw').
    exists a, w'. split; [exact Hrun|]. intros ->.
    split; [apply Hw'; reflexivity|].
    cbn [Run stepCreateImage] in Hrun.
    apply createImage_continue in Hrun as [Hbag _].
    unfold has. rewrite Hbag, lookup_insert_eq. eauto. }
  apply (chain_cons E fuel (readyWith "image_name") ready); [reflexivity| |].
  { intros w Hw. destruct (sound_push E w Hw) as (a & w' & Hrun & [Hw' _]).
    eauto. }
  apply (chain_cons E fuel ready ready); [reflexivity| |].
  { apply sound_step_ready, sound_cleanup. }
  constructor.
Qed.



(** ** The first step that stops the build *)

Lemma bind_ret_tt (m : M unit) w : (m ;;; ret tt) w = m w.
Proof. unfold bind, ret. destruct (m w) as [[] w'| |]; reflexivity. Qed.

Lemma prefix_good E fuel c pre step rest :
  buildSteps c = pre ++ step :: rest -> Forall (good E fuel) pre.
Proof.
  intros H. rewrite buildSteps_workSteps in H.
  assert (length pre <= length (workSteps c)) as Hlen.
  { apply (f_equal length) in H. rewrite !length_app in H. cbn [length] in H. lia. }
  assert (pre = take (length pre) (workSteps c)) as ->.
  { rewrite <- (take_app_le (workSteps c) [stepCleanupVM]) by exact Hlen.
    rewrite H, take_app_length. reflexivity. }
  apply Forall_take, good_workSteps.
Qed.

(** Steps that continue, without a cancellation, hand over to the steps
    after them. *)
Lemma runSteps_forward E fuel pre rest :
  Forall (good E fuel) pre ->
  forall i w w1,
    continued E fuel pre w w1 ->
    bag w !! StateCancelled = None ->
    (forall j, j < length pre ->
               cancelBefore E (i + j) = false /\ cancelDuring E (i + j) = false) ->
    runSteps E fuel i (pre ++ rest) w = runSteps E fuel (i + length pre) rest w1
    /\ advances stepKeys w w1
    /\ bag w1 !! "error" = bag w !! "error".
Proof.
  induction pre as [|step pre IH]; intros Hgood i w w1 Hcont Hc Hcancel.
  - inversion Hcont; subst. cbn [app length]. rewrite Nat.add_0_r.
    split; [reflexivity|]. split; [apply advances_refl|reflexivity].
  - apply Forall_cons in Hgood as [[Hclean Horderly] Hgood].
    inversion Hcont as [|? ? ? w' ? Hrun Hrest]; subst.
    destruct (Horderly _ _ _ Hrun) as [Hadv Herr].
    pose proof Hadv as [(_ & Hkeys & _) _].
    destruct (Hcancel 0 ltac:(cbn [length]; lia)) as [Hb Hd].
    rewrite Nat.add_0_r in Hb, Hd.
    destruct (IH Hgood (S i) w' w1 Hrest) as (Hruns & Hadv' & Herr').
    { rewrite Hkeys by not_step_key. exact Hc. }
    { intros j Hj. destruct (Hcancel (S j) ltac:(cbn [length]; lia)) as [? ?].
      rewrite Nat.add_succ_r in *. auto. }
    split; [|split; [eapply advances_trans; eassumption
                    |rewrite Herr', Herr by reflexivity; reflexivity]].
    cbn [app runSteps]. rewrite Hb, Hclean. unfold bind at 1. rewrite Hrun.
    rewrite Hd. unfold bind at 1, ret at 1. unfold bind at 1, GetOk.
    rewrite Hkeys, Hc by not_step_key.
    rewrite bind_ret_tt, Hruns. cbn [length].
    rewrite Nat.add_succ_r. reflexivity.
Qed.

Lemma report_error w e :
  bag w !! "error" = Some (VError e) -> report w = Ok (None, Some e) w.
Proof. intros H. unfold report. unfold_monad. rewrite H. reflexivity. Qed.



(** X21: when the build is found cancelled before a step, the steps
    before it having continued without a cancellation, [Builder.Run]
    returns [build was cancelled] and the build ends in the state the last
    of these steps left: neither the step nor any later one has run.  (A
    build cancelled before its first step ends in the state it began in,
    without a subprocess.) *)
Theorem cancellation_ends_build (E : Env) (fuel : nat) (c : Config)
    (pre : list Step) (step : Step) (rest : list Step) (w1 : World) :
  buildSteps c = pre ++ step :: rest ->
  (forall j, j < length pre ->
             cancelBefore E j = false /\ cancelDuring E j = false) ->
  cancelBefore E (length pre) = true ->
  continued E fuel pre (startWorld E c) w1 ->
  Builder_Run E fuel c
  = Ok (None, Some "build was cancelled") (flagged StateCancelled w1).
Proof.
  intros Hsteps Hcancel Hb Hcont.
  pose proof (prefix_good E fuel c pre step rest Hsteps) as Hgood.
  destruct (runSteps_forward E fuel pre (step :: rest) Hgood 0
              (startWorld E c) w1 Hcont)
    as (Hruns & _ & Herr1).
  { apply clear_startWorld. }
  { intros j Hj. apply Hcancel. lia. }
  cbn [Nat.add] in Hruns.
  rewrite Builder_Run_unfold. unfold bind at 1. rewrite Hsteps, Hruns.
  cbn [runSteps]. rewrite Hb. unfold Put. fold (flagged StateCancelled w1).
  unfold report, flagged. unfold_monad. eval_step.
  unfold StateCancelled, StateHalted in *.
  rewrite lookup_insert_ne by discriminate.
  destruct (clear_startWorld E c) as [Hnone _]. rewrite Herr1, Hnone.
  eval_step. rewrite lookup_insert_eq. reflexivity.
Qed.

Lemma cancellation_ends_build_witness :
  Builder_Run (cancellingEnv 2) 40 (demoConfig true)
  = Ok (None, Some "build was cancelled")
       (flagged StateCancelled
          (finalWorld
             (stepCreateVM_Run (cancellingEnv 2)
                (finalWorld
                   (stepPullImage_Run (cancellingEnv 2)
                      (startWorld (cancellingEnv 2) (demoConfig true)))
                   (initialWorld (demoConfig true))))
             (initialWorld (demoConfig true)))).
Proof.
  apply (cancellation_ends_build (cancellingEnv 2) 40 (demoConfig true)
           [stepPullImage; stepCreateVM] stepStartVM
           (skipn 3 (buildSteps (demoConfig true)))).
  - reflexivity.
  - intros j Hj. cbn [length] in Hj.
    destruct j as [|[|j]]; [split; reflexivity..|lia].
  - reflexivity.
  - econstructor; [vm_compute; reflexivity|].
    econstructor; [vm_compute; reflexivity|constructor].
Defined.

(** * [Config.Prepare] and [Builder.Prepare] *)

Lemma orDefault_nonempty s d : d <> "" -> orDefault s d <> "".
Proof. unfold orDefault. case_bool_decide; auto. Qed.

Lemma orDefault_keeps s d : s <> "" -> orDefault s d = s.
Proof. unfold orDefault. case_bool_decide; [contradiction|reflexivity]. Qed.

Lemma orDefault_idem s d : orDefault (orDefault s d) d = orDefault s d.
Proof.
  unfold orDefault. destruct (decide (s = "")) as [->|Hs].
  - rewrite (bool_decide_eq_true_2 ("" = "")) by reflexivity.
    case_bool_decide; congruence.
  - rewrite !(bool_decide_eq_false_2 (s = "")) by exact Hs. reflexivity.
Qed.

Lemma orDefaultZ_nonzero n d : d <> 0%Z -> orDefaultZ n d <> 0%Z.
Proof. unfold orDefaultZ. case_bool_decide; auto. Qed.

Lemma orDefaultZ_keeps n d : n <> 0%Z -> orDefaultZ n d = n.
Proof. unfold orDefaultZ. case_bool_decide; [contradiction|reflexivity]. Qed.

Lemma orDefaultZ_idem n d : orDefaultZ (orDefaultZ n d) d = orDefaultZ n d.
Proof.
  unfold orDefaultZ. destruct (decide (n = 0%Z)) as [->|Hn].
  - rewrite (bool_decide_eq_true_2 (0%Z = 0%Z)) by reflexivity.
    case_bool_decide; congruence.
  - rewrite !(bool_decide_eq_false_2 (n = 0%Z)) by exact Hn. reflexivity.
Qed.

Lemma validationErrors_nil H c :
  validationErrors H c = [] <->
  VMName c <> "" /\ BaseImage c <> "" /\ OutputImageName c <> ""
  /\ (UseAPI c = true \/ statNotExist H (MedaBinary c) = false
      \/ lookPathFails H (MedaBinary c) = false).
Proof.
  unfold validationErrors.
  destruct (UseAPI c), (statNotExist H (MedaBinary c)),
    (lookPathFails H (MedaBinary c));
    repeat case_bool_decide; cbn [negb andb app];
    split; try discriminate; intros; try tauto;
    repeat match goal with
           | H : _ /\ _ |- _ => destruct H
           | H : _ \/ _ |- _ => destruct H
           end;
    try contradiction; try discriminate.
Qed.

Lemma length_pos_nil {A} (l : list A) : (0 <? length l)%nat = false <-> l = [].
Proof. destruct l; cbn; split; intros; try reflexivity; discriminate. Qed.

(** X22: once the template is decoded, [Builder.Prepare] accepts the
    configuration, returning the two generated variables, no warning and
    no error, exactly when the VM name, the base image and the output
    image name are not empty and, unless the API is used, the binary (the
    configured one, or [meda]) exists or is on the path or cannot be
    examined; otherwise it returns an error and no variable.  Memory,
    CPUs, disk size, port and the other settings are not examined. *)
Theorem Prepare_accepts_iff (H : Host) (c : Config) (s : SSHSettings) :
  decodeError H = None ->
  let binary := orDefault (MedaBinary c) "meda" in
  let accepted :=
    VMName c <> "" /\ BaseImage c <> "" /\ OutputImageName c <> ""
    /\ (UseAPI c = true \/ statNotExist H binary = false
        \/ lookPathFails H binary = false) in
  (snd (Builder_Prepare H c s) = (GeneratedVars, [], None) <-> accepted)
  /\ (snd (Config_Prepare H c s) = None <-> accepted)
  /\ (~ accepted ->
      exists e, snd (Builder_Prepare H c s) = ([], [], Some e)).
Proof.
  intros Hd binary accepted.
  pose proof (validationErrors_nil H (withDefaults c)) as Hnil.
  cbn [withDefaults VMName BaseImage OutputImageName UseAPI MedaBinary] in Hnil.
  fold binary in Hnil. fold accepted in Hnil.
  unfold Builder_Prepare, Config_Prepare. rewrite Hd. cbv zeta.
  destruct (0 <? length (validationErrors H (withDefaults c)))%nat eqn:Hlen;
    cbn [snd].
  - assert (~ accepted) as Hn.
    { intros Hacc. apply Hnil in Hacc. rewrite Hacc in Hlen. discriminate Hlen. }
    split; [split; [discriminate|contradiction]|].
    split; [split; [discriminate|contradiction]|]. eauto.
  - apply length_pos_nil in Hlen. apply Hnil in Hlen.
    split; [split; [auto|reflexivity]|].
    split; [split; [auto|reflexivity]|]. contradiction.
Qed.

Lemma Prepare_accepts_iff_witness :
  (snd (Builder_Prepare (demoHost "meda") bareConfig bareSSH)
   = (GeneratedVars, [], None)
   <-> VMName bareConfig <> "" /\ BaseImage bareConfig <> ""
       /\ OutputImageName bareConfig <> ""
       /\ (UseAPI bareConfig = true
           \/ statNotExist (demoHost "meda") "meda" = false
           \/ lookPathFails (demoHost "meda") "meda" = false))
  /\ snd (Builder_Prepare (demoHost "meda") bareConfig bareSSH)
     = (GeneratedVars, [], None).
Proof.
  split; [|reflexivity].
  apply (Prepare_accepts_iff (demoHost "meda") bareConfig bareSSH).
  reflexivity.
Defined.

(** X23: once the template is decoded, [Config.Prepare] leaves every
    setting with a default set, whether or not it accepts the
    configuration: binary, host, port, memory, CPUs, disk size, tag,
    registry, communicator type, SSH port, user, timeout and password are
    the given values where these are not empty or zero, and the defaults
    otherwise; the handshake attempts are 10 and agent forwarding is
    disabled whatever was given; every other setting is as given. *)
Theorem Prepare_fills_defaults (H : Host) (c : Config) (s : SSHSettings) :
  decodeError H = None ->
  let c' := fst (fst (Config_Prepare H c s)) in
  let s' := snd (fst (Config_Prepare H c s)) in
  (MedaBinary c' = orDefault (MedaBinary c) "meda"
   /\ MedaHost c' = orDefault (MedaHost c) "127.0.0.1"
   /\ MedaPort c' = orDefaultZ (MedaPort c) 7777
   /\ Memory c' = orDefault (Memory c) "1G"
   /\ CPUs c' = orDefaultZ (CPUs c) 2
   /\ DiskSize c' = orDefault (DiskSize c) "10G"
   /\ OutputTag c' = orDefault (OutputTag c) "latest"
   /\ Registry c' = orDefault (Registry c) "ghcr.io"
   /\ CommType (Comm c') = orDefault (CommType (Comm c)) "ssh"
   /\ SSHPassword (Comm c') = orDefault (SSHPassword (Comm c)) "cirun"
   /\ SSHPort s' = orDefaultZ (SSHPort s) 22
   /\ SSHUsername s' = orDefault (SSHUsername s) "cirun"
   /\ SSHTimeout s' = orDefaultZ (SSHTimeout s) (5 * Minute))
  /\ (MedaBinary c' <> "" /\ MedaHost c' <> "" /\ MedaPort c' <> 0%Z
      /\ Memory c' <> "" /\ CPUs c' <> 0%Z /\ DiskSize c' <> ""
      /\ OutputTag c' <> "" /\ Registry c' <> ""
      /\ CommType (Comm c') <> "" /\ SSHPassword (Comm c') <> ""
      /\ SSHPort s' <> 0%Z /\ SSHUsername s' <> "" /\ SSHTimeout s' <> 0%Z)
  /\ (SSHHandshakeAttempts s' = 10%Z /\ SSHDisableAgentForwarding s' = true)
  /\ (UseAPI c' = UseAPI c /\ VMName c' = VMName c
      /\ BaseImage c' = BaseImage c /\ UserDataFile c' = UserDataFile c
      /\ OutputImageName c' = OutputImageName c
      /\ Organization c' = Organization c
      /\ PushToRegistry c' = PushToRegistry c /\ DryRun c' = DryRun c
      /\ SSHHost (Comm c') = SSHHost (Comm c)
      /\ SSHPrivateKeyFile (Comm c') = SSHPrivateKeyFile (Comm c)).
Proof.
  intros Hd. unfold Config_Prepare. rewrite Hd. cbv zeta. cbn [fst snd].
  split; [repeat split|]. split; [|split; [split; reflexivity|repeat split]].
  cbn [setComm withDefaults commDefaults sshDefaults MedaBinary MedaHost
         MedaPort Memory CPUs DiskSize OutputTag Registry Comm CommType
         SSHPassword SSHPort SSHUsername SSHTimeout].
  repeat split;
    first [apply orDefault_nonempty; discriminate
          |apply orDefaultZ_nonzero; discriminate].
Qed.

Lemma Prepare_fills_defaults_witness :
  let c' := fst (fst (Config_Prepare (demoHost "nothing") bareConfig bareSSH)) in
  let s' := snd (fst (Config_Prepare (demoHost "nothing") bareConfig bareSSH)) in
  MedaBinary c' <> "" /\ MedaHost c' <> "" /\ MedaPort c' <> 0%Z
  /\ Memory c' <> "" /\ CPUs c' <> 0%Z /\ DiskSize c' <> ""
  /\ OutputTag c' <> "" /\ Registry c' <> ""
  /\ CommType (Comm c') <> "" /\ SSHPassword (Comm c') <> ""
  /\ SSHPort s' <> 0%Z /\ SSHUsername s' <> "" /\ SSHTimeout s' <> 0%Z.
Proof.
  exact (proj1 (proj2 (Prepare_fills_defaults (demoHost "nothing") bareConfig
                         bareSSH eq_refl))).
Defined.

(** X24: [Config.Prepare] is idempotent: preparing a prepared
    configuration again, on the same host, changes nothing and gives the
    same verdict. *)
Theorem Prepare_idempotent (H : Host) (c : Config) (s : SSHSettings) :
  decodeError H = None ->
  let '(c', s', verdict) := Config_Prepare H c s in
  Config_Prepare H c' s' = (c', s', verdict).
Proof.
  intros Hd. unfold Config_Prepare. rewrite Hd. cbv zeta.
  assert (withDefaults (setComm (withDefaults c)
                          (commDefaults (Comm (withDefaults c))))
          = setComm (withDefaults c) (commDefaults (Comm (withDefaults c))))
    as Hc.
  { unfold withDefaults, setComm.
    cbn [Comm MedaBinary MedaHost MedaPort UseAPI VMName BaseImage Memory CPUs
           DiskSize UserDataFile OutputImageName OutputTag Registry
           Organization PushToRegistry DryRun].
    rewrite !orDefault_idem, !orDefaultZ_idem. reflexivity. }
  rewrite Hc.
  assert (commDefaults (commDefaults (Comm (withDefaults c)))
          = commDefaults (Comm (withDefaults c))) as Hcomm.
  { unfold commDefaults. cbn [CommType SSHHost SSHPrivateKeyFile SSHPassword].
    rewrite !orDefault_idem. reflexivity. }
  assert (sshDefaults (sshDefaults s) = sshDefaults s) as Hs.
  { unfold sshDefaults.
    cbn [SSHPort SSHUsername SSHTimeout SSHHandshakeAttempts
           SSHDisableAgentForwarding].
    rewrite !orDefault_idem, !orDefaultZ_idem. reflexivity. }
  assert (validationErrors H (setComm (withDefaults c)
                                (commDefaults (Comm (withDefaults c))))
          = validationErrors H (withDefaults c)) as Hv by reflexivity.
  rewrite Hv, Hs.
  f_equal. f_equal.
  change (Comm (setComm (withDefaults c) (commDefaults (Comm (withDefaults c)))))
    with (commDefaults (Comm (withDefaults c))).
  rewrite Hcomm. reflexivity.
Qed.

Lemma Prepare_idempotent_witness :
  Config_Prepare (demoHost "meda")
    (fst (fst (Config_Prepare (demoHost "meda") bareConfig bareSSH)))
    (snd (fst (Config_Prepare (demoHost "meda") bareConfig bareSSH)))
  = Config_Prepare (demoHost "meda") bareConfig bareSSH.
Proof.
  apply (Prepare_idempotent (demoHost "meda") bareConfig bareSSH).
  reflexivity.
Defined.

Lemma waitLoop_withKeygen E o vmName t0 fuel : forall buffered k w,
  waitLoop (withKeygen E o) fuel vmName t0 buffered k w
  = waitLoop E fuel vmName t0 buffered k w.
Proof.
  induction fuel as [|fuel IH]; intros buffered k w; [reflexivity|].
  cbn [waitLoop]. change (selectPick (withKeygen E o) k) with (selectPick E k).
  destruct (select (selectPick E k) t0 (now w) buffered) as [[] at_];
    [reflexivity|].
  unfold_monad. cbn [withKeygen execCombined]. eval_step.
  destruct (negb _ && negb _); [reflexivity|]. eval_step. apply IH.
Qed.

Lemma bind_ext {A B} (m m' : M A) (k k' : A -> M B) w :
  m w = m' w -> (forall a w1, k a w1 = k' a w1) ->
  bind m k w = bind m' k' w.
Proof. intros Hm Hk. unfold bind. rewrite Hm. destruct (m' w); auto. Qed.

(** The runner on steps that two environments run alike. *)
Lemma runSteps_ext E E' fuel steps :
  (forall i, cancelBefore E' i = cancelBefore E i) ->
  (forall i, cancelDuring E' i = cancelDuring E i) ->
  Forall (fun step => forall w, Run step E' fuel w = Run step E fuel w) steps ->
  forall i w, runSteps E' fuel i steps w = runSteps E fuel i steps w.
Proof.
  intros Hb Hd. induction steps as [|step steps IH]; intros Hsteps i w;
    [reflexivity|].
  apply Forall_cons in Hsteps as [Hstep Hsteps].
  cbn [runSteps]. rewrite Hb. destruct (cancelBefore E i); [reflexivity|].
  apply bind_ext; [apply Hstep|intros a w1].
  apply bind_ext; [rewrite Hd; reflexivity|intros [] w2].
  apply bind_ext; [reflexivity|intros cancelled w3].
  apply bind_ext; [|reflexivity].
  destruct cancelled; [reflexivity|]. destruct a; [apply IH, Hsteps|reflexivity].
Qed.

(** X25: a build of a configuration that [Config.Prepare] has prepared
    never generates an SSH key: [Prepare] leaves the password [cirun]
    where none was given, so that the condition under which [Builder.Run]
    includes the key generation step is false, and the result of the build
    does not depend on what that step would do. *)
Theorem prepared_build_generates_no_key (H : Host) (c : Config)
    (s : SSHSettings) (E : Env) (o : ExtOutcome) (fuel : nat) :
  decodeError H = None ->
  let c' := fst (fst (Config_Prepare H c s)) in
  buildSteps c' !! 4 = Some (If false StepSSHKeyGen)
  /\ Builder_Run (withKeygen E o) fuel c' = Builder_Run E fuel c'.
Proof.
  intros Hd. unfold Config_Prepare. rewrite Hd. cbv zeta. cbn [fst].
  set (c' := setComm (withDefaults c) (commDefaults (Comm (withDefaults c)))).
  assert (bool_decide (CommType (Comm c') = "ssh")
          && bool_decide (SSHPrivateKeyFile (Comm c') = "")
          && bool_decide (SSHPassword (Comm c') = "") = false) as Hcond.
  { apply andb_false_iff. right. apply bool_decide_eq_false_2.
    apply orDefault_nonempty. discriminate. }
  split.
  - unfold buildSteps. rewrite Hcond. reflexivity.
  - rewrite !Builder_Run_unfold. unfold bind.
    change (startWorld (withKeygen E o) c') with (startWorld E c').
    rewrite (runSteps_ext E (withKeygen E o)); [reflexivity..|].
    unfold buildSteps. rewrite Hcond.
    repeat (apply Forall_cons; split); try solve [constructor];
      intros w; try reflexivity.
    cbn [Run stepWaitForVM]. unfold stepWaitForVM_Run, bind.
    destruct (GetConfig w) as [? w1| |]; [|reflexivity..].
    destruct (GetUi w1) as [? w2| |]; [|reflexivity..].
    destruct (GetString "vm_name" w2) as [? w3| |]; [|reflexivity..].
    destruct (uiSay _ w3) as [? w4| |]; [|reflexivity..].
    apply waitLoop_withKeygen.
Qed.

Lemma prepared_build_generates_no_key_witness :
  buildSteps (fst (fst (Config_Prepare (demoHost "meda") bareConfig bareSSH)))
    !! 4 = Some (If false StepSSHKeyGen)
  /\ Builder_Run (withKeygen (plainEnv true) (ExtHalt (Some "no entropy"))) 40
       (fst (fst (Config_Prepare (demoHost "meda") bareConfig bareSSH)))
     = Builder_Run (plainEnv true) 40
         (fst (fst (Config_Prepare (demoHost "meda") bareConfig bareSSH))).
Proof.
  apply (prepared_build_generates_no_key (demoHost "meda") bareConfig bareSSH
           (plainEnv true) (ExtHalt (Some "no entropy")) 40).
  reflexivity.
Defined.

(** * [Artifact]: identity, state and removal *)

Lemma continued_advances E fuel l w w' :
  Forall (good E fuel) l -> continued E fuel l w w' ->
  advances stepKeys w w' /\ bag w' !! "error" = bag w !! "error".
Proof.
  intros Hgood Hcont. induction Hcont as [|step rest w w1 w2 Hrun Hrest IH].
  - split; [apply advances_refl|reflexivity].
  - apply Forall_cons in Hgood as [[_ Horderly] Hgood].
    destruct (Horderly _ _ _ Hrun) as [Hadv Herr].
    destruct (IH Hgood) as [Hadv' Herr'].
    split; [eapply advances_trans; eassumption|].
    rewrite Herr', Herr by reflexivity. reflexivity.
Qed.

(** What a build that ends in a clear state has stored as the image name,
    and the configuration it ends with. *)
Lemma build_image_name E fuel c w :
  runSteps E fuel 0 (buildSteps c) (startWorld E c) = Ok tt w -> clear w ->
  bag w !! "image_name"
  = Some (VString (OutputImageName c +:+ ":" +:+ OutputTag c))
  /\ sameOutput c (config w).
Proof.
  intros Hrun Hclear.
  destruct (clear_build E fuel c w Hrun Hclear)
    as (w1 & Hcont & [(Hsame & _) _] & _ & Hbag & Hcfg & _).
  split; [|rewrite Hcfg; exact Hsame].
  change (workSteps c)
    with (firstn 8 (workSteps c) ++ [stepCreateImage; stepPushImage]) in Hcont.
  apply continued_app_inv in Hcont as (w8 & Hcont8 & Hcont).
  apply continued_advances in Hcont8 as [[(Hsame8 & _) _] _];
    [|apply Forall_take, good_workSteps].
  inversion Hcont as [|? ? ? w9 ? Himage Hcont']; subst.
  inversion Hcont' as [|? ? ? w10 ? Hpush Hcont'']; subst.
  inversion Hcont''; subst.
  apply createImage_continue in Himage as [Hbag9 _].
  apply push_continue in Hpush as [_ Hbag10].
  rewrite Hbag.
  cbn [config startWorld initialWorld setBag] in Hsame8.
  unfold sameOutput in Hsame8.
  assert (OutputImageName (config w8) = OutputImageName c
          /\ OutputTag (config w8) = OutputTag c) as [Hn Ht]
    by (rewrite Hsame8; split; reflexivity).
  destruct Hbag10 as [[_ ->]|[_ ->]]; rewrite Hbag9;
    [|rewrite lookup_insert_ne by discriminate];
    rewrite lookup_insert_eq, Hn, Ht; reflexivity.
Qed.

(** X26: [Artifact.Destroy] does not know the development mode: for a
    configuration with the binary [cargo], for which every step runs
    [cargo run --] in the meda tree, it runs [cargo images rm NAME] in the
    current directory, a command of the shape of no step. *)
Theorem Destroy_ignores_cargo_mode (a : Artifact) :
  UseAPI (ArtifactConfig a) = false ->
  MedaBinary (ArtifactConfig a) = "cargo" ->
  destroyCmd a
  = {| Path := "cargo"; Args := ["images"; "rm"; ImageName a]; Dir := "" |}
  /\ forall curlArgs cliArgs,
       destroyCmd a <> medaCmd (ArtifactConfig a) curlArgs cliArgs.
Proof.
  intros Hapi Hbin. unfold destroyCmd, medaCmd. rewrite Hapi, Hbin.
  split; [reflexivity|]. intros curlArgs cliArgs.
  rewrite bool_decide_eq_true_2 by reflexivity. discriminate.
Qed.

Lemma Destroy_ignores_cargo_mode_witness :
  destroyCmd {| ImageName := "img:v1"; PushedImage := "";
                ArtifactConfig := cargoConfig |}
  = {| Path := "cargo"; Args := ["images"; "rm"; "img:v1"]; Dir := "" |}
  /\ forall curlArgs cliArgs,
       destroyCmd {| ImageName := "img:v1"; PushedImage := "";
                     ArtifactConfig := cargoConfig |}
       <> medaCmd cargoConfig curlArgs cliArgs.
Proof.
  apply (Destroy_ignores_cargo_mode
           {| ImageName := "img:v1"; PushedImage := "";
              ArtifactConfig := cargoConfig |}); reflexivity.
Defined.

(** X27: the artifact of a successful build is identified by the image
    name the build composed from the configuration as given; its state
    gives the registry and the organization of that configuration, also
    when nothing was published; and [Destroy] starts one subprocess, which
    removes the image of that name through the API or the binary of that
    configuration, and returns an error, [failed to destroy image NAME:
    ERR], exactly when the subprocess fails. *)
Theorem destroy_of_built_artifact (E : Env) (fuel : nat) (c : Config)
    (a : Artifact) (w : World) (E' : Env) (w0 : World) :
  Builder_Run E fuel c = Ok (Some a, None) w ->
  let name := builtImage c in
  let cmd :=
    if UseAPI c
    then {| Path := "curl";
            Args := ["-X"; "DELETE";
                     "http://" +:+ MedaHost c +:+ ":" +:+ itoa (MedaPort c)
                     +:+ "/api/v1/images/" +:+ name];
            Dir := "" |}
    else {| Path := MedaBinary c; Args := ["images"; "rm"; name]; Dir := "" |} in
  let r := execCombined E' (length (calls w0)) cmd in
  Artifact_Id a = name
  /\ Artifact_State a "image_name" = Some name
  /\ Artifact_State a "registry" = Some (Registry c)
  /\ Artifact_State a "organization" = Some (Organization c)
  /\ exists w1,
       Artifact_Destroy E' a w0
       = Ok (match err r with
             | Some e => Some ("failed to destroy image " +:+ name +:+ ": " +:+ e)
             | None => None
             end) w1
       /\ calls w1 = oneCall w0 cmd
       /\ bag w1 = bag w0.
Proof.
  intros Hrun name cmd r. subst r.
  apply Builder_Run_inv in Hrun as [Hrun Hreport].
  apply report_artifact in Hreport
    as (_ & _ & He & Hc & Hh & Hname & _ & Hcfg).
  destruct (build_image_name E fuel c w Hrun ltac:(split; [|split]; assumption))
    as [Himage Hsame].
  rewrite Himage in Hname. injection Hname as Hname.
  fold (builtImage c) in Hname. fold name in Hname.
  unfold sameOutput in Hsame. rewrite <- Hcfg in Hsame.
  assert (destroyCmd a = cmd) as Hcmd.
  { unfold destroyCmd, cmd. rewrite <- Hname, Hsame. reflexivity. }
  unfold Artifact_Id, Artifact_State. rewrite <- Hname.
  split; [reflexivity|]. split; [reflexivity|].
  split; [rewrite Hsame; reflexivity|]. split; [rewrite Hsame; reflexivity|].
  unfold Artifact_Destroy, RunCmd, bind, ret. rewrite Hcmd, <- Hname.
  destruct (err _); eexists; (split; [reflexivity|]); split; reflexivity.
Qed.

Lemma destroy_of_built_artifact_witness :
  Artifact_Id {| ImageName := "img:v1"; PushedImage := "ghcr.io/acme/img:v1";
                 ArtifactConfig := setSSHHost (demoConfig true) "10.0.0.5" |}
  = "img:v1"
  /\ exists w1,
       Artifact_Destroy (failingEnv "images" "image is in use")
         {| ImageName := "img:v1"; PushedImage := "ghcr.io/acme/img:v1";
            ArtifactConfig := setSSHHost (demoConfig true) "10.0.0.5" |}
         (demoWorld true)
       = Ok (Some "failed to destroy image img:v1: exit status 1") w1
       /\ calls w1 = oneCall (demoWorld true)
                       {| Path := "meda"; Args := ["images"; "rm"; "img:v1"];
                          Dir := "" |}
       /\ bag w1 = bag (demoWorld true).
Proof.
  destruct (destroy_of_built_artifact (plainEnv true) 40 (demoConfig true)
              {| ImageName := "img:v1"; PushedImage := "ghcr.io/acme/img:v1";
                 ArtifactConfig := setSSHHost (demoConfig true) "10.0.0.5" |}
              (finalWorld (Builder_Run (plainEnv true) 40 (demoConfig true))
                 (initialWorld (demoConfig true)))
              (failingEnv "images" "image is in use") (demoWorld true))
    as (Hid & _ & _ & _ & Hdestroy).
  - vm_compute. reflexivity.
  - split; [exact Hid|exact Hdestroy].
Defined.

(** * The subprocesses of a successful build *)

Lemma commands_sameOutput c c' :
  sameOutput c c' ->
  imagesCmd c' = imagesCmd c /\ pullCmd c' = pullCmd c
  /\ (forall v, createVMCmd c' v = createVMCmd c v)
  /\ (forall v, startVMCmd c' v = startVMCmd c v)
  /\ (forall v, ipCmd c' v = ipCmd c v)
  /\ (forall v, stopVMCmd c' v = stopVMCmd c v)
  /\ (forall v, createImageCmd c' v = createImageCmd c v)
  /\ (forall n, pushCmd c' n = pushCmd c n)
  /\ (forall v, deleteVMCmd c' v = deleteVMCmd c v)
  /\ PushToRegistry c' = PushToRegistry c
  /\ builtImage c' = builtImage c.
Proof. unfold sameOutput. intros ->. repeat split; reflexivity. Qed.

Lemma building_frames c vmName w w' :
  frames stepKeys w w' -> building c vmName w -> building c vmName w'.
Proof.
  intros (Hsame & Hkeys & _) [Hc Hn]. split.
  - eapply sameOutput_trans; eassumption.
  - rewrite Hkeys by not_step_key. exact Hn.
Qed.

Lemma commands_app w w' l :
  calls w' = calls w ++ l -> commands w' = commands w ++ map command l.
Proof. unfold commands. intros ->. apply map_app. Qed.

Section Protocol.

Variable E : Env.
Variable c : Config.
Variable vmName : string.

Lemma pull_commands w w' :
  building c vmName w ->
  stepPullImage_Run E w = Ok ActionContinue w' ->
  building c vmName w'
  /\ exists pulled : bool,
       commands w' = commands w ++ imagesCmd c
                                   :: (if pulled then [pullCmd c] else []).
Proof.
  intros Hb Hrun.
  split; [eapply building_frames; [apply (orderly_pull E _ _ _ Hrun)|exact Hb]|].
  destruct Hb as [Hsame _].
  destruct (commands_sameOutput _ _ Hsame) as (Hi & Hp & _).
  revert Hrun. unfold stepPullImage_Run. unfold_monad.
  destruct (bag w !! "config") as [[]|]; try discriminate. eval_step.
  destruct (bag w !! "ui") as [[]|]; try discriminate. eval_step.
  destruct (negb _).
  - eval_step. intros Hrun.
    apply runPiped_continue in Hrun as Hcont.
    destruct Hcont as (w0 & _ & _ & Hsucc).
    exists true. revert Hrun.
    destruct (stdoutPipeErr (execPiped E (S (length (calls w))) (pullCmd (config w))))
      eqn:H1.
    { unfold runPiped. unfold_monad. world_simpl.
      rewrite length_app, Nat.add_1_r. cbn [length]. rewrite H1.
      rewrite bool_decide_eq_true_2 by (eexists; reflexivity). discriminate. }
    destruct (stderrPipeErr (execPiped E (S (length (calls w))) (pullCmd (config w))))
      eqn:H2.
    { unfold runPiped. unfold_monad. world_simpl.
      rewrite length_app, Nat.add_1_r. cbn [length]. rewrite H1, H2.
      rewrite bool_decide_eq_false_2 by (intros [? ?]; discriminate).
      rewrite bool_decide_eq_true_2 by (eexists; reflexivity). discriminate. }
    destruct (startErr (execPiped E (S (length (calls w))) (pullCmd (config w))))
      eqn:H3.
    { rewrite (runPiped_not_started E _ _ _ _ _ _ s);
        world_simpl; rewrite ?length_app, ?Nat.add_1_r; try assumption.
      discriminate. }
    rewrite runPiped_started
      by (world_simpl; rewrite length_app, Nat.add_1_r; repeat split; assumption).
    cbv zeta. destruct (pullFailed _ _); [discriminate|]. eval_step.
    intros [= <-]. unfold commands. world_simpl.
    match goal with
    | |- context [afterPiped ?r ?cmd ?w1] =>
        destruct (afterPiped_frame r cmd w1) as (_ & Hcalls & _)
    end.
    world_simpl. rewrite Hcalls, !map_app, <- app_assoc. cbn [map command app].
    rewrite Hi, Hp. reflexivity.
  - eval_step. intros [= <-]. exists false. unfold commands. world_simpl.
    rewrite map_app. cbn [map command]. rewrite Hi. reflexivity.
Qed.

Lemma createVM_commands w w' :
  building c vmName w ->
  stepCreateVM_Run E w = Ok ActionContinue w' ->
  building c vmName w'
  /\ commands w' = commands w ++ [createVMCmd c vmName].
Proof.
  intros Hb Hrun.
  split; [eapply building_frames; [apply (orderly_createVM E _ _ _ Hrun)|exact Hb]|].
  destruct Hb as [Hsame Hn].
  destruct (commands_sameOutput _ _ Hsame) as (_ & _ & Hcmd & _).
  revert Hrun. unfold stepCreateVM_Run. unfold_monad.
  destruct (bag w !! "config") as [[]|]; try discriminate. eval_step.
  destruct (bag w !! "ui") as [[]|]; try discriminate. eval_step.
  rewrite Hn. eval_step.
  rewrite runFatal_by_exit_status. cbv zeta.
  destruct (err _); [discriminate|]. eval_step.
  intros [= <-]. unfold commands. world_simpl.
  rewrite map_app. cbn [map command]. rewrite Hcmd. reflexivity.
Qed.

Lemma startVM_commands w w' :
  building c vmName w ->
  stepStartVM_Run E w = Ok ActionContinue w' ->
  building c vmName w'
  /\ commands w' = commands w ++ [startVMCmd c vmName].
Proof.
  intros Hb Hrun.
  split; [eapply building_frames; [apply (orderly_startVM E _ _ _ Hrun)|exact Hb]|].
  destruct Hb as [Hsame Hn].
  destruct (commands_sameOutput _ _ Hsame) as (_ & _ & _ & Hcmd & _).
  revert Hrun. unfold stepStartVM_Run. unfold_monad.
  destruct (bag w !! "config") as [[]|]; try discriminate. eval_step.
  destruct (bag w !! "ui") as [[]|]; try discriminate. eval_step.
  rewrite Hn. eval_step.
  rewrite runFatal_by_exit_status. cbv zeta.
  destruct (err _); [discriminate|]. eval_step.
  intros [= <-]. unfold commands. world_simpl.
  rewrite map_app. cbn [map command]. rewrite Hcmd. reflexivity.
Qed.

Lemma stopVM_commands w w' :
  building c vmName w ->
  stepStopVM_Run E w = Ok ActionContinue w' ->
  building c vmName w'
  /\ commands w' = commands w ++ [stopVMCmd c vmName].
Proof.
  intros Hb Hrun.
  split; [eapply building_frames; [apply (orderly_stopVM E _ _ _ Hrun)|exact Hb]|].
  destruct Hb as [Hsame Hn].
  destruct (commands_sameOutput _ _ Hsame) as (_ & _ & _ & _ & _ & Hcmd & _).
  revert Hrun. unfold stepStopVM_Run. unfold_monad.
  destruct (bag w !! "config") as [[]|]; try discriminate. eval_step.
  destruct (bag w !! "ui") as [[]|]; try discriminate. eval_step.
  rewrite Hn. eval_step.
  destruct (err _); eval_step; intros [= <-]; unfold commands; world_simpl;
    rewrite map_app; cbn [map command]; rewrite Hcmd; reflexivity.
Qed.

Lemma createImage_commands w w' :
  building c vmName w ->
  stepCreateImage_Run E w = Ok ActionContinue w' ->
  building c vmName w'
  /\ commands w' = commands w ++ [createImageCmd c vmName]
  /\ bag w' !! "image_name" = Some (VString (builtImage c)).
Proof.
  intros Hb Hrun.
  split; [eapply building_frames; [apply (orderly_createImage E _ _ _ Hrun)|exact Hb]|].
  destruct Hb as [Hsame Hn].
  destruct (commands_sameOutput _ _ Hsame)
    as (_ & _ & _ & _ & _ & _ & Hcmd & _ & _ & _ & Himg).
  revert Hrun. unfold stepCreateImage_Run. unfold_monad.
  destruct (bag w !! "config") as [[]|]; try discriminate. eval_step.
  destruct (bag w !! "ui") as [[]|]; try discriminate. eval_step.
  rewrite Hn. eval_step.
  rewrite runFatal_by_exit_status. cbv zeta.
  destruct (err _); [discriminate|]. eval_step.
  intros [= <-]. unfold commands. world_simpl.
  rewrite map_app. cbn [map command]. rewrite Hcmd.
  split; [reflexivity|]. rewrite lookup_insert_eq. fold (builtImage (config w)).
  rewrite Himg. reflexivity.
Qed.

Lemma push_commands w w' :
  building c vmName w ->
  bag w !! "image_name" = Some (VString (builtImage c)) ->
  stepPushImage_Run E w = Ok ActionContinue w' ->
  building c vmName w'
  /\ commands w' = commands w
                   ++ (if PushToRegistry c then [pushCmd c (builtImage c)] else []).
Proof.
  intros Hb Himage Hrun.
  split; [eapply building_frames; [apply (orderly_push E _ _ _ Hrun)|exact Hb]|].
  destruct Hb as [Hsame Hn].
  destruct (commands_sameOutput _ _ Hsame)
    as (_ & _ & _ & _ & _ & _ & _ & Hcmd & _ & Hpush & _).
  rewrite <- Hpush.
  revert Hrun. unfold stepPushImage_Run. unfold_monad.
  destruct (bag w !! "config") as [[]|]; try discriminate. eval_step.
  destruct (bag w !! "ui") as [[]|]; try discriminate. eval_step.
  rewrite Himage. eval_step.
  destruct (PushToRegistry (config w)); cbn [negb]; eval_step.
  - assert (forall m (w0 : World),
              commands w0 = commands w -> calls w0 = calls w -> now w0 = now w ->
              runPiped E (pushCmd (config w) (builtImage c))
                "failed to start push command: "
                "failed to push image" pushFailed
                (fun w1 => Ok ActionContinue
                   (setBag (addUi w1 (Say m))
                      (<["pushed_image" := VString (targetImage (config w))]>
                         (bag (addUi w1 (Say m)))))) w0
              = Ok ActionContinue w' ->
              commands w' = commands w ++ [pushCmd c (builtImage c)])
      as Hrunp.
    { intros m w0 Hcmds Hcalls Hnow.
      destruct (stdoutPipeErr (execPiped E (length (calls w0))
                                 (pushCmd (config w) (builtImage c)))) eqn:H1.
      { unfold runPiped. unfold_monad. rewrite H1.
        rewrite bool_decide_eq_true_2 by (eexists; reflexivity). discriminate. }
      destruct (stderrPipeErr (execPiped E (length (calls w0))
                                 (pushCmd (config w) (builtImage c)))) eqn:H2.
      { unfold runPiped. unfold_monad. rewrite H1, H2.
        rewrite bool_decide_eq_false_2 by (intros [? ?]; discriminate).
        rewrite bool_decide_eq_true_2 by (eexists; reflexivity). discriminate. }
      destruct (startErr (execPiped E (length (calls w0))
                            (pushCmd (config w) (builtImage c)))) eqn:H3.
      { rewrite (runPiped_not_started E _ _ _ _ _ _ s) by assumption.
        discriminate. }
      rewrite runPiped_started by (repeat split; assumption).
      cbv zeta. destruct (pushFailed _ _); [discriminate|].
      intros [= <-]. unfold commands in *. world_simpl.
      match goal with
      | |- context [afterPiped ?r ?cmd ?w1] =>
          destruct (afterPiped_frame r cmd w1) as (_ & Hc' & _)
      end.
      rewrite Hc', map_app, Hcmds. cbn [map command]. rewrite Hcmd.
      reflexivity. }
    destruct (Contains (Registry (config w)) "ghcr.io").
    + destruct (bool_decide (Getenv E "GITHUB_TOKEN" = "")); eval_step;
        [discriminate|].
      intros H. apply Hrunp in H; [exact H|reflexivity..].
    + intros H. apply Hrunp in H; [exact H|reflexivity..].
  - intros [= <-]. unfold commands. world_simpl. rewrite app_nil_r. reflexivity.
Qed.

Lemma collaborator_continue o w w' :
  collaborator o w = Ok ActionContinue w' -> w' = w.
Proof. destruct o as [|[e|]]; cbn; intros [=]; congruence. Qed.

Lemma connect_commands w w' :
  building c vmName w ->
  Run StepConnect E 0 w = Ok ActionContinue w' ->
  building c vmName w' /\ commands w' = commands w.
Proof.
  intros Hb Hrun.
  split; [eapply building_frames; [apply (orderly_connect E _ _ _ Hrun)|exact Hb]|].
  revert Hrun. cbn [Run StepConnect]. unfold_monad.
  destruct (bag w !! "vm_ip") as [[]|]; try discriminate. eval_step.
  destruct (connect E) as [|[e|]]; cbn; intros [= <-]; reflexivity.
Qed.

Lemma waitLoop_commands t0 fuel : forall buffered k w w',
  waitLoop E fuel vmName t0 buffered k w = Ok ActionContinue w' ->
  exists polls,
    commands w' = commands w ++ replicate (S polls) (ipCmd (config w) vmName).
Proof.
  induction fuel as [|fuel IH]; intros buffered k w w' H; [discriminate H|].
  destruct (select (selectPick E k) t0 (now w) buffered) as [[] at_] eqn:Hsel.
  - rewrite (waitLoop_timeout E vmName t0 fuel buffered k w at_ Hsel) in H.
    discriminate H.
  - destruct (waitLoop_tick E vmName t0 fuel buffered k w at_ Hsel)
      as [[_ Hloop]|(_ & _ & w1 & Hrun & Hcalls & _)].
    + rewrite Hloop in H. apply IH in H as [polls Hpolls].
      destruct (afterPoll_frame E vmName at_ w) as (_ & Hcfg & Hcalls & _).
      exists (S polls). rewrite Hpolls. unfold commands.
      rewrite Hcalls, Hcfg, map_app, <- app_assoc. reflexivity.
    + rewrite Hrun in H. injection H as <-. exists 0.
      apply commands_app in Hcalls. exact Hcalls.
Qed.

Lemma wait_commands fuel w w' :
  building c vmName w ->
  stepWaitForVM_Run E fuel w = Ok ActionContinue w' ->
  building c vmName w'
  /\ exists polls,
       commands w' = commands w ++ replicate (S polls) (ipCmd c vmName).
Proof.
  intros Hb Hrun.
  split; [eapply building_frames; [apply (orderly_wait E _ _ _ _ Hrun)|exact Hb]|].
  destruct Hb as [Hsame Hn].
  destruct (commands_sameOutput _ _ Hsame) as (_ & _ & _ & _ & Hcmd & _).
  revert Hrun. unfold stepWaitForVM_Run. unfold_monad.
  destruct (bag w !! "config") as [[]|]; try discriminate. eval_step.
  destruct (bag w !! "ui") as [[]|]; try discriminate. eval_step.
  rewrite Hn. eval_step. intros Hrun.
  apply waitLoop_commands in Hrun as [polls Hpolls].
  exists polls. rewrite Hpolls. world_simpl. rewrite Hcmd. reflexivity.
Qed.

Lemma cleanup_commands w w' :
  building c vmName w ->
  stepCleanupVM_Run E w = Ok ActionContinue w' ->
  commands w' = commands w ++ [deleteVMCmd c vmName].
Proof.
  intros [Hsame Hn] Hrun.
  destruct (commands_sameOutput _ _ Hsame)
    as (_ & _ & _ & _ & _ & _ & _ & _ & Hcmd & _).
  apply cleanup_best_effort in Hrun as (_ & _ & _ & vm & Hvm & Hcalls).
  rewrite Hn in Hvm. injection Hvm as <-.
  apply commands_app in Hcalls. rewrite Hcalls. cbn [map command].
  rewrite Hcmd. reflexivity.
Qed.

End Protocol.

(** X28: a build that returns an artifact has talked to the backend in
    one order: the check of the base image, the pull if the image was
    missing, create, start, one poll of the address or more, stop, the
    snapshot, the push if it is enabled, and the delete; every command is
    that of the configuration as given, for the generated VM name. *)
Theorem successful_build_protocol (E : Env) (fuel : nat) (c : Config)
    (r : RunResult) (w : World) :
  Builder_Run E fuel c = Ok r w -> is_Some (fst r) ->
  exists (pulled : bool) (polls : nat),
    commands w = protocol c (buildVMName E c) pulled polls.
Proof.
  intros Hrun [a Ha]. apply Builder_Run_inv in Hrun as [Hrun Hreport].
  destruct r as [oa e]. cbn [fst] in Ha. subst oa.
  apply report_artifact in Hreport as (_ & _ & He & Hc & Hh & _).
  destruct (clear_build E fuel c w Hrun ltac:(split; [|split]; assumption))
    as (w10 & Hcont & _ & Hclean & _).
  assert (building c (buildVMName E c) (startWorld E c)) as Hb0
    by (split; [apply sameOutput_refl|apply startWorld_vm_name]).
  unfold workSteps in Hcont.
  inversion Hcont as [|? ? ? w1 ? Hpull Hcont1]; subst; clear Hcont.
  inversion Hcont1 as [|? ? ? w2 ? Hcreate Hcont2]; subst; clear Hcont1.
  inversion Hcont2 as [|? ? ? w3 ? Hstart Hcont3]; subst; clear Hcont2.
  inversion Hcont3 as [|? ? ? w4 ? Hwait Hcont4]; subst; clear Hcont3.
  inversion Hcont4 as [|? ? ? w5 ? Hkeygen Hcont5]; subst; clear Hcont4.
  inversion Hcont5 as [|? ? ? w6 ? Hconnect Hcont6]; subst; clear Hcont5.
  inversion Hcont6 as [|? ? ? w7 ? Hprovision Hcont7]; subst; clear Hcont6.
  inversion Hcont7 as [|? ? ? w8 ? Hstop Hcont8]; subst; clear Hcont7.
  inversion Hcont8 as [|? ? ? w9 ? Himage Hcont9]; subst; clear Hcont8.
  inversion Hcont9 as [|? ? ? w10' ? Hpush Hcont10]; subst; clear Hcont9.
  inversion Hcont10; subst; clear Hcont10.
  cbn [Run stepPullImage stepCreateVM stepStartVM stepWaitForVM StepProvision
         stepStopVM stepCreateImage stepPushImage] in *.
  apply (pull_commands E c _ _ _ Hb0) in Hpull as [Hb1 [pulled Hc1]].
  apply (createVM_commands E c _ _ _ Hb1) in Hcreate as [Hb2 Hc2].
  apply (startVM_commands E c _ _ _ Hb2) in Hstart as [Hb3 Hc3].
  apply (wait_commands E c _ _ _ _ Hb3) in Hwait as [Hb4 [polls Hc4]].
  assert (w5 = w4) as ->.
  { destruct (_ && _); cbn [If Run StepSSHKeyGen] in Hkeygen;
      [apply collaborator_continue in Hkeygen; exact Hkeygen
      |injection Hkeygen as <-; reflexivity]. }
  apply (connect_commands E c _ _ _ Hb4) in Hconnect as [Hb6 Hc6].
  apply collaborator_continue in Hprovision as ->.
  apply (stopVM_commands E c _ _ _ Hb6) in Hstop as [Hb8 Hc8].
  apply (createImage_commands E c _ _ _ Hb8) in Himage as (Hb9 & Hc9 & Hname).
  apply (push_commands E c _ _ _ Hb9 Hname) in Hpush as [Hb10 Hc10].
  apply (cleanup_commands E c _ _ _ Hb10) in Hclean.
  exists pulled, polls. unfold protocol.
  rewrite Hclean, Hc10, Hc9, Hc8, Hc6, Hc4, Hc3, Hc2, Hc1.
  unfold commands, startWorld. world_simpl. cbn [map app].
  rewrite <- !app_assoc. cbn [app]. reflexivity.
Qed.

Lemma successful_build_protocol_witness :
  exists (pulled : bool) (polls : nat),
    commands (finalWorld (Builder_Run (bootingEnv 6 0 false) 40 (demoConfig false))
                (initialWorld (demoConfig false)))
    = protocol (demoConfig false)
        (buildVMName (bootingEnv 6 0 false) (demoConfig false)) pulled polls.
Proof.
  apply (successful_build_protocol (bootingEnv 6 0 false) 40 (demoConfig false)
           (finalValue (Builder_Run (bootingEnv 6 0 false) 40 (demoConfig false))
              (None, None))).
  - vm_compute. reflexivity.
  - vm_compute. eexists. reflexivity.
Defined.

(** * The existence check of the base image *)

Lemma HasPrefix_app s t : HasPrefix (s +:+ t) s = true.
Proof.
  induction s as [|a s IH]; [destruct t; reflexivity|].
  rewrite app_cons. simpl. rewrite Ascii.eqb_refl. exact IH.
Qed.

Lemma Contains_prefix s sub : HasPrefix s sub = true -> Contains s sub = true.
Proof. intros H. destruct s; simpl in *; rewrite H; reflexivity. Qed.

Lemma Contains_app_r pre s sub :
  Contains s sub = true -> Contains (pre +:+ s) sub = true.
Proof.
  intros H. induction pre as [|a pre IH]; [exact H|].
  rewrite app_cons. simpl. rewrite IH. apply orb_true_r.
Qed.

Lemma Contains_inside pre sub post : Contains (pre +:+ sub +:+ post) sub = true.
Proof. apply Contains_app_r, Contains_prefix, HasPrefix_app. Qed.

(** X29: the existence check of PullOrCreateBaseImage is a substring
    test on the whole output of the [images] command: whenever the command
    succeeds and the name of the base image occurs anywhere in its output,
    also inside the name of another image or in a heading, the step takes
    the image to be present, starts no pull and continues. *)
Theorem pull_skipped_on_partial_match (E : Env) (w : World)
    (before after : string) :
  prepared w ->
  let r := execCombined E (length (calls w)) (imagesCmd (config w)) in
  err r = None ->
  output r = before +:+ BaseImage (config w) +:+ after ->
  exists w',
    stepPullImage_Run E w = Ok ActionContinue w'
    /\ calls w' = oneCall w (imagesCmd (config w))
    /\ bag w' = bag w.
Proof.
  intros Hp r Herr Hout.
  destruct (pull_present E w Hp) as (w' & Hrun & Hcalls & Hbag & _).
  { split; [exact Herr|]. fold r. rewrite Hout. apply Contains_inside. }
  exists w'. auto.
Qed.

Lemma pull_skipped_on_partial_match_witness :
  exists w',
    stepPullImage_Run (listingEnv "not-ubuntu:latest-broken  1.2 GB")
      (demoWorld false)
    = Ok ActionContinue w'
    /\ calls w' = oneCall (demoWorld false) (imagesCmd (demoConfig false))
    /\ bag w' = bag (demoWorld false).
Proof.
  apply (pull_skipped_on_partial_match
           (listingEnv "not-ubuntu:latest-broken  1.2 GB") (demoWorld false)
           "not-" "-broken  1.2 GB").
  - split; vm_compute; reflexivity.
  - reflexivity.
  - reflexivity.
Defined.
